(** * Verification of the driving-test quiz engine (scripts/quiz.py)

    A shallow embedding of the selection engine and of the progress state
    machine of [quiz.py], followed by the properties proved about them.

    Conventions of the embedding:
    - a Python [str] is the list of its code points ([pystr]); literals are
      written as in the source and decoded from UTF-8 by [py];
    - a Python [int] is a [Z]; a Python [float] is a binary64 value of
      [SpecFloat];
    - a JSON object used as a map is a [gmap] with [pystr] keys, a Python
      [set] of ids is a [gset Z];
    - the file system ([DATA_DIR], [progress.json]), the random generator
      and the clock make up the [World] threaded through a state-and-
      exception monad [M]. *)

From Stdlib Require Import ZArith Lia String Ascii List Permutation Sorted.
From Stdlib Require Import SpecFloat.
From stdpp Require Import base option list gmap.

Open Scope Z_scope.

(* ===================================================================== *)
(** ** Python strings *)
(* ===================================================================== *)

Abbreviation pystr := (list Z).

Module PyStr.

(** Bytes of a literal. *)
Fixpoint bytes (s : string) : list Z :=
  match s with
  | EmptyString => []
  | String a s' => Z.of_nat (nat_of_ascii a) :: bytes s'
  end.

(** UTF-8 decoding of the bytes of a literal: [need] continuation bytes
    are still expected for the code point accumulated in [acc]. *)
Fixpoint utf8 (need : nat) (acc : Z) (bs : list Z) : pystr :=
  match bs with
  | [] => []
  | b :: bs' =>
      match need with
      | O =>
          if b <? 128 then b :: utf8 0 0 bs'
          else if b <? 224 then utf8 1 (b - 192) bs'
          else if b <? 240 then utf8 2 (b - 224) bs'
          else utf8 3 (b - 240) bs'
      | S O => (acc * 64 + (b - 128)) :: utf8 0 0 bs'
      | S n => utf8 n (acc * 64 + (b - 128)) bs'
      end
  end.

Definition py (s : string) : pystr := utf8 0 0 (bytes s).

Definition eqb (a b : pystr) : bool := bool_decide (a = b).

(** [str.upper]: every code point is replaced by its full upper-case
    mapping, whatever stands around it.  The table is that of Unicode
    14.0, the one of CPython 3.11.  A row [(first, last, step, delta)] of
    [UPPER_RUNS] sends every [step]-th code point from [first] to [last]
    to itself plus [delta]; [UPPER_SPECIAL] lists the code points that
    become several.  Every other code point (digits, punctuation, CJK
    ideographs) is left as it is. *)
Definition UPPER_RUNS : list (Z * Z * Z * Z) :=
  [
    (97, 122, 1, -32); (181, 181, 1, 743); (224, 246, 1, -32);
    (248, 254, 1, -32); (255, 255, 1, 121); (257, 303, 2, -1);
    (305, 305, 1, -232); (307, 311, 2, -1); (314, 328, 2, -1);
    (331, 375, 2, -1); (378, 382, 2, -1); (383, 383, 1, -300);
    (384, 384, 1, 195); (387, 389, 2, -1); (392, 392, 1, -1);
    (396, 396, 1, -1); (402, 402, 1, -1); (405, 405, 1, 97);
    (409, 409, 1, -1); (410, 410, 1, 163); (414, 414, 1, 130);
    (417, 421, 2, -1); (424, 424, 1, -1); (429, 429, 1, -1);
    (432, 432, 1, -1); (436, 438, 2, -1); (441, 441, 1, -1);
    (445, 445, 1, -1); (447, 447, 1, 56); (453, 453, 1, -1);
    (454, 454, 1, -2); (456, 456, 1, -1); (457, 457, 1, -2);
    (459, 459, 1, -1); (460, 460, 1, -2); (462, 476, 2, -1);
    (477, 477, 1, -79); (479, 495, 2, -1); (498, 498, 1, -1);
    (499, 499, 1, -2); (501, 501, 1, -1); (505, 543, 2, -1);
    (547, 563, 2, -1); (572, 572, 1, -1); (575, 576, 1, 10815);
    (578, 578, 1, -1); (583, 591, 2, -1); (592, 592, 1, 10783);
    (593, 593, 1, 10780); (594, 594, 1, 10782); (595, 595, 1, -210);
    (596, 596, 1, -206); (598, 599, 1, -205); (601, 601, 1, -202);
    (603, 603, 1, -203); (604, 604, 1, 42319); (608, 608, 1, -205);
    (609, 609, 1, 42315); (611, 611, 1, -207); (613, 613, 1, 42280);
    (614, 614, 1, 42308); (616, 616, 1, -209); (617, 617, 1, -211);
    (618, 618, 1, 42308); (619, 619, 1, 10743); (620, 620, 1, 42305);
    (623, 623, 1, -211); (625, 625, 1, 10749); (626, 626, 1, -213);
    (629, 629, 1, -214); (637, 637, 1, 10727); (640, 640, 1, -218);
    (642, 642, 1, 42307); (643, 643, 1, -218); (647, 647, 1, 42282);
    (648, 648, 1, -218); (649, 649, 1, -69); (650, 651, 1, -217);
    (652, 652, 1, -71); (658, 658, 1, -219); (669, 669, 1, 42261);
    (670, 670, 1, 42258); (837, 837, 1, 84); (881, 883, 2, -1);
    (887, 887, 1, -1); (891, 893, 1, 130); (940, 940, 1, -38);
    (941, 943, 1, -37); (945, 961, 1, -32); (962, 962, 1, -31);
    (963, 971, 1, -32); (972, 972, 1, -64); (973, 974, 1, -63);
    (976, 976, 1, -62); (977, 977, 1, -57); (981, 981, 1, -47);
    (982, 982, 1, -54); (983, 983, 1, -8); (985, 1007, 2, -1);
    (1008, 1008, 1, -86); (1009, 1009, 1, -80); (1010, 1010, 1, 7);
    (1011, 1011, 1, -116); (1013, 1013, 1, -96); (1016, 1016, 1, -1);
    (1019, 1019, 1, -1); (1072, 1103, 1, -32); (1104, 1119, 1, -80);
    (1121, 1153, 2, -1); (1163, 1215, 2, -1); (1218, 1230, 2, -1);
    (1231, 1231, 1, -15); (1233, 1327, 2, -1); (1377, 1414, 1, -48);
    (4304, 4346, 1, 3008); (4349, 4351, 1, 3008); (5112, 5117, 1, -8);
    (7296, 7296, 1, -6254); (7297, 7297, 1, -6253); (7298, 7298, 1, -6244);
    (7299, 7300, 1, -6242); (7301, 7301, 1, -6243); (7302, 7302, 1, -6236);
    (7303, 7303, 1, -6181); (7304, 7304, 1, 35266); (7545, 7545, 1, 35332);
    (7549, 7549, 1, 3814); (7566, 7566, 1, 35384); (7681, 7829, 2, -1);
    (7835, 7835, 1, -59); (7841, 7935, 2, -1); (7936, 7943, 1, 8);
    (7952, 7957, 1, 8); (7968, 7975, 1, 8); (7984, 7991, 1, 8);
    (8000, 8005, 1, 8); (8017, 8023, 2, 8); (8032, 8039, 1, 8);
    (8048, 8049, 1, 74); (8050, 8053, 1, 86); (8054, 8055, 1, 100);
    (8056, 8057, 1, 128); (8058, 8059, 1, 112); (8060, 8061, 1, 126);
    (8112, 8113, 1, 8); (8126, 8126, 1, -7205); (8144, 8145, 1, 8);
    (8160, 8161, 1, 8); (8165, 8165, 1, 7); (8526, 8526, 1, -28);
    (8560, 8575, 1, -16); (8580, 8580, 1, -1); (9424, 9449, 1, -26);
    (11312, 11359, 1, -48); (11361, 11361, 1, -1); (11365, 11365, 1, -10795);
    (11366, 11366, 1, -10792); (11368, 11372, 2, -1); (11379, 11379, 1, -1);
    (11382, 11382, 1, -1); (11393, 11491, 2, -1); (11500, 11502, 2, -1);
    (11507, 11507, 1, -1); (11520, 11557, 1, -7264); (11559, 11559, 1, -7264);
    (11565, 11565, 1, -7264); (42561, 42605, 2, -1); (42625, 42651, 2, -1);
    (42787, 42799, 2, -1); (42803, 42863, 2, -1); (42874, 42876, 2, -1);
    (42879, 42887, 2, -1); (42892, 42892, 1, -1); (42897, 42899, 2, -1);
    (42900, 42900, 1, 48); (42903, 42921, 2, -1); (42933, 42947, 2, -1);
    (42952, 42954, 2, -1); (42961, 42961, 1, -1); (42967, 42969, 2, -1);
    (42998, 42998, 1, -1); (43859, 43859, 1, -928); (43888, 43967, 1, -38864);
    (65345, 65370, 1, -32); (66600, 66639, 1, -40); (66776, 66811, 1, -40);
    (66967, 66977, 1, -39); (66979, 66993, 1, -39); (66995, 67001, 1, -39);
    (67003, 67004, 1, -39); (68800, 68850, 1, -64); (71872, 71903, 1, -32);
    (93792, 93823, 1, -32); (125218, 125251, 1, -34) ].

Definition UPPER_SPECIAL : list (Z * list Z) :=
  [
    (223, [83; 83]); (329, [700; 78]); (496, [74; 780]);
    (912, [921; 776; 769]); (944, [933; 776; 769]); (1415, [1333; 1362]);
    (7830, [72; 817]); (7831, [84; 776]); (7832, [87; 778]);
    (7833, [89; 778]); (7834, [65; 702]); (8016, [933; 787]);
    (8018, [933; 787; 768]); (8020, [933; 787; 769]); (8022, [933; 787; 834]);
    (8064, [7944; 921]); (8065, [7945; 921]); (8066, [7946; 921]);
    (8067, [7947; 921]); (8068, [7948; 921]); (8069, [7949; 921]);
    (8070, [7950; 921]); (8071, [7951; 921]); (8072, [7944; 921]);
    (8073, [7945; 921]); (8074, [7946; 921]); (8075, [7947; 921]);
    (8076, [7948; 921]); (8077, [7949; 921]); (8078, [7950; 921]);
    (8079, [7951; 921]); (8080, [7976; 921]); (8081, [7977; 921]);
    (8082, [7978; 921]); (8083, [7979; 921]); (8084, [7980; 921]);
    (8085, [7981; 921]); (8086, [7982; 921]); (8087, [7983; 921]);
    (8088, [7976; 921]); (8089, [7977; 921]); (8090, [7978; 921]);
    (8091, [7979; 921]); (8092, [7980; 921]); (8093, [7981; 921]);
    (8094, [7982; 921]); (8095, [7983; 921]); (8096, [8040; 921]);
    (8097, [8041; 921]); (8098, [8042; 921]); (8099, [8043; 921]);
    (8100, [8044; 921]); (8101, [8045; 921]); (8102, [8046; 921]);
    (8103, [8047; 921]); (8104, [8040; 921]); (8105, [8041; 921]);
    (8106, [8042; 921]); (8107, [8043; 921]); (8108, [8044; 921]);
    (8109, [8045; 921]); (8110, [8046; 921]); (8111, [8047; 921]);
    (8114, [8122; 921]); (8115, [913; 921]); (8116, [902; 921]);
    (8118, [913; 834]); (8119, [913; 834; 921]); (8124, [913; 921]);
    (8130, [8138; 921]); (8131, [919; 921]); (8132, [905; 921]);
    (8134, [919; 834]); (8135, [919; 834; 921]); (8140, [919; 921]);
    (8146, [921; 776; 768]); (8147, [921; 776; 769]); (8150, [921; 834]);
    (8151, [921; 776; 834]); (8162, [933; 776; 768]); (8163, [933; 776; 769]);
    (8164, [929; 787]); (8166, [933; 834]); (8167, [933; 776; 834]);
    (8178, [8186; 921]); (8179, [937; 921]); (8180, [911; 921]);
    (8182, [937; 834]); (8183, [937; 834; 921]); (8188, [937; 921]);
    (64256, [70; 70]); (64257, [70; 73]); (64258, [70; 76]);
    (64259, [70; 70; 73]); (64260, [70; 70; 76]); (64261, [83; 84]);
    (64262, [83; 84]); (64275, [1348; 1350]); (64276, [1348; 1333]);
    (64277, [1348; 1339]); (64278, [1358; 1350]); (64279, [1348; 1341]) ].

Fixpoint run_delta (c : Z) (runs : list (Z * Z * Z * Z)) : Z :=
  match runs with
  | [] => 0
  | (first, last, step, delta) :: rest =>
      if (first <=? c) && (c <=? last) && ((c - first) mod step =? 0)
      then delta
      else run_delta c rest
  end.

Fixpoint special_of (c : Z) (table : list (Z * list Z)) : option (list Z) :=
  match table with
  | [] => None
  | (c', mapped) :: rest => if c' =? c then Some mapped else special_of c rest
  end.

Definition upper_char (c : Z) : list Z :=
  match special_of c UPPER_SPECIAL with
  | Some mapped => mapped
  | None => [c + run_delta c UPPER_RUNS]
  end.

Definition upper (s : pystr) : pystr := flat_map upper_char s.

(** [str.lower], which the program uses only to compare a vehicle class
    with the ASCII keys of [VTYPE_ALIAS]: ASCII letters change case,
    every other code point is left as it is. *)
Definition lower_char (c : Z) : Z :=
  if (65 <=? c) && (c <=? 90) then c + 32 else c.
Definition lower (s : pystr) : pystr := map lower_char s.

(** [str.isspace] per code point (the Unicode White_Space set used by
    CPython, plus the four separators U+001C..U+001F). *)
Definition is_space (c : Z) : bool :=
  ((9 <=? c) && (c <=? 13)) || ((28 <=? c) && (c <=? 32))
  || (c =? 133) || (c =? 160) || (c =? 5760)
  || ((8192 <=? c) && (c <=? 8202))
  || (c =? 8232) || (c =? 8233) || (c =? 8239) || (c =? 8287)
  || (c =? 12288).

Fixpoint lstrip (s : pystr) : pystr :=
  match s with
  | c :: s' => if is_space c then lstrip s' else s
  | [] => []
  end.
Definition rstrip (s : pystr) : pystr := rev (lstrip (rev s)).
(** [s.strip()] *)
Definition strip (s : pystr) : pystr := rstrip (lstrip s).

Fixpoint starts_with (k s : pystr) : bool :=
  match k, s with
  | [], _ => true
  | a :: k', b :: s' => (a =? b) && starts_with k' s'
  | _ :: _, [] => false
  end.

(** [s.replace(k, v)] for a non-empty [k]: every non-overlapping
    occurrence of [k], scanning from the left, becomes [v].  [skip]
    counts the code points of a matched occurrence still to drop. *)
Fixpoint replace_from (k v : pystr) (skip : nat) (s : pystr) : pystr :=
  match s with
  | [] => []
  | c :: s' =>
      match skip with
      | S n => replace_from k v n s'
      | O =>
          if starts_with k s
          then v ++ replace_from k v (Nat.pred (length k)) s'
          else c :: replace_from k v 0 s'
      end
  end.
Definition replace (k v s : pystr) : pystr := replace_from k v 0 s.

(** [str(n)] for an [int]. *)
Fixpoint digits (fuel : nat) (n : Z) (acc : pystr) : pystr :=
  match fuel with
  | O => acc
  | S f =>
      if n <? 10 then (48 + n) :: acc
      else digits f (n / 10) ((48 + n mod 10) :: acc)
  end.
Definition str_of_nonneg (n : Z) : pystr :=
  digits (S (Z.to_nat (Z.log2 n))) n [].
Definition str (n : Z) : pystr :=
  if n <? 0 then 45 :: str_of_nonneg (- n) else str_of_nonneg n.

End PyStr.
Import PyStr.

(* ===================================================================== *)
(** ** Python floats (IEEE 754 binary64) *)
(* ===================================================================== *)

Module PyFloat.

Definition prec : Z := 53.
Definition emax : Z := 1024.

Abbreviation float := spec_float.

(** An [int] seen as an unrounded float. *)
Definition of_int (z : Z) : float :=
  match z with
  | Z0 => S754_zero false
  | Zpos p => S754_finite false p 0
  | Zneg p => S754_finite true p 0
  end.

(** [float(z)]: the nearest binary64 value. *)
Definition to_float (z : Z) : float := binary_normalize prec emax z 0 false.

Definition fsub (x y : float) : float := SFsub prec emax x y.
Definition fmul (x y : float) : float := SFmul prec emax x y.
Definition fneg (x : float) : float := SFopp x.
Definition feqb (x y : float) : bool := SFeqb x y.
Definition fltb (x y : float) : bool := SFltb x y.

End PyFloat.
Import PyFloat.


(* ===================================================================== *)
(** ** Python lists *)
(* ===================================================================== *)

Module PyList.

(** [len(l)] *)
Definition len {A} (l : list A) : Z := Z.of_nat (length l).

(** A slice bound brought into [0, n] the way Python does it: a negative
    bound counts from the end. *)
Definition clamp (n i : Z) : Z :=
  if i <? 0 then Z.max 0 (i + n) else Z.min i n.

(** [l[i:j]] *)
Definition slice {A} (l : list A) (i j : Z) : list A :=
  let a := clamp (len l) i in
  let b := clamp (len l) j in
  take (Z.to_nat (b - a)) (drop (Z.to_nat a) l).

(** [l[:j]] *)
Definition prefix {A} (l : list A) (j : Z) : list A := slice l 0 j.

(** [x in l] for a list of ids *)
Definition mem (x : Z) (l : list Z) : bool := bool_decide (x ∈ l).

(** [l.remove(x)] once [x in l] has been tested: the first occurrence
    goes. *)
Fixpoint remove (x : Z) (l : list Z) : list Z :=
  match l with
  | [] => []
  | y :: l' => if x =? y then l' else y :: remove x l'
  end.

(** [l.sort(key=...)]: Python's sort is stable and only asks whether one
    key is less than another; [lt a b] is that test on the elements.
    Insertion from the right is the stable sort. *)
Section Sort.
Context {A : Type} (lt : A -> A -> bool).

Fixpoint insert (x : A) (l : list A) : list A :=
  match l with
  | [] => [x]
  | y :: l' => if lt y x then y :: insert x l' else x :: l
  end.

Definition sort (l : list A) : list A := foldr insert [] l.
End Sort.

End PyList.
Import PyList.

(* ===================================================================== *)
(** ** Data model *)
(* ===================================================================== *)

(** A question of a corpus file ([data["questions"][i]]). *)
Record Question := mkQuestion {
  q_id : Z;
  q_subject : Z;
  q_category : pystr;
  q_type : pystr;
  q_question : pystr;
  q_options : list pystr;
  q_answer : pystr;
  q_explanation : pystr;
  q_image : option pystr;
}.

(** [progress["categories"][cat]] *)
Record CatData := mkCatData {
  cat_answered : Z;
  cat_correct : Z;
  cat_answered_ids : list Z;
}.

(** [progress["question_stats"][str(id)]] *)
Record QStat := mkQStat {
  st_attempts : Z;
  st_correct : Z;
}.

(** An entry of [progress["mock_exams"]]. *)
Record ExamRecord := mkExamRecord {
  ex_date : pystr;
  ex_vehicle_type : pystr;
  ex_subject : Z;
  ex_score : Z;
  ex_total : Z;
  ex_passed : bool;
}.

(** The content of [progress.json]: a JSON object in which each of the
    eight top-level keys may be present or not. *)
Record Progress := mkProgress {
  total_answered : option Z;
  total_correct : option Z;
  categories : option (gmap pystr CatData);
  wrong_questions : option (list Z);
  favorites : option (list Z);
  sequential_pos : option (gmap pystr Z);
  question_stats : option (gmap pystr QStat);
  mock_exams : option (list ExamRecord);
}.

Definition set_total_answered (v : Z) (p : Progress) : Progress :=
  mkProgress (Some v) (total_correct p) (categories p) (wrong_questions p)
    (favorites p) (sequential_pos p) (question_stats p) (mock_exams p).
Definition set_total_correct (v : Z) (p : Progress) : Progress :=
  mkProgress (total_answered p) (Some v) (categories p) (wrong_questions p)
    (favorites p) (sequential_pos p) (question_stats p) (mock_exams p).
Definition set_categories (v : gmap pystr CatData) (p : Progress) : Progress :=
  mkProgress (total_answered p) (total_correct p) (Some v) (wrong_questions p)
    (favorites p) (sequential_pos p) (question_stats p) (mock_exams p).
Definition set_wrong_questions (v : list Z) (p : Progress) : Progress :=
  mkProgress (total_answered p) (total_correct p) (categories p) (Some v)
    (favorites p) (sequential_pos p) (question_stats p) (mock_exams p).
Definition set_favorites (v : list Z) (p : Progress) : Progress :=
  mkProgress (total_answered p) (total_correct p) (categories p)
    (wrong_questions p) (Some v) (sequential_pos p) (question_stats p)
    (mock_exams p).
Definition set_sequential_pos (v : gmap pystr Z) (p : Progress) : Progress :=
  mkProgress (total_answered p) (total_correct p) (categories p)
    (wrong_questions p) (favorites p) (Some v) (question_stats p)
    (mock_exams p).
Definition set_question_stats (v : gmap pystr QStat) (p : Progress) : Progress :=
  mkProgress (total_answered p) (total_correct p) (categories p)
    (wrong_questions p) (favorites p) (sequential_pos p) (Some v)
    (mock_exams p).
Definition set_mock_exams (v : list ExamRecord) (p : Progress) : Progress :=
  mkProgress (total_answered p) (total_correct p) (categories p)
    (wrong_questions p) (favorites p) (sequential_pos p) (question_stats p)
    (Some v).

(* ===================================================================== *)
(** ** The world and the command monad *)
(* ===================================================================== *)

(** What a command prints as [{"error": ...}]. *)
Inductive Error :=
  | UnsupportedVtype (raw : pystr)
  | CorpusNotFound (file : pystr)
  | QuestionNotFound (qid : Z).

Inductive Exn :=
  | KeyError (key : string)
  | ValueError
  | ZeroDivisionError
  | OverflowError
  | SystemExit (printed : Error).

Inductive Res (A : Type) :=
  | Ok (a : A)
  | Raise (e : Exn).
Arguments Ok {A} a.
Arguments Raise {A} e.

(** [data_dir] maps the name of a corpus file under [DATA_DIR] to its
    ["questions"] list; [progress_file] is [progress.json] when it exists;
    [rng] holds the raw draws the random generator will hand out;
    [clock] is what [datetime.now().strftime(...)] returns. *)
Record World := mkWorld {
  data_dir : gmap pystr (list Question);
  progress_file : option Progress;
  rng : list nat;
  clock : pystr;
}.

Definition M (A : Type) : Type := World -> Res A * World.

Definition ret {A} (a : A) : M A := fun w => (Ok a, w).
Definition raise {A} (e : Exn) : M A := fun w => (Raise e, w).
Definition bind {A B} (m : M A) (f : A -> M B) : M B :=
  fun w => match m w with
           | (Ok a, w') => f a w'
           | (Raise e, w') => (Raise e, w')
           end.
Definition lift {A} (r : Res A) : M A := fun w => (r, w).

Notation "x <- m ;; k" := (bind m (fun x => k))
  (at level 100, m at next level, right associativity).
Notation "m ;;; k" := (bind m (fun _ => k))
  (at level 100, right associativity).

(** [d[key]] on a top-level key of the progress record. *)
Definition getitem {A} (key : string) (field : option A) : M A :=
  match field with
  | Some v => ret v
  | None => raise (KeyError key)
  end.

(** [d.get(key, dflt)] *)
Definition get_or {A} (field : option A) (dflt : A) : A :=
  match field with
  | Some v => v
  | None => dflt
  end.

(* ===================================================================== *)
(** ** The [random] module *)
(* ===================================================================== *)

(** One raw draw, reduced to an index below [n]; an exhausted generator
    hands out zeros. *)
Definition randbelow (n : nat) : M nat :=
  fun w => match rng w with
           | [] => (Ok O, w)
           | r :: rest =>
               (Ok (r mod n)%nat,
                mkWorld (data_dir w) (progress_file w) rest (clock w))
           end.

(** [k] draws without replacement.  Whatever algorithm [random.sample]
    runs, its result is such a sequence of draws for some content of the
    generator. *)
Fixpoint draw {A} (k : nat) (pop : list A) : M (list A) :=
  match k with
  | O => ret []
  | S k' =>
      i <- randbelow (length pop) ;;
      match pop !! i with
      | None => ret []
      | Some x => rest <- draw k' (delete i pop) ;; ret (x :: rest)
      end
  end.

(** [random.sample(pop, k)] *)
Definition random_sample {A} (pop : list A) (k : Z) : M (list A) :=
  if (k <? 0) || (len pop <? k) then raise ValueError
  else draw (Z.to_nat k) pop.

(** [random.shuffle(x)]; the shuffled list is returned instead of being
    written over [x]. *)
Definition random_shuffle {A} (x : list A) : M (list A) :=
  draw (length x) x.

(* ===================================================================== *)
(** ** quiz.py: helpers *)
(* ===================================================================== *)

Definition VTYPE_ALIAS : list (pystr * pystr) :=
  [ (py "a1", py "a1"); (py "a3", py "a1"); (py "b1", py "a1");
    (py "a2", py "a2"); (py "b2", py "a2");
    (py "c1", py "c1"); (py "c2", py "c1"); (py "c3", py "c1");
    (py "d", py "d"); (py "e", py "d"); (py "f", py "d") ].

(** The keys of [VTYPE_LABELS], in the order of the dictionary. *)
Definition VTYPE_LABELS : list pystr := [py "c1"; py "a1"; py "a2"; py "d"].

Fixpoint assoc (k : pystr) (l : list (pystr * pystr)) : option pystr :=
  match l with
  | [] => None
  | (k', v) :: l' => if eqb k' k then Some v else assoc k l'
  end.

Definition resolve_vtype (raw : pystr) : M pystr :=
  let key := lower (strip raw) in
  match assoc key VTYPE_ALIAS with
  | None => raise (SystemExit (UnsupportedVtype raw))
  | Some v => ret v
  end.

(** [f"{vtype}_subject{subject}"] *)
Definition pos_key_of (vtype : pystr) (subject : Z) : pystr :=
  vtype ++ py "_subject" ++ str subject.

(** [f"{vtype}_subject{subject}.json"] *)
Definition corpus_file (vtype : pystr) (subject : Z) : pystr :=
  pos_key_of vtype subject ++ py ".json".

Definition load_questions (subject : Z) (vtype : pystr) : M (list Question) :=
  fun w =>
    match data_dir w !! corpus_file vtype subject with
    | None => (Raise (SystemExit (CorpusNotFound (corpus_file vtype subject))), w)
    | Some questions => (Ok questions, w)
    end.

(** The inner loop of [find_question_by_id]. *)
Fixpoint first_with_id (qid : Z) (questions : list Question) : option Question :=
  match questions with
  | [] => None
  | q :: rest => if q_id q =? qid then Some q else first_with_id qid rest
  end.

(** The files visited by the two outer loops, in order. *)
Definition known_corpora : list pystr :=
  flat_map (fun vtype => map (corpus_file vtype) [1; 4]) VTYPE_LABELS.

Fixpoint find_in (dir : gmap pystr (list Question)) (qid : Z)
    (files : list pystr) : option Question :=
  match files with
  | [] => None
  | file :: rest =>
      match dir !! file with
      | None => find_in dir qid rest
      | Some questions =>
          match first_with_id qid questions with
          | Some q => Some q
          | None => find_in dir qid rest
          end
      end
  end.

Definition find_question_by_id (qid : Z) : M (option Question) :=
  fun w => (Ok (find_in (data_dir w) qid known_corpora), w).

Definition _default_progress : Progress :=
  mkProgress (Some 0) (Some 0) (Some ∅) (Some []) (Some []) (Some ∅)
    (Some ∅) (Some []).

Definition load_progress : M Progress :=
  fun w =>
    match progress_file w with
    | Some p => (Ok p, w)
    | None => (Ok _default_progress, w)
    end.

Definition save_progress (progress : Progress) : M unit :=
  fun w => (Ok tt, mkWorld (data_dir w) (Some progress) (rng w) (clock w)).

Definition ensure_fields (progress : Progress) : Progress :=
  let progress :=
    match favorites progress with
    | None => set_favorites [] progress
    | Some _ => progress
    end in
  let progress :=
    match sequential_pos progress with
    | None => set_sequential_pos ∅ progress
    | Some _ => progress
    end in
  let progress :=
    match question_stats progress with
    | None => set_question_stats ∅ progress
    | Some _ => progress
    end in
  progress.

(** The payload of one question; [format_question] withholds the answer
    and the explanation.  The optional ["topics"] entry, computed from the
    text of the question by the regular expressions of [TOPIC_RULES], is
    not part of the embedding. *)
Record Formatted := mkFormatted {
  f_id : Z;
  f_subject : Z;
  f_category : pystr;
  f_type : pystr;
  f_question : pystr;
  f_options : list pystr;
  f_image : option pystr;
}.

Definition format_question (q : Question) : Formatted :=
  mkFormatted (q_id q) (q_subject q) (q_category q) (q_type q)
    (q_question q) (q_options q) (q_image q).

(** [x / y] on two [int]s: the quotient rounded once to binary64. *)
Definition truediv (x y : Z) : Res float :=
  if y =? 0 then Raise ZeroDivisionError
  else match SFdiv prec emax (of_int x) (of_int y) with
       | S754_infinity _ => Raise OverflowError
       | f => Ok f
       end.

(** [1 - correct / attempts] *)
Definition error_rate_of (correct attempts : Z) : Res float :=
  match truediv correct attempts with
  | Ok f => Ok (fsub (to_float 1) f)
  | Raise e => Raise e
  end.

(** [r * 100] *)
Definition percent (r : float) : float := fmul r (to_float 100).

(* ===================================================================== *)
(** ** quiz.py: sequential practice *)
(* ===================================================================== *)

Record SequentialBatch := mkSequentialBatch {
  sq_vehicle_type : pystr;
  sq_subject : Z;
  sq_position : Z;
  sq_end_position : Z;
  sq_total : Z;
  sq_remaining : Z;
  sq_progress_pct : float;      (* the value printed with one decimal *)
  sq_count : Z;
  sq_questions : list Formatted;
}.

Inductive SequentialOut :=
  | SeqReset (key : pystr) (position total : Z)
  | SeqFinished (position total : Z)
  | SeqBatch (b : SequentialBatch).

Definition cmd_sequential (subject : Z) (vtype : pystr) (count : Z)
    (reset : bool) : M SequentialOut :=
  vtype <- resolve_vtype vtype ;;
  questions <- load_questions subject vtype ;;
  progress <- load_progress ;;
  let progress := ensure_fields progress in
  let pos_key := pos_key_of vtype subject in
  if reset then
    pos <- getitem "sequential_pos" (sequential_pos progress) ;;
    let progress := set_sequential_pos (<[pos_key := 0]> pos) progress in
    save_progress progress ;;;
    ret (SeqReset pos_key 0 (len questions))
  else
    pos <- getitem "sequential_pos" (sequential_pos progress) ;;
    let current_pos := get_or (pos !! pos_key) 0 in
    let total := len questions in
    if total <=? current_pos then
      ret (SeqFinished current_pos total)
    else
      let end_pos := Z.min (current_pos + count) total in
      let selected := slice questions current_pos end_pos in
      let progress := set_sequential_pos (<[pos_key := end_pos]> pos) progress in
      save_progress progress ;;;
      ratio <- lift (truediv end_pos total) ;;
      ret (SeqBatch
             (mkSequentialBatch vtype subject (current_pos + 1) end_pos total
                (total - end_pos) (percent ratio) (len selected)
                (map format_question selected))).

(* ===================================================================== *)
(** ** quiz.py: checking an answer *)
(* ===================================================================== *)

Definition normalize_map : list (pystr * pystr) :=
  [ (py "正确", py "对"); (py "错误", py "错");
    (py "TRUE", py "对"); (py "FALSE", py "错");
    (py "RIGHT", py "对"); (py "WRONG", py "错") ].

(** Lines 334-344 of [cmd_check]: the value of [is_correct]. *)
Definition is_correct_answer (q : Question) (answer : pystr) : bool :=
  let user_answer := upper (strip answer) in
  let correct_answer := upper (strip (q_answer q)) in
  if eqb (q_type q) (py "judge") then
    let user_normalized :=
      fold_left (fun s kv => replace (fst kv) (snd kv) s)
        normalize_map user_answer in
    eqb user_normalized correct_answer
  else eqb user_answer correct_answer.

(** The printed result; ["topics"] and ["mnemonics"], read-only lookups on
    the text of the question, are not part of the embedding.  The error
    rate is the value that is printed rounded, [None] standing for "N/A". *)
Record CheckResult := mkCheckResult {
  cr_question_id : Z;
  cr_correct : bool;
  cr_user_answer : pystr;
  cr_correct_answer : pystr;
  cr_explanation : pystr;
  cr_category : pystr;
  cr_error_rate : option float;
  cr_attempts : Z;
}.

Definition bump_answered (qid : Z) (c : CatData) : CatData :=
  mkCatData (cat_answered c + 1) (cat_correct c) (cat_answered_ids c ++ [qid]).
Definition bump_correct (c : CatData) : CatData :=
  mkCatData (cat_answered c) (cat_correct c + 1) (cat_answered_ids c).

(** Lines 347-368 of [cmd_check]: the updates made to the loaded record
    before it is saved; the last component is the updated
    [question_stats]. *)
Definition record_answer (q : Question) (is_correct : bool)
    (progress : Progress) : M (Progress * gmap pystr QStat) :=
  answered <- getitem "total_answered" (total_answered progress) ;;
  let progress := set_total_answered (answered + 1) progress in
  let cat := q_category q in
  cats <- getitem "categories" (categories progress) ;;
  let cats :=
    match cats !! cat with
    | None => <[cat := mkCatData 0 0 []]> cats
    | Some _ => cats
    end in
  let cats := alter (bump_answered (q_id q)) cat cats in
  let progress := set_categories cats progress in
  progress <-
    (if is_correct then
       correct <- getitem "total_correct" (total_correct progress) ;;
       let progress := set_total_correct (correct + 1) progress in
       let progress := set_categories (alter bump_correct cat cats) progress in
       wrong <- getitem "wrong_questions" (wrong_questions progress) ;;
       if mem (q_id q) wrong
       then ret (set_wrong_questions (remove (q_id q) wrong) progress)
       else ret progress
     else
       wrong <- getitem "wrong_questions" (wrong_questions progress) ;;
       if negb (mem (q_id q) wrong)
       then ret (set_wrong_questions (wrong ++ [q_id q]) progress)
       else ret progress) ;;
  let qid_str := str (q_id q) in
  stats <- getitem "question_stats" (question_stats progress) ;;
  let stats :=
    match stats !! qid_str with
    | None => <[qid_str := mkQStat 0 0]> stats
    | Some _ => stats
    end in
  let stats :=
    alter (fun s => mkQStat (st_attempts s + 1) (st_correct s)) qid_str stats in
  let stats :=
    if is_correct
    then alter (fun s => mkQStat (st_attempts s) (st_correct s + 1)) qid_str stats
    else stats in
  ret (set_question_stats stats progress, stats).

(** Lines 372-391 of [cmd_check]: the printed result. *)
Definition check_result (q : Question) (is_correct : bool) (answer : pystr)
    (stats : gmap pystr QStat) : M CheckResult :=
  qs <- getitem "question_stats[qid]" (stats !! str (q_id q)) ;;
  error_rate <-
    (if 0 <? st_attempts qs then
       r <- lift (error_rate_of (st_correct qs) (st_attempts qs)) ;;
       ret (Some (percent r))
     else ret None) ;;
  ret (mkCheckResult (q_id q) is_correct answer (q_answer q)
         (q_explanation q) (q_category q) error_rate (st_attempts qs)).

Definition cmd_check (id : Z) (answer : pystr) : M (Error + CheckResult) :=
  found <- find_question_by_id id ;;
  match found with
  | None => ret (inl (QuestionNotFound id))
  | Some q =>
      let is_correct := is_correct_answer q answer in
      progress <- load_progress ;;
      updated <- record_answer q is_correct (ensure_fields progress) ;;
      save_progress (fst updated) ;;;
      result <- check_result q is_correct answer (snd updated) ;;
      ret (inr result)
  end.

(* ===================================================================== *)
(** ** quiz.py: favorites *)
(* ===================================================================== *)

Inductive FavoriteOut :=
  | FavError (e : Error)
  | Favorited (question_id total_favorites : Z)
  | AlreadyFavorited (question_id total_favorites : Z).

Definition cmd_favorite (id : Z) : M FavoriteOut :=
  progress <- load_progress ;;
  let progress := ensure_fields progress in
  let qid := id in
  found <- find_question_by_id qid ;;
  match found with
  | None => ret (FavError (QuestionNotFound qid))
  | Some _ =>
      favs <- getitem "favorites" (favorites progress) ;;
      if negb (mem qid favs) then
        let favs := favs ++ [qid] in
        save_progress (set_favorites favs progress) ;;;
        ret (Favorited qid (len favs))
      else
        ret (AlreadyFavorited qid (len favs))
  end.

Inductive UnfavoriteOut :=
  | Unfavorited (question_id total_favorites : Z)
  | NotInFavorites (question_id : Z).

Definition cmd_unfavorite (id : Z) : M UnfavoriteOut :=
  progress <- load_progress ;;
  let progress := ensure_fields progress in
  let qid := id in
  favs <- getitem "favorites" (favorites progress) ;;
  if mem qid favs then
    let favs := remove qid favs in
    save_progress (set_favorites favs progress) ;;;
    ret (Unfavorited qid (len favs))
  else
    ret (NotInFavorites qid).

(* ===================================================================== *)
(** ** quiz.py: recording a mock exam *)
(* ===================================================================== *)

Definition now : M pystr := fun w => (Ok (clock w), w).

(** Returns the ["passed"] entry of the printed [{"recorded": true, ...}]. *)
Definition cmd_record_exam (subject : Z) (vtype : pystr) (score total : Z)
    : M bool :=
  vtype <- resolve_vtype vtype ;;
  progress <- load_progress ;;
  let progress := ensure_fields progress in
  exams <- getitem "mock_exams" (mock_exams progress) ;;
  date <- now ;;
  let exams :=
    exams ++ [mkExamRecord date vtype subject score total (90 <=? score)] in
  save_progress (set_mock_exams exams progress) ;;;
  ret (90 <=? score).

(* ===================================================================== *)
(** ** quiz.py: questions ranked by error rate *)
(* ===================================================================== *)

(** An entry of [scored]: the question, its error rate, its attempts. *)
Definition Scored : Type := Question * float * Z.

(** The loop that fills [scored]. *)
Fixpoint score_questions (q_stats : gmap pystr QStat)
    (questions : list Question) : Res (list Scored) :=
  match questions with
  | [] => Ok []
  | q :: rest =>
      match q_stats !! str (q_id q) with
      | Some stats =>
          if 0 <? st_attempts stats then
            match error_rate_of (st_correct stats) (st_attempts stats) with
            | Raise e => Raise e
            | Ok error_rate =>
                match score_questions q_stats rest with
                | Raise e => Raise e
                | Ok scored => Ok ((q, error_rate, st_attempts stats) :: scored)
                end
            end
          else score_questions q_stats rest
      | None => score_questions q_stats rest
      end
  end.

(** [key=lambda x: (-x[1], -x[2])] *)
Definition sort_key (x : Scored) : float * Z := (fneg (snd (fst x)), - snd x).

(** [a < b] on two such tuples: the first components decide unless they
    are equal. *)
Definition key_lt (a b : float * Z) : bool :=
  if negb (feqb (fst a) (fst b)) then fltb (fst a) (fst b)
  else snd a <? snd b.

Definition scored_lt (x y : Scored) : bool := key_lt (sort_key x) (sort_key y).

Record HardList := mkHardList {
  hd_vehicle_type : pystr;
  hd_subject : Z;
  hd_total_with_stats : Z;
  hd_count : Z;
  (* question, error rate in percent (printed rounded), attempts *)
  hd_questions : list (Formatted * float * Z);
}.

Inductive HardOut :=
  | HardNoStats
  | HardRanked (r : HardList).

Definition cmd_hard (subject : Z) (vtype : pystr) (count : Z) : M HardOut :=
  vtype <- resolve_vtype vtype ;;
  questions <- load_questions subject vtype ;;
  progress <- load_progress ;;
  let progress := ensure_fields progress in
  let q_stats := get_or (question_stats progress) ∅ in
  scored <- lift (score_questions q_stats questions) ;;
  match scored with
  | [] => ret HardNoStats
  | _ :: _ =>
      let scored := sort scored_lt scored in
      let count := Z.min count (len scored) in
      let selected := prefix scored count in
      ret (HardRanked
             (mkHardList vtype subject (len scored) count
                (map (fun x => (format_question (fst (fst x)),
                                percent (snd (fst x)), snd x)) selected)))
  end.

(* ===================================================================== *)
(** ** quiz.py: the curated 500 *)
(* ===================================================================== *)

(** The union of every category's [answered_ids]. *)
Definition answered_ids_of (cats : gmap pystr CatData) : gset Z :=
  map_fold (fun _ cat_data (acc : gset Z) =>
              acc ∪ list_to_set (cat_answered_ids cat_data)) ∅ cats.

(** The three pools filled by the loop over [questions]; each keeps the
    order of the corpus. *)
Definition wrong_pool_of (wrong_ids : gset Z) (questions : list Question) :=
  filter (fun q => q_id q ∈ wrong_ids) questions.
Definition unanswered_pool_of (wrong_ids answered_ids : gset Z)
    (questions : list Question) :=
  filter (fun q => (q_id q ∉ wrong_ids) ∧ (q_id q ∉ answered_ids)) questions.
Definition correct_pool_of (wrong_ids answered_ids : gset Z)
    (questions : list Question) :=
  filter (fun q => (q_id q ∉ wrong_ids) ∧ (q_id q ∈ answered_ids)) questions.

(** [by_cat.setdefault(cat, []).append(q)] on a dictionary kept in
    insertion order. *)
Fixpoint setdefault_append (cat : pystr) (q : Question)
    (by_cat : list (pystr * list Question)) : list (pystr * list Question) :=
  match by_cat with
  | [] => [(cat, [q])]
  | (c, qs) :: rest =>
      if eqb c cat then (c, qs ++ [q]) :: rest
      else (c, qs) :: setdefault_append cat q rest
  end.

Definition group_by_category (pool : list Question)
    : list (pystr * list Question) :=
  fold_left (fun by_cat q => setdefault_append (q_category q) q by_cat) pool [].

(** The loop over [by_cat.items()]; returns what it appends to
    [selected]. *)
Fixpoint sample_each (per_cat : Z) (by_cat : list (pystr * list Question))
    : M (list Question) :=
  match by_cat with
  | [] => ret []
  | (_, cat_qs) :: rest =>
      let take := Z.min per_cat (len cat_qs) in
      picked <- random_sample cat_qs take ;;
      more <- sample_each per_cat rest ;;
      ret (picked ++ more)
  end.

Definition target : Z := 500.

Definition nonempty {A} (l : list A) : bool :=
  match l with [] => false | _ :: _ => true end.

(** Lines 578-603 of [cmd_top500]: the value of [selected] once it has
    been shuffled, that is the curated set. *)
Definition curate (wrong_pool unanswered_pool correct_pool : list Question)
    : M (list Question) :=
  let selected := wrong_pool in
  let remaining := target - len selected in
  selected <-
    (if (0 <? remaining) && nonempty unanswered_pool then
       let by_cat := group_by_category unanswered_pool in
       let per_cat :=
         if nonempty by_cat then Z.max 1 (remaining / len by_cat) else 0 in
       picked <- sample_each per_cat by_cat ;;
       ret (selected ++ picked)
     else ret selected) ;;
  let remaining := target - len selected in
  selected <-
    (if (0 <? remaining) && nonempty correct_pool then
       let take := Z.min remaining (len correct_pool) in
       picked <- random_sample correct_pool take ;;
       ret (selected ++ picked)
     else ret selected) ;;
  let selected := prefix selected target in
  random_shuffle selected.

Record Top500Out := mkTop500Out {
  tp_vehicle_type : pystr;
  tp_subject : Z;
  tp_total_selected : Z;
  tp_wrong : Z;           (* composition.wrong *)
  tp_unanswered : Z;      (* composition.unanswered *)
  tp_reviewed : Z;        (* composition.reviewed *)
  tp_count : Z;
  tp_questions : list Formatted;
}.

Definition cmd_top500 (subject : Z) (vtype : pystr) (count : Z) : M Top500Out :=
  vtype <- resolve_vtype vtype ;;
  questions <- load_questions subject vtype ;;
  progress <- load_progress ;;
  let progress := ensure_fields progress in
  let wrong_ids : gset Z := list_to_set (get_or (wrong_questions progress) []) in
  let answered_ids := answered_ids_of (get_or (categories progress) ∅) in
  let wrong_pool := wrong_pool_of wrong_ids questions in
  let unanswered_pool := unanswered_pool_of wrong_ids answered_ids questions in
  let correct_pool := correct_pool_of wrong_ids answered_ids questions in
  selected <- curate wrong_pool unanswered_pool correct_pool ;;
  let count := Z.min count (len selected) in
  let batch := prefix selected count in
  ret (mkTop500Out vtype subject (len selected)
         (len wrong_pool)
         (len (filter (fun q => (q_id q ∉ answered_ids) ∧ (q_id q ∉ wrong_ids)) selected))
         (len (filter (fun q => (q_id q ∈ answered_ids) ∧ (q_id q ∉ wrong_ids)) selected))
         count (map format_question batch)).

(* ===================================================================== *)
(** ** quiz.py: random practice and mock exams *)
(* ===================================================================== *)

Record RandomBatch := mkRandomBatch {
  rd_vehicle_type : pystr;
  rd_subject : Z;
  rd_category : option pystr;
  rd_total_available : Z;
  rd_count : Z;
  rd_questions : list Formatted;
}.

Inductive RandomOut :=
  | RandomUnknownCategory (category : pystr)
  | RandomQuestions (b : RandomBatch).

(** [if args.category:] holds for a string that is not empty. *)
Definition given_category (category : option pystr) : option pystr :=
  match category with
  | Some (c :: cs) => Some (c :: cs)
  | _ => None
  end.

Definition cmd_random (subject : Z) (vtype : pystr) (count : Z)
    (category : option pystr) (exclude_done : bool) : M RandomOut :=
  vtype <- resolve_vtype vtype ;;
  questions <- load_questions subject vtype ;;
  let questions :=
    match given_category category with
    | Some cat => filter (fun q => q_category q = cat) questions
    | None => questions
    end in
  match given_category category, questions with
  | Some cat, [] => ret (RandomUnknownCategory cat)
  | _, _ =>
      questions <-
        (if exclude_done then
           progress <- load_progress ;;
           let progress := ensure_fields progress in
           let done_ids := answered_ids_of (get_or (categories progress) ∅) in
           ret (filter (fun q => q_id q ∉ done_ids) questions)
         else ret questions) ;;
      let count := Z.min count (len questions) in
      selected <- random_sample questions count ;;
      ret (RandomQuestions
             (mkRandomBatch vtype subject category (len questions) count
                (map format_question selected)))
  end.

Record Exam := mkExam {
  xm_vehicle_type : pystr;
  xm_subject : Z;
  xm_total_questions : Z;
  xm_pass_score : Z;
  xm_time_limit_minutes : Z;
  xm_questions : list Formatted;
}.

Definition cmd_exam (subject : Z) (vtype : pystr) : M Exam :=
  vtype <- resolve_vtype vtype ;;
  questions <- load_questions subject vtype ;;
  let exam_count := if subject =? 1 then 100 else 50 in
  let exam_count :=
    if len questions <? exam_count then len questions else exam_count in
  selected <- random_sample questions exam_count ;;
  ret (mkExam vtype subject exam_count 90 (if subject =? 1 then 45 else 30)
         (map format_question selected)).

(* ===================================================================== *)
(** ** quiz.py: reviewing wrong questions and favorites *)
(* ===================================================================== *)

(** [[args.subject] if args.subject else [1, 4]] *)
Definition review_subjects (subject : option Z) : list Z :=
  match subject with
  | Some s => if s =? 0 then [1; 4] else [s]
  | None => [1; 4]
  end.

(** The corpus files the two review commands go through, in order. *)
Definition review_files (subject : option Z) : list pystr :=
  flat_map (fun vtype => map (corpus_file vtype) (review_subjects subject))
    VTYPE_LABELS.

(** The loops that gather the questions whose id is in [ids]; a file
    that does not exist is passed over. *)
Fixpoint collect (dir : gmap pystr (list Question)) (ids : gset Z)
    (files : list pystr) : list Question :=
  match files with
  | [] => []
  | file :: rest =>
      match dir !! file with
      | None => collect dir ids rest
      | Some questions =>
          filter (fun q => q_id q ∈ ids) questions ++ collect dir ids rest
      end
  end.

Record ReviewList := mkReviewList {
  rv_total : Z;          (* total_wrong, total_favorites *)
  rv_showing : Z;
  rv_questions : list Formatted;
}.

Inductive ReviewOut :=
  | ReviewEmpty
  | ReviewQuestions (r : ReviewList).

(** [args.count and len(found) > args.count] *)
Definition over_count (count : option Z) (found : list Question) : option Z :=
  match count with
  | Some c => if negb (c =? 0) && (c <? len found) then Some c else None
  | None => None
  end.

Definition cmd_wrong (subject count : option Z) : M ReviewOut :=
  progress <- load_progress ;;
  let progress := ensure_fields progress in
  let wrong_ids : gset Z := list_to_set (get_or (wrong_questions progress) []) in
  if bool_decide (wrong_ids = ∅) then ret ReviewEmpty
  else
    wrong_questions <-
      (fun w => (Ok (collect (data_dir w) wrong_ids (review_files subject)), w)) ;;
    wrong_questions <-
      match over_count count wrong_questions with
      | Some c => random_sample wrong_questions c
      | None => ret wrong_questions
      end ;;
    ret (ReviewQuestions
           (mkReviewList (Z.of_nat (size wrong_ids)) (len wrong_questions)
              (map format_question wrong_questions))).

Definition cmd_favorites (subject count : option Z) : M ReviewOut :=
  progress <- load_progress ;;
  let progress := ensure_fields progress in
  let fav_ids : gset Z := list_to_set (get_or (favorites progress) []) in
  if bool_decide (fav_ids = ∅) then ret ReviewEmpty
  else
    fav_questions <-
      (fun w => (Ok (collect (data_dir w) fav_ids (review_files subject)), w)) ;;
    fav_questions <-
      match over_count count fav_questions with
      | Some c => random_sample fav_questions c
      | None => ret fav_questions
      end ;;
    ret (ReviewQuestions
           (mkReviewList (Z.of_nat (size fav_ids)) (len fav_questions)
              (map format_question fav_questions))).

(* ===================================================================== *)
(** ** quiz.py: [cmd_categories] *)
(* ===================================================================== *)

(** UTF-8 bytes of a code point, and the text of a key of the data as the
    literal a [KeyError] carries. *)
Definition utf8_bytes (c : Z) : list Z :=
  if c <? 128 then [c]
  else if c <? 2048 then [192 + c / 64; 128 + c mod 64]
  else if c <? 65536 then
    [224 + c / 4096; 128 + (c / 64) mod 64; 128 + c mod 64]
  else [240 + c / 262144; 128 + (c / 4096) mod 64; 128 + (c / 64) mod 64;
        128 + c mod 64].

Definition key_of (s : pystr) : string :=
  string_of_list_ascii
    (map (fun b => ascii_of_nat (Z.to_nat b)) (flat_map utf8_bytes s)).

(** [{"single": 0, "judge": 0, "multi": 0}] and the entry of a category. *)
Record TypeCounts := mkTypeCounts {
  tc_single : Z;
  tc_judge : Z;
  tc_multi : Z;
}.

Record CatInfo := mkCatInfo {
  ci_total : Z;
  ci_types : TypeCounts;
}.

(** [types[t] += 1] *)
Definition bump_type (t : pystr) (types : TypeCounts) : Res TypeCounts :=
  if eqb t (py "single")
  then Ok (mkTypeCounts (tc_single types + 1) (tc_judge types) (tc_multi types))
  else if eqb t (py "judge")
  then Ok (mkTypeCounts (tc_single types) (tc_judge types + 1) (tc_multi types))
  else if eqb t (py "multi")
  then Ok (mkTypeCounts (tc_single types) (tc_judge types) (tc_multi types + 1))
  else Raise (KeyError (key_of t)).

(** [info["total"] += 1; info["types"][t] += 1] *)
Definition count_one (t : pystr) (info : CatInfo) : Res CatInfo :=
  match bump_type t (ci_types info) with
  | Ok types => Ok (mkCatInfo (ci_total info + 1) types)
  | Raise e => Raise e
  end.

(** One turn of the loop over the questions.  [categories] is a dict in
    insertion order: a category seen for the first time goes to the end. *)
Fixpoint count_in (cat t : pystr) (categories : list (pystr * CatInfo))
    : Res (list (pystr * CatInfo)) :=
  match categories with
  | [] =>
      match count_one t (mkCatInfo 0 (mkTypeCounts 0 0 0)) with
      | Ok info => Ok [(cat, info)]
      | Raise e => Raise e
      end
  | (c, info) :: rest =>
      if eqb c cat then
        match count_one t info with
        | Ok info' => Ok ((c, info') :: rest)
        | Raise e => Raise e
        end
      else
        match count_in cat t rest with
        | Ok rest' => Ok ((c, info) :: rest')
        | Raise e => Raise e
        end
  end.

Definition count_categories (questions : list Question)
    : Res (list (pystr * CatInfo)) :=
  fold_left (fun acc q =>
               match acc with
               | Ok categories => count_in (q_category q) (q_type q) categories
               | Raise e => Raise e
               end) questions (Ok []).

(** The key of [sorted(categories.items(), key=lambda x: -x[1]["total"])]. *)
Definition by_total (x y : pystr * CatInfo) : bool :=
  - ci_total x.2 <? - ci_total y.2.

(** A row of the table; [cg_accuracy] is the value that is printed
    rounded, [None] standing for the not-practised text. *)
Record CategoryRow := mkCategoryRow {
  cg_name : pystr;
  cg_total : Z;
  cg_types : TypeCounts;
  cg_answered : Z;
  cg_correct : Z;
  cg_accuracy : option float;
}.

Definition category_row (progress : Progress) (entry : pystr * CatInfo)
    : Res CategoryRow :=
  let p := get_or (categories progress) ∅ !! entry.1 in
  let answered := match p with Some d => cat_answered d | None => 0 end in
  let correct := match p with Some d => cat_correct d | None => 0 end in
  if 0 <? answered then
    match truediv correct answered with
    | Ok r =>
        Ok (mkCategoryRow entry.1 (ci_total entry.2) (ci_types entry.2)
              answered correct (Some (percent r)))
    | Raise e => Raise e
    end
  else Ok (mkCategoryRow entry.1 (ci_total entry.2) (ci_types entry.2)
             answered correct None).

Fixpoint category_rows (progress : Progress)
    (entries : list (pystr * CatInfo)) : Res (list CategoryRow) :=
  match entries with
  | [] => Ok []
  | entry :: rest =>
      match category_row progress entry with
      | Ok row =>
          match category_rows progress rest with
          | Ok rows => Ok (row :: rows)
          | Raise e => Raise e
          end
      | Raise e => Raise e
      end
  end.

Record CategoriesOut := mkCategoriesOut {
  co_vehicle_type : pystr;
  co_subject : Z;
  co_categories : list CategoryRow;
}.

Definition cmd_categories (subject : Z) (vtype : pystr) : M CategoriesOut :=
  vtype <- resolve_vtype vtype ;;
  questions <- load_questions subject vtype ;;
  categories <- lift (count_categories questions) ;;
  progress <- load_progress ;;
  let progress := ensure_fields progress in
  result <- lift (category_rows progress (sort by_total categories)) ;;
  ret (mkCategoriesOut vtype subject result).

(* ===================================================================== *)
(** ** import_questions.py *)
(* ===================================================================== *)

(** A record of the list the question service returns.  A field is [None]
    when the record has no such key; a key that is there holds a
    string. *)
Record Raw := mkRaw {
  raw_option1 : option pystr;
  raw_option2 : option pystr;
  raw_option3 : option pystr;
  raw_option4 : option pystr;
  raw_answer : option pystr;
  raw_chapter : option pystr;
  raw_question : option pystr;
  raw_explain : option pystr;
  raw_pic : option pystr;
  raw_type : option pystr;
}.

Definition VEHICLE_TYPE_ID_BASE : list (pystr * Z) :=
  [ (py "C1", 0); (py "A1", 100000); (py "A2", 200000); (py "D", 300000) ].

(** [d.get(key)] on a dict written as a list of items. *)
Fixpoint item {A} (key : pystr) (d : list (pystr * A)) : option A :=
  match d with
  | [] => None
  | (k, v) :: rest => if eqb k key then Some v else item key rest
  end.

(** [v] when it is there and not empty: what [if val:] lets through and
    what [val or None] keeps. *)
Definition truthy (v : option pystr) : option pystr :=
  match v with
  | Some (c :: s) => Some (c :: s)
  | _ => None
  end.

(** The question as [quiz.py] reads it, and its ["vehicle_type"] entry. *)
Definition normalize_question (raw : Raw) (subject idx : Z)
    (vehicle_type : pystr) : Question * pystr :=
  let options :=
    flat_map (fun val => match truthy val with
                         | Some s => [s]
                         | None => []
                         end)
      [raw_option1 raw; raw_option2 raw; raw_option3 raw; raw_option4 raw] in
  let answer := get_or (raw_answer raw) (py "") in
  let q_type :=
    match options with
    | [] => py "judge"
    | _ => if bool_decide (44 ∈ answer) then py "multi" else py "single"
    end in
  let base := get_or (item vehicle_type VEHICLE_TYPE_ID_BASE) 0 in
  (mkQuestion (base + subject * 10000 + idx) subject
     (get_or (raw_chapter raw) (py "未分类")) q_type
     (get_or (raw_question raw) (py "")) options answer
     (get_or (raw_explain raw) (py "")) (truthy (raw_pic raw)),
   get_or (raw_type raw) vehicle_type).

(** The loop of [fetch_subject] over the pages it obtained: [None] is a
    page given up after three failed attempts, [Some l] the ["list"] of a
    page.  [idx] is the running number of the next question. *)
Fixpoint number_page (subject : Z) (vehicle_type : pystr) (idx : Z)
    (page_list : list Raw) : list (Question * pystr) * Z :=
  match page_list with
  | [] => ([], idx)
  | raw :: rest =>
      let (more, idx') := number_page subject vehicle_type (idx + 1) rest in
      (normalize_question raw subject idx vehicle_type :: more, idx')
  end.

Fixpoint number_pages (subject : Z) (vehicle_type : pystr) (idx : Z)
    (pages : list (option (list Raw))) : list (Question * pystr) :=
  match pages with
  | [] => []
  | None :: rest => number_pages subject vehicle_type idx rest
  | Some page_list :: rest =>
      let (questions, idx') := number_page subject vehicle_type idx page_list in
      questions ++ number_pages subject vehicle_type idx' rest
  end.

Definition fetch_subject (subject : Z) (vehicle_type : pystr)
    (pages : list (option (list Raw))) : list (Question * pystr) :=
  number_pages subject vehicle_type 1 pages.

(* ===================================================================== *)
(** ** validate_questions.py *)
(* ===================================================================== *)

(** A record of the ["questions"] list as the validator reads it.  A
    field is [None] when the record has no such key; a key that is there
    holds a value of its kind.  The validator never looks at ["image"]. *)
Record Entry := mkEntry {
  e_id : option Z;
  e_subject : option Z;
  e_category : option pystr;
  e_type : option pystr;
  e_question : option pystr;
  e_options : option (list pystr);
  e_answer : option pystr;
  e_explanation : option pystr;
}.

(** The record a question of a corpus file is read back as. *)
Definition entry_of (q : Question) : Entry :=
  mkEntry (Some (q_id q)) (Some (q_subject q)) (Some (q_category q))
    (Some (q_type q)) (Some (q_question q)) (Some (q_options q))
    (Some (q_answer q)) (Some (q_explanation q)).

Definition VALID_TYPES : list pystr := [py "single"; py "judge"; py "multi"].

(** [[name]] when the key is not there. *)
Definition absent {A} (name : string) (field : option A) : list string :=
  match field with
  | Some _ => []
  | None => [name]
  end.

(** [REQUIRED_FIELDS - set(q.keys())]; the names come in the order
    [REQUIRED_FIELDS] is written in, a set having none. *)
Definition missing_fields (q : Entry) : list string :=
  absent "id" (e_id q) ++ absent "subject" (e_subject q)
  ++ absent "category" (e_category q) ++ absent "type" (e_type q)
  ++ absent "question" (e_question q) ++ absent "options" (e_options q)
  ++ absent "answer" (e_answer q) ++ absent "explanation" (e_explanation q).

(** What a message starts with: the id of the record, or its index when
    it has none. *)
Inductive Label :=
  | ById (id : Z)
  | ByIndex (i : nat).

Definition label_of (i : nat) (q : Entry) : Label :=
  match e_id q with
  | Some id => ById id
  | None => ByIndex i
  end.

(** The entries of [errors] and [warnings]. *)
Inductive Finding :=
  | MissingFields (label : Label) (missing : list string)
  | DuplicateId (label : Label)
  | InvalidType (label : Label) (type : option pystr)
  | JudgeHasOptions (label : Label)
  | ChoiceLacksOptions (label : Label)
  | EmptyQuestion (label : Label)
  | EmptyAnswer (label : Label)
  | LacksExplanation (label : Label).

(** [[x] if cond else []] *)
Definition when (cond : bool) (x : Finding) : list Finding :=
  if cond then [x] else [].

Definition blank (s : pystr) : bool := bool_decide (strip s = []).

(** [bool(q.get("options"))] *)
Definition has_options (q : Entry) : bool :=
  match e_options q with
  | Some (_ :: _) => true
  | _ => false
  end.

(** [q.get("type") == name] *)
Definition type_is (name : string) (q : Entry) : bool :=
  bool_decide (e_type q = Some (py name)).

(** What record number [i] adds to [errors] and to [warnings]. *)
Definition question_errors (ids_seen : gset (option Z)) (i : nat) (q : Entry)
    : list Finding :=
  when (negb (bool_decide (missing_fields q = [])))
    (MissingFields (label_of i q) (missing_fields q))
  ++ when (bool_decide (e_id q ∈ ids_seen)) (DuplicateId (label_of i q))
  ++ when (negb (bool_decide (e_type q ∈ map Some VALID_TYPES)))
       (InvalidType (label_of i q) (e_type q))
  ++ when ((type_is "single" q || type_is "multi" q) && negb (has_options q))
       (ChoiceLacksOptions (label_of i q))
  ++ when (blank (get_or (e_question q) (py "")))
       (EmptyQuestion (label_of i q))
  ++ when (blank (get_or (e_answer q) (py ""))) (EmptyAnswer (label_of i q)).

Definition question_warnings (i : nat) (q : Entry) : list Finding :=
  when (type_is "judge" q && has_options q) (JudgeHasOptions (label_of i q))
  ++ when (blank (get_or (e_explanation q) (py "")))
       (LacksExplanation (label_of i q)).

(** The loop over [enumerate(questions)], from the set built so far and
    the index reached. *)
Fixpoint check_questions (ids_seen : gset (option Z)) (i : nat)
    (questions : list Entry) : list Finding * list Finding :=
  match questions with
  | [] => ([], [])
  | q :: rest =>
      let (errors, warnings) :=
        check_questions (ids_seen ∪ {[ e_id q ]}) (S i) rest in
      (question_errors ids_seen i q ++ errors,
       question_warnings i q ++ warnings)
  end.

Record Report := mkReport {
  vr_total : Z;
  vr_errors : list Finding;
  vr_warnings : list Finding;
  vr_ok : bool;               (* the value returned *)
}.

(** [validate_file] once it has read the ["questions"] list of the
    file. *)
Definition validate_questions (questions : list Entry) : Report :=
  let (errors, warnings) := check_questions ∅ 0 questions in
  mkReport (len questions) errors warnings (len errors =? 0).

(** [validate_file(filepath)] for a file of [DATA_DIR]; [None] when the
    file does not exist. *)
Definition validate_file (file : pystr) : M (option Report) :=
  fun w =>
    match data_dir w !! file with
    | None => (Ok None, w)
    | Some questions =>
        (Ok (Some (validate_questions (map entry_of questions))), w)
    end.

(* ===================================================================== *)
(** ** quiz.py: topics *)
(* ===================================================================== *)

(** The part of the syntax of [re] the patterns of [TOPIC_RULES] are
    written in: alternatives separated by [|], each a sequence of
    characters, [.], [\d] or a set [[...]] of characters, each of them
    possibly followed by [+] or [*]. *)
Inductive CharSet :=
  | Literal (c : Z)
  | Digit                   (* \d *)
  | Dot                     (* . *)
  | OneOf (cs : list Z).    (* [...] *)

Inductive Repeat :=
  | Once
  | OneOrMore               (* + *)
  | ZeroOrMore.             (* * *)

Definition Branch : Type := list (CharSet * Repeat).
Definition Pattern : Type := list Branch.

(** Where [re.compile] is while it reads a pattern: the alternatives
    read (last first), the one being read (last item first), and whether
    a backslash or a [[] is open. *)
Inductive Mode :=
  | Plain
  | Escape
  | InSet (cs : list Z).

Record Compiling := mkCompiling {
  branches : list Branch;
  current : Branch;
  mode : Mode;
}.

(** The characters with a meaning of their own this embedding does not
    read: [? { } ( ) ^ $ ]]. *)
Definition unsupported (c : Z) : bool :=
  bool_decide (c ∈ [63; 123; 125; 40; 41; 94; 36; 93]).

Definition repeat_last (r : Repeat) (st : Compiling) : option Compiling :=
  match current st with
  | (cs, Once) :: items => Some (mkCompiling (branches st) ((cs, r) :: items) Plain)
  | _ => None
  end.

Definition add_item (cs : CharSet) (st : Compiling) : Compiling :=
  mkCompiling (branches st) ((cs, Once) :: current st) Plain.

Definition compile_char (st : option Compiling) (c : Z) : option Compiling :=
  match st with
  | None => None
  | Some st =>
      match mode st with
      | Plain =>
          if c =? 124 then                                 (* | *)
            Some (mkCompiling (rev (current st) :: branches st) [] Plain)
          else if c =? 92 then                             (* \ *)
            Some (mkCompiling (branches st) (current st) Escape)
          else if c =? 91 then                             (* [ *)
            Some (mkCompiling (branches st) (current st) (InSet []))
          else if c =? 46 then Some (add_item Dot st)      (* . *)
          else if c =? 43 then repeat_last OneOrMore st    (* + *)
          else if c =? 42 then repeat_last ZeroOrMore st   (* * *)
          else if unsupported c then None
          else Some (add_item (Literal c) st)
      | Escape =>
          if c =? 100 then Some (add_item Digit st)        (* \d *)
          else None
      | InSet cs =>
          if c =? 93 then                                  (* ] *)
            match cs with
            | [] => None
            | _ => Some (add_item (OneOf (rev cs)) st)
            end
          else if bool_decide (c ∈ [92; 94; 45; 91]) then None  (* \ ^ - [ *)
          else Some (mkCompiling (branches st) (current st) (InSet (c :: cs)))
      end
  end.

(** [re.compile(pattern)]; [None] for a pattern outside the syntax
    above. *)
Definition re_compile (pattern : pystr) : option Pattern :=
  match fold_left compile_char pattern (Some (mkCompiling [] [] Plain)) with
  | Some st =>
      match mode st with
      | Plain => Some (rev (rev (current st) :: branches st))
      | _ => None
      end
  | None => None
  end.

Section Topics.

(** [\d] in a pattern that is a [str] stands for the decimal digits of
    the Unicode tables of the Python that runs; which characters these
    are is left open. *)
Variable unicode_decimal : Z -> bool.

Definition accepts (cs : CharSet) (c : Z) : bool :=
  match cs with
  | Literal x => c =? x
  | Digit => unicode_decimal c
  | Dot => negb (c =? 10)
  | OneOf l => bool_decide (c ∈ l)
  end.

(** [accept*] then [k]: the repeated character set takes some run of
    characters and [k] goes on from there. *)
Fixpoint match_many (accept : Z -> bool) (k : pystr -> bool) (s : pystr)
    : bool :=
  k s
  || match s with
     | c :: s' => accept c && match_many accept k s'
     | [] => false
     end.

(** Some prefix of the text matches the items. *)
Fixpoint match_items (items : Branch) : pystr -> bool :=
  match items with
  | [] => fun _ => true
  | (cs, rep) :: rest =>
      match rep with
      | Once =>
          fun s => match s with
                   | c :: s' => accepts cs c && match_items rest s'
                   | [] => false
                   end
      | OneOrMore =>
          fun s => match s with
                   | c :: s' =>
                       accepts cs c
                       && match_many (accepts cs) (match_items rest) s'
                   | [] => false
                   end
      | ZeroOrMore => match_many (accepts cs) (match_items rest)
      end
  end.

(** [bool(pattern.search(text))]: a match starts somewhere in the text. *)
Fixpoint re_search (p : Pattern) (text : pystr) : bool :=
  existsb (fun b => match_items b text) p
  || match text with
     | [] => false
     | _ :: text' => re_search p text'
     end.

Definition TOPIC_RULES : list (pystr * pystr) :=
  [ (py "交通标志", py "标志|标识|这个标志");
    (py "交通标线", py "标线|虚线|实线|导向线|路面标记");
    (py "交通信号灯", py "信号灯|红灯|绿灯|黄灯|闪光警告");
    (py "灯光使用", py "灯光|远光|近光|雾灯|转向灯|危险报警|示廓灯");
    (py "罚款金额", py "罚款|处\d+元|元以[上下]罚款");
    (py "记分规则", py "扣\d+分|记\d+分|一次记|记分");
    (py "让行规则", py "让行|让路|先行|优先通行|礼让");
    (py "车速规定", py "最高速度|最低速度|时速|限速|超速|车速");
    (py "安全车距", py "车距|跟车距离|保持距离|安全距离");
    (py "超车规定", py "超车|超越|借道超");
    (py "停车规定", py "停车|停放|泊车|禁停|临时停车");
    (py "掉头转弯", py "掉头|调头|转弯|左转|右转");
    (py "高速公路", py "高速公路|高速路|匝道|加速车道|减速车道|应急车道");
    (py "安全带使用", py "安全带|系.*带");
    (py "酒驾醉驾", py "饮酒|醉酒|酒后|醉驾|酒驾");
    (py "肇事逃逸", py "逃逸|肇事逃");
    (py "事故处理", py "事故|碰撞|追尾|刮擦|事故现场");
    (py "恶劣天气", py "雨天|雪天|雾天|冰雪|暴风|大风|泥泞|涉水|湿滑");
    (py "紧急避险", py "爆胎|制动失灵|转向失控|起火|自燃|紧急制动|紧急避险");
    (py "伤员急救", py "急救|伤员|止血|骨折|人工呼吸|心肺复苏");
    (py "危化品运输", py "危险品|危化品|爆炸品|易燃|有毒|腐蚀") ].

(** [{name: re.compile(pattern) for name, pattern in TOPIC_RULES.items()}] *)
Definition _compiled_topics : list (pystr * Pattern) :=
  omap (fun rule => match re_compile rule.2 with
                    | Some pat => Some (rule.1, pat)
                    | None => None
                    end) TOPIC_RULES.

(** [sep.join(parts)] *)
Fixpoint join (sep : pystr) (parts : list pystr) : pystr :=
  match parts with
  | [] => []
  | [s] => s
  | s :: rest => s ++ sep ++ join sep rest
  end.

Definition get_question_topics (q : Question) : list pystr :=
  let text := q_question q ++ join (py " ") (q_options q) ++ q_explanation q in
  map fst (filter (fun rule => re_search rule.2 text = true) _compiled_topics).

(** [format_question(q, include_topics=True)] *)
Record Tagged := mkTagged {
  tg_question : Formatted;
  tg_topics : list pystr;
}.

Definition format_question_with_topics (q : Question) : Tagged :=
  mkTagged (format_question q) (get_question_topics q).

Record TopicBatch := mkTopicBatch {
  tb_vehicle_type : pystr;
  tb_subject : Z;
  tb_topic : pystr;
  tb_total_available : Z;
  tb_count : Z;
  tb_questions : list Tagged;
}.

Inductive TopicOut :=
  | TopicUnknown (topic : pystr)
  | TopicQuestions (b : TopicBatch).

Definition cmd_topic_practice (subject : Z) (vtype topic : pystr) (count : Z)
    : M TopicOut :=
  vtype <- resolve_vtype vtype ;;
  questions <- load_questions subject vtype ;;
  let matched := filter (fun q => topic ∈ get_question_topics q) questions in
  match matched with
  | [] => ret (TopicUnknown topic)
  | _ =>
      let count := Z.min count (len matched) in
      selected <- random_sample matched count ;;
      ret (TopicQuestions
             (mkTopicBatch vtype subject topic (len matched) count
                (map format_question_with_topics selected)))
  end.

End Topics.

(* ===================================================================== *)
(** ** Observations on a world *)
(* ===================================================================== *)

(** The record a command works on: [ensure_fields(load_progress())]. *)
Definition loaded (w : World) : Progress :=
  ensure_fields (match progress_file w with
                 | Some p => p
                 | None => _default_progress
                 end).

Definition favorites_of (w : World) : list Z := get_or (favorites (loaded w)) [].
Definition wrong_of (w : World) : list Z := get_or (wrong_questions (loaded w)) [].
Definition cursor_of (w : World) (key : pystr) : Z :=
  get_or (get_or (sequential_pos (loaded w)) ∅ !! key) 0.

(** The world after [progress.json] has been rewritten. *)
Definition saved (p : Progress) (w : World) : World :=
  mkWorld (data_dir w) (Some p) (rng w) (clock w).

(** The value of [progress["wrong_questions"]] after lines 354-361 of
    [cmd_check] ran on the list [wrong]. *)
Definition wrong_after (qid : Z) (is_correct : bool) (wrong : list Z) : list Z :=
  if is_correct
  then (if mem qid wrong then remove qid wrong else wrong)
  else (if mem qid wrong then wrong else wrong ++ [qid]).


(** What the caller learns about correctness from the output of
    [cmd_check]. *)
Definition verdict (r : Res (Error + CheckResult)) : option bool :=
  match r with
  | Ok (inr result) => Some (cr_correct result)
  | _ => None
  end.

(* ===================================================================== *)
(** ** Sample data *)
(* ===================================================================== *)

Definition sample_question (id : Z) (category : pystr) : Question :=
  mkQuestion id 1 category (py "single") (py "Q") [py "A"; py "B"]
    (py "A") (py "E") None.

Definition sample_judge (id : Z) (answer : pystr) : Question :=
  mkQuestion id 1 (py "signals") (py "judge") (py "Q") [] answer (py "E") None.

(** [n] questions of one category with ids [first], [first + 1], ... *)
Definition sample_run (first : Z) (n : nat) (category : pystr) : list Question :=
  map (fun i => sample_question (first + Z.of_nat i) category) (seq 0 n).

(** A world whose only corpus is the one of class c1, subject 1. *)
Definition sample_world (questions : list Question)
    (progress : option Progress) : World :=
  mkWorld {[ corpus_file (py "c1") 1 := questions ]} progress []
    (py "2026-01-01 09:00").



Definition with_favorites (favs : list Z) : Progress :=
  set_favorites favs _default_progress.
Definition with_wrong (wrong : list Z) : Progress :=
  set_wrong_questions wrong _default_progress.

(** Question 1 was answered 3 times out of 10 correctly, question 2
    8 times out of 10. *)
Definition hard_progress : Progress :=
  set_question_stats
    (<[str 1 := mkQStat 10 3]> (<[str 2 := mkQStat 10 8]> ∅))
    _default_progress.

(** Corpora of 600 questions in ten categories, 50 of them currently
    wrong.  In the even one each category has 5 wrong and 55 unanswered
    questions; in the skewed one the first category has the 50 wrong and
    541 unanswered questions and the nine others one unanswered each. *)
Definition category_name (c : nat) : pystr := py "cat" ++ str (Z.of_nat c).
Definition sample_category (c n : nat) : list Question :=
  sample_run (1000 * Z.of_nat c + 1) n (category_name c).
Definition even_corpus : list Question :=
  flat_map (fun c => sample_category c 60) (seq 0 10).
Definition even_wrong : list Z :=
  flat_map (fun c => map (fun i => 1000 * Z.of_nat c + 1 + Z.of_nat i) (seq 0 5))
    (seq 0 10).
Definition skewed_corpus : list Question :=
  sample_category 0 591 ++ flat_map (fun c => sample_category c 1) (seq 1 9).
Definition skewed_wrong : list Z := map (fun i => 1 + Z.of_nat i) (seq 0 50).

Arguments py : simpl never.
Arguments known_corpora : simpl never.
Arguments corpus_file : simpl never.
Arguments pos_key_of : simpl never.

(* ===================================================================== *)
(** ** Notions used to state the properties *)
(* ===================================================================== *)

(** [x] may stand before [y] in a list sorted with [lt]: [y] is not less
    than [x]. *)
Definition not_after {A} (lt : A -> A -> bool) (x y : A) : Prop :=
  lt y x = false.

(** A value that is not a NaN, placed on a line of integer triples. *)
Definition rank (x : float) : Z * Z * Z :=
  match x with
  | S754_nan => (0, 0, 0)
  | S754_zero _ => (0, 0, 0)
  | S754_infinity true => (-2, 0, 0)
  | S754_infinity false => (2, 0, 0)
  | S754_finite false m e => (1, e, Zpos m)
  | S754_finite true m e => (-1, - e, Zneg m)
  end.

Definition lex_lt (a b : Z * Z * Z) : Prop :=
  a.1.1 < b.1.1
  \/ (a.1.1 = b.1.1 /\ (a.1.2 < b.1.2 \/ (a.1.2 = b.1.2 /\ a.2 < b.2))).

Definition is_nan (x : float) : bool :=
  match x with S754_nan => true | _ => false end.

(** The order of the sort keys [(-error_rate, -attempts)], on integers. *)
Definition key_before (k k' : float * Z) : Prop :=
  let r := rank k.1 in
  let r' := rank k'.1 in
  r.1.1 < r'.1.1
  \/ (r.1.1 = r'.1.1
      /\ (r.1.2 < r'.1.2
          \/ (r.1.2 = r'.1.2
              /\ (r.2 < r'.2 \/ (r.2 = r'.2 /\ k.2 < k'.2))))).

(** An entry of [scored] whose error rate is a number. *)
Definition rate_ok (x : Scored) : Prop := is_nan x.1.2 = false.

(** [x] has the higher error rate, or the same and at least as many
    attempts. *)
Definition ranks_before (x y : Scored) : Prop :=
  fltb y.1.2 x.1.2 = true \/ (feqb x.1.2 y.1.2 = true /\ y.2 <= x.2).

(** The question has at least one recorded attempt. *)
Definition attempted (q_stats : gmap pystr QStat) (q : Question) : bool :=
  match q_stats !! str (q_id q) with
  | Some stats => 0 <? st_attempts stats
  | None => false
  end.

(** The entry carries the attempts and the error rate computed from the
    statistics of its question. *)
Definition scored_from (q_stats : gmap pystr QStat) (x : Scored) : Prop :=
  exists stats,
    q_stats !! str (q_id x.1.1) = Some stats
    /\ x.2 = st_attempts stats
    /\ error_rate_of (st_correct stats) (st_attempts stats) = Ok x.1.2.

(** A command that only draws random numbers leaves the files and the
    clock alone. *)
Definition same_files (w w' : World) : Prop :=
  data_dir w' = data_dir w /\ progress_file w' = progress_file w
  /\ clock w' = clock w.

(** Only [progress.json] may differ between the two worlds. *)
Definition same_files_but_progress (w w' : World) : Prop :=
  data_dir w' = data_dir w /\ rng w' = rng w /\ clock w' = clock w.

(** What the loop over [by_cat] takes in all. *)
Definition taken (per_cat : Z) (by_cat : list (pystr * list Question)) : Z :=
  foldr (fun g acc => Z.min per_cat (len g.2) + acc) 0 by_cat.

(** A group of [by_cat] is not empty and holds questions of its key. *)
Definition group_ok (g : pystr * list Question) : Prop :=
  g.2 <> [] /\ Forall (fun q => q_category q = g.1) g.2.

(** The two sets of ids [cmd_top500] computes from the loaded record. *)
Definition wrong_ids_of (w : World) : gset Z :=
  list_to_set (get_or (wrong_questions (loaded w)) []).
Definition answered_ids_at (w : World) : gset Z :=
  answered_ids_of (get_or (categories (loaded w)) ∅).

(** The questions [cmd_random] keeps for the category asked for, and the
    ones it keeps after [--exclude-done]. *)
Definition of_category (category : option pystr) (qs : list Question)
    : list Question :=
  match given_category category with
  | Some cat => filter (fun q => q_category q = cat) qs
  | None => qs
  end.
Definition not_done (w : World) (exclude_done : bool) (qs : list Question)
    : list Question :=
  if exclude_done then filter (fun q => q_id q ∉ answered_ids_at w) qs else qs.

(** The ids kept in [favorites], as the set [cmd_favorites] builds. *)
Definition fav_ids_of (w : World) : gset Z := list_to_set (favorites_of w).

(** What the loop of [cmd_wrong] and [cmd_favorites] finds for a set of
    ids. *)
Definition found_in (w : World) (ids : gset Z) (subject : option Z)
    : list Question :=
  collect (data_dir w) ids (review_files subject).

(** The ids a review shows. *)
Definition shown (r : Res ReviewOut) : list Z :=
  match r with
  | Ok (ReviewQuestions l) => map f_id (rv_questions l)
  | _ => []
  end.

(** What [cmd_wrong] and [cmd_favorites] do once the set of ids is
    known. *)
Definition review_of (ids : gset Z) (subject count : option Z) (w : World)
    : Res ReviewOut * World :=
  if bool_decide (ids = ∅) then (Ok ReviewEmpty, w)
  else
    match over_count count (found_in w ids subject) with
    | Some c =>
        match random_sample (found_in w ids subject) c w with
        | (Ok l, w') =>
            (Ok (ReviewQuestions
                   (mkReviewList (Z.of_nat (size ids)) (len l)
                      (map format_question l))), w')
        | (Raise e, w') => (Raise e, w')
        end
    | None =>
        (Ok (ReviewQuestions
               (mkReviewList (Z.of_nat (size ids))
                  (len (found_in w ids subject))
                  (map format_question (found_in w ids subject)))), w)
    end.

(** The count asked for does not cut the list: it is absent, zero, or at
    least the number of questions found. *)
Definition not_over (count : option Z) (found : list Question) : Prop :=
  match count with
  | Some c => c = 0 \/ len found <= c
  | None => True
  end.

(** The three keys of the [types] dict. *)
Definition known_type (t : pystr) : Prop :=
  t ∈ [py "single"; py "judge"; py "multi"].

(** The distinct values of a list, in the order of their first
    occurrence. *)
Definition first_seen (l : list pystr) : list pystr :=
  reverse (remove_dups (reverse l)).

(** How many questions satisfy [P]. *)
Definition how_many (P : Question -> Prop) `{!forall q, Decision (P q)}
    (qs : list Question) : Z :=
  len (filter P qs).

(** The entry a category should get: its questions counted, in all and by
    type. *)
Definition tally (qs : list Question) (cat : pystr) : CatInfo :=
  mkCatInfo (how_many (fun q => q_category q = cat) qs)
    (mkTypeCounts
       (how_many (fun q => q_category q = cat /\ q_type q = py "single") qs)
       (how_many (fun q => q_category q = cat /\ q_type q = py "judge") qs)
       (how_many (fun q => q_category q = cat /\ q_type q = py "multi") qs)).

(** The practice record of a category, [{}] when it has none. *)
Definition practice_of (w : World) (cat : pystr) : option CatData :=
  get_or (categories (loaded w)) ∅ !! cat.

(** The accuracy of a practised category can be computed. *)
Definition accuracy_defined (w : World) (cat : pystr) : Prop :=
  forall d, practice_of w cat = Some d -> 0 < cat_answered d ->
    exists r, truediv (cat_correct d) (cat_answered d) = Ok r.

Definition sum_of (l : list Z) : Z := foldr Z.add 0 l.

(** What a row of the table says about the entry it is made from. *)
Definition row_for (w : World) (entry : pystr * CatInfo) (row : CategoryRow)
    : Prop :=
  cg_name row = entry.1
  /\ cg_total row = ci_total entry.2 /\ cg_types row = ci_types entry.2
  /\ cg_answered row
     = match practice_of w entry.1 with
       | Some d => cat_answered d
       | None => 0
       end
  /\ cg_correct row
     = match practice_of w entry.1 with
       | Some d => cat_correct d
       | None => 0
       end
  /\ match cg_accuracy row with
     | Some a =>
         0 < cg_answered row
         /\ exists r, truediv (cg_correct row) (cg_answered row) = Ok r
                      /\ a = percent r
     | None => cg_answered row <= 0
     end.

(** The records of the pages obtained, in order. *)
Definition obtained (pages : list (option (list Raw))) : list Raw :=
  concat (omap id pages).

(** The base of the ids of a vehicle type. *)
Definition id_base (vehicle_type : pystr) : Z :=
  get_or (item vehicle_type VEHICLE_TYPE_ID_BASE) 0.

(** What the validator asks of one question, duplicates apart. *)
Definition sound (q : Question) : Prop :=
  q_type q ∈ VALID_TYPES
  /\ (q_type q <> py "judge" -> q_options q <> [])
  /\ strip (q_question q) <> [] /\ strip (q_answer q) <> [].

(** The same of a record that may lack keys. *)
Definition sound_entry (q : Entry) : Prop :=
  missing_fields q = []
  /\ e_type q ∈ map Some VALID_TYPES
  /\ (e_type q <> Some (py "judge") -> has_options q = true)
  /\ strip (get_or (e_question q) (py "")) <> []
  /\ strip (get_or (e_answer q) (py "")) <> [].

(** The text the rules are searched in. *)
Definition topic_text (q : Question) : pystr :=
  q_question q ++ join (py " ") (q_options q) ++ q_explanation q.

(** [word in text] *)
Definition occurs_in (word text : pystr) : Prop :=
  exists pre post, text = pre ++ word ++ post.

(** The strings a branch stands for. *)
Fixpoint denotes (unicode_decimal : Z -> bool) (items : Branch) (m : pystr)
    : Prop :=
  match items with
  | [] => m = []
  | (cs, rep) :: rest =>
      exists run m',
        m = run ++ m'
        /\ Forall (fun c => accepts unicode_decimal cs c = true) run
        /\ match rep with
           | Once => length run = 1%nat
           | OneOrMore => run <> []
           | ZeroOrMore => True
           end
        /\ denotes unicode_decimal rest m'
  end.

(** The pattern that looks for one of the words. *)
Definition word_branch (word : pystr) : Branch :=
  map (fun c => (Literal c, Once)) word.

(** The alternatives of a pattern made of plain words. *)
Fixpoint split_bar (pattern : pystr) : list pystr :=
  match pattern with
  | [] => [[]]
  | c :: rest =>
      match split_bar rest with
      | w :: ws => if c =? 124 then [] :: w :: ws else (c :: w) :: ws
      | [] => [[c]]
      end
  end.

(** No [\], [.], [[], [+] or [*] in the pattern. *)
Definition plain_words (pattern : pystr) : bool :=
  forallb (fun c => negb (bool_decide (c ∈ [92; 46; 91; 43; 42]))) pattern.

(** A table of decimal digits with the ASCII digits only. *)
Definition ascii_decimal (c : Z) : bool := (48 <=? c) && (c <=? 57).

(** A question about overtaking whose explanation quotes a fine. *)
Definition overtaking_question (id : Z) : Question :=
  mkQuestion id 1 (py "rules") (py "single") (py "超车时应当怎样做")
    [py "加速"; py "鸣喇叭"] (py "A") (py "处200元罚款") None.

(** The questions [cmd_topic_practice] draws from. *)
Definition tagged_with (unicode_decimal : Z -> bool) (topic : pystr)
    (qs : list Question) : list Question :=
  filter (fun q => topic ∈ get_question_topics unicode_decimal q) qs.

(* ===================================================================== *)
(** * Properties *)
(* ===================================================================== *)

(** ** The Python helpers on examples *)

Example py_decodes_utf8 :
  py "对" = [23545] /\ py "错误" = [38169; 35823] /\ py "TRUE" = [84; 82; 85; 69].
Proof. repeat split. Qed.

Example str_examples :
  str 10001 = py "10001" /\ str 0 = py "0" /\ str (-42) = py "-42".
Proof. repeat split. Qed.

Example replace_example :
  replace (py "TRUE") (py "对") (py "xTRUETRUEy") = py "x对对y".
Proof. reflexivity. Qed.

Example strip_upper_example : upper (strip (py "  true ")) = py "TRUE".
Proof. reflexivity. Qed.

Example upper_beyond_ascii :
  upper (py "rıght") = py "RIGHT" /\ upper (py "ſtraße") = py "STRASSE"
  /\ upper (py "ǆ对é") = py "Ǆ对É".
Proof. repeat split; vm_compute; reflexivity. Qed.

Example dotless_synonym_is_judged :
  is_correct_answer (sample_judge 1 (py "对")) (py "rıght") = true.
Proof. vm_compute. reflexivity. Qed.

Example slice_examples :
  slice [1; 2; 3; 4; 5] 1 3 = [2; 3]
  /\ slice [1; 2; 3; 4; 5] (-2) 10 = [4; 5]
  /\ prefix [1; 2; 3; 4; 5] (-1) = [1; 2; 3; 4]
  /\ slice [1; 2; 3; 4; 5] 4 2 = [].
Proof. repeat split. Qed.

Example corpus_file_example : corpus_file (py "c1") 1 = py "c1_subject1.json".
Proof. reflexivity. Qed.

Example known_corpora_example :
  known_corpora
  = [py "c1_subject1.json"; py "c1_subject4.json";
     py "a1_subject1.json"; py "a1_subject4.json";
     py "a2_subject1.json"; py "a2_subject4.json";
     py "d_subject1.json"; py "d_subject4.json"].
Proof. reflexivity. Qed.

Example sort_is_stable :
  sort (fun a b : Z * Z => a.1 <? b.1) [(2, 1); (1, 2); (2, 3); (1, 4)]
  = [(1, 2); (1, 4); (2, 1); (2, 3)].
Proof. reflexivity. Qed.

(** [3 / 10] and [1 - 3 / 10] are the doubles 0.3 and 0.7. *)
Example truediv_example :
  truediv 3 10 = Ok (S754_finite false 5404319552844595 (-54))
  /\ error_rate_of 3 10 = Ok (S754_finite false 6305039478318694 (-53))
  /\ truediv 1 0 = Raise ZeroDivisionError.
Proof. repeat split; vm_compute; reflexivity. Qed.

(** ** The progress store *)

Lemma load_progress_eq (w : World) :
  load_progress w = (Ok (get_or (progress_file w) _default_progress), w).
Proof. unfold load_progress. destruct (progress_file w); reflexivity. Qed.

Lemma loaded_eq (w : World) :
  loaded w = ensure_fields (get_or (progress_file w) _default_progress).
Proof. unfold loaded. destruct (progress_file w); reflexivity. Qed.

Lemma ensure_fields_favorites (p : Progress) :
  favorites (ensure_fields p) = Some (get_or (favorites p) []).
Proof. destruct p as [? ? ? ? [?|] [?|] [?|] ?]; reflexivity. Qed.

Lemma ensure_fields_sequential_pos (p : Progress) :
  sequential_pos (ensure_fields p) = Some (get_or (sequential_pos p) ∅).
Proof. destruct p as [? ? ? ? [?|] [?|] [?|] ?]; reflexivity. Qed.

Lemma ensure_fields_question_stats (p : Progress) :
  question_stats (ensure_fields p) = Some (get_or (question_stats p) ∅).
Proof. destruct p as [? ? ? ? [?|] [?|] [?|] ?]; reflexivity. Qed.

Lemma ensure_fields_wrong_questions (p : Progress) :
  wrong_questions (ensure_fields p) = wrong_questions p.
Proof. destruct p as [? ? ? ? [?|] [?|] [?|] ?]; reflexivity. Qed.

Lemma ensure_fields_idem (p : Progress) :
  ensure_fields (ensure_fields p) = ensure_fields p.
Proof. destruct p as [? ? ? ? [?|] [?|] [?|] ?]; reflexivity. Qed.

Lemma mem_true (x : Z) (l : list Z) : mem x l = true <-> x ∈ l.
Proof. unfold mem. apply bool_decide_eq_true. Qed.

Lemma mem_false (x : Z) (l : list Z) : mem x l = false <-> x ∉ l.
Proof. unfold mem. apply bool_decide_eq_false. Qed.

Lemma favorites_of_loaded (w : World) :
  favorites (loaded w) = Some (favorites_of w).
Proof.
  unfold favorites_of. rewrite loaded_eq, ensure_fields_favorites. reflexivity.
Qed.

(** ** Unfavorite *)

Lemma cmd_unfavorite_eq (id : Z) (w : World) :
  cmd_unfavorite id w =
    if mem id (favorites_of w)
    then (Ok (Unfavorited id (len (remove id (favorites_of w)))),
          saved (set_favorites (remove id (favorites_of w)) (loaded w)) w)
    else (Ok (NotInFavorites id), w).
Proof.
  unfold cmd_unfavorite, bind. rewrite load_progress_eq.
  fold (ensure_fields (get_or (progress_file w) _default_progress)).
  rewrite <- loaded_eq, favorites_of_loaded. cbn.
  destruct (mem id (favorites_of w)); reflexivity.
Qed.

(** C10. Unfavoriting an id that is not among the favorites succeeds with
    [not_in_favorites] and leaves the world as it was, whatever the
    corpora hold; the command never looks a question up: its output is
    the same under any other content of [DATA_DIR]. *)
Theorem unfavorite_absent_unchanged (w : World) (id : Z) :
  id ∉ favorites_of w ->
  cmd_unfavorite id w = (Ok (NotInFavorites id), w)
  /\ forall dir,
       fst (cmd_unfavorite id (mkWorld dir (progress_file w) (rng w) (clock w)))
       = Ok (NotInFavorites id).
Proof.
  intros Hnot. split.
  - rewrite cmd_unfavorite_eq.
    apply mem_false in Hnot. rewrite Hnot. reflexivity.
  - intros dir. rewrite cmd_unfavorite_eq.
    replace (favorites_of (mkWorld dir (progress_file w) (rng w) (clock w)))
      with (favorites_of w) by reflexivity.
    apply mem_false in Hnot. rewrite Hnot. reflexivity.
Qed.

Lemma unfavorite_absent_unchanged_witness :
  (99 ∉ favorites_of (sample_world [] (Some (with_favorites [1; 2]))))
  /\ cmd_unfavorite 99 (sample_world [] (Some (with_favorites [1; 2])))
     = (Ok (NotInFavorites 99), sample_world [] (Some (with_favorites [1; 2]))).
Proof.
  assert (H : 99 ∉ favorites_of (sample_world [] (Some (with_favorites [1; 2])))).
  { apply mem_false. vm_compute. reflexivity. }
  split; [exact H |].
  exact (proj1 (unfavorite_absent_unchanged _ 99 H)).
Defined.

(** ** Looking a question up *)

Lemma first_with_id_Some (qid : Z) (questions : list Question) (q : Question) :
  first_with_id qid questions = Some q -> q ∈ questions /\ q_id q = qid.
Proof.
  induction questions as [|x rest IH]; cbn; [discriminate |].
  destruct (q_id x =? qid) eqn:E.
  - intros [= <-]. split; [left | lia].
  - intros H. destruct (IH H). split; [by right | done].
Qed.

Lemma first_with_id_None (qid : Z) (questions : list Question) :
  (forall q, q ∈ questions -> q_id q <> qid) ->
  first_with_id qid questions = None.
Proof.
  induction questions as [|x rest IH]; cbn; [done |].
  intros H. destruct (q_id x =? qid) eqn:E.
  - exfalso. apply (H x); [left | lia].
  - apply IH. intros q Hq. apply H. by right.
Qed.

Lemma find_in_Some dir (qid : Z) (files : list pystr) (q : Question) :
  find_in dir qid files = Some q -> q_id q = qid.
Proof.
  induction files as [|f rest IH]; cbn; [discriminate |].
  destruct (dir !! f) as [qs|]; [| exact IH].
  destruct (first_with_id qid qs) eqn:E; [| exact IH].
  intros [= <-]. by apply first_with_id_Some in E as [_ ?].
Qed.

Lemma find_in_None (dir : gmap pystr (list Question)) (qid : Z)
    (files : list pystr) :
  (forall file qs q,
     file ∈ files -> dir !! file = Some qs -> q ∈ qs -> q_id q <> qid) ->
  find_in dir qid files = None.
Proof.
  induction files as [|f rest IH]; cbn; [done |].
  intros H.
  assert (Hrest : find_in dir qid rest = None).
  { apply IH. intros file qs q Hf. apply H. by right. }
  destruct (dir !! f) as [qs|] eqn:E; [| exact Hrest].
  rewrite first_with_id_None; [exact Hrest |].
  intros q Hq. apply (H f qs q); [left | done | done].
Qed.

(** ** Favorite *)

Lemma cmd_favorite_eq (id : Z) (w : World) :
  cmd_favorite id w =
    match find_in (data_dir w) id known_corpora with
    | None => (Ok (FavError (QuestionNotFound id)), w)
    | Some _ =>
        if mem id (favorites_of w)
        then (Ok (AlreadyFavorited id (len (favorites_of w))), w)
        else (Ok (Favorited id (len (favorites_of w ++ [id]))),
              saved (set_favorites (favorites_of w ++ [id]) (loaded w)) w)
    end.
Proof.
  unfold cmd_favorite, bind, find_question_by_id. rewrite load_progress_eq.
  destruct (find_in (data_dir w) id known_corpora); [| reflexivity].
  fold (ensure_fields (get_or (progress_file w) _default_progress)).
  rewrite <- loaded_eq, favorites_of_loaded. cbn.
  destruct (mem id (favorites_of w)); reflexivity.
Qed.

Lemma favorites_of_saved (l : list Z) (p : Progress) (w : World) :
  favorites_of (saved (set_favorites l p) w) = l.
Proof.
  unfold favorites_of. rewrite loaded_eq. cbn [saved progress_file get_or].
  rewrite ensure_fields_favorites. reflexivity.
Qed.

(** C9 is not what the code does: an id kept in [favorites] whose question
    is in no corpus any more gets the not-found error, not
    [already_favorited]. *)
Lemma favorite_orphan_not_reported_as_favorited :
  ~ (7 ∈ favorites_of (sample_world [] (Some (with_favorites [7]))) ->
     fst (cmd_favorite 7 (sample_world [] (Some (with_favorites [7]))))
     = Ok (AlreadyFavorited 7 1)).
Proof.
  intros H.
  assert (Hin : 7 ∈ favorites_of (sample_world [] (Some (with_favorites [7])))).
  { apply mem_true. vm_compute. reflexivity. }
  specialize (H Hin). vm_compute in H. discriminate H.
Qed.

(** C9, amended. On an id already among the favorites, [cmd_favorite]
    leaves the world as it was (nothing appended, nothing saved); it
    reports [already_favorited] when the question is found in a corpus
    and the not-found error when it is not.  Moreover favorites without
    duplicates stay so after [cmd_favorite] on any id. *)
Theorem favorite_present_unchanged (w : World) (id : Z) :
  id ∈ favorites_of w ->
  cmd_favorite id w =
    (Ok (match find_in (data_dir w) id known_corpora with
         | Some _ => AlreadyFavorited id (len (favorites_of w))
         | None => FavError (QuestionNotFound id)
         end), w)
  /\ forall id',
       NoDup (favorites_of w) ->
       NoDup (favorites_of (snd (cmd_favorite id' w))).
Proof.
  intros Hin. split.
  - rewrite cmd_favorite_eq. apply mem_true in Hin. rewrite Hin.
    destruct (find_in (data_dir w) id known_corpora); reflexivity.
  - intros id' Hnd. rewrite cmd_favorite_eq.
    destruct (find_in (data_dir w) id' known_corpora); [| exact Hnd].
    destruct (mem id' (favorites_of w)) eqn:E; [exact Hnd |].
    cbn [snd]. rewrite favorites_of_saved.
    apply mem_false in E.
    apply NoDup_app. split; [exact Hnd |]. split.
    + intros x Hx Hx'. apply list_elem_of_singleton in Hx'. by subst.
    + apply NoDup_singleton.
Qed.

Lemma favorite_present_unchanged_witness :
  (10003 ∈ favorites_of
     (sample_world (sample_run 10001 12 (py "signals"))
        (Some (with_favorites [10003]))))
  /\ cmd_favorite 10003
       (sample_world (sample_run 10001 12 (py "signals"))
          (Some (with_favorites [10003])))
     = (Ok (AlreadyFavorited 10003 1),
        sample_world (sample_run 10001 12 (py "signals"))
          (Some (with_favorites [10003]))).
Proof.
  assert (H : 10003 ∈ favorites_of
                (sample_world (sample_run 10001 12 (py "signals"))
                   (Some (with_favorites [10003])))).
  { apply mem_true. vm_compute. reflexivity. }
  split; [exact H |].
  exact (proj1 (favorite_present_unchanged _ 10003 H)).
Defined.

(** ** Check: unknown id *)

(** C8. When no known corpus holds a question with the given id,
    [cmd_check] prints the not-found error and the world, [progress.json]
    included, is exactly what it was. *)
Theorem check_unknown_id_unchanged (w : World) (id : Z) (answer : pystr) :
  (forall file qs q,
     file ∈ known_corpora -> data_dir w !! file = Some qs -> q ∈ qs ->
     q_id q <> id) ->
  cmd_check id answer w = (Ok (inl (QuestionNotFound id)), w).
Proof.
  intros H. unfold cmd_check, bind, find_question_by_id.
  rewrite (find_in_None _ _ _ H). reflexivity.
Qed.

Lemma check_unknown_id_unchanged_witness :
  cmd_check 5 (py "A")
    (sample_world (sample_run 10001 12 (py "signals")) (Some (with_wrong [10002])))
  = (Ok (inl (QuestionNotFound 5)),
     sample_world (sample_run 10001 12 (py "signals")) (Some (with_wrong [10002]))).
Proof.
  apply check_unknown_id_unchanged.
  intros file qs q _ Hfile Hq.
  cbn [sample_world data_dir] in Hfile.
  apply lookup_singleton_Some in Hfile as [_ <-].
  apply list_elem_of_In in Hq. vm_compute in Hq.
  repeat (destruct Hq as [<- | Hq]; [vm_compute; discriminate |]).
  destruct Hq.
Defined.

(** ** Check: the list of wrong questions *)

Lemma remove_other (x y : Z) (l : list Z) :
  y <> x -> y ∈ remove x l <-> y ∈ l.
Proof.
  intros Hne. induction l as [|a l IH]; cbn; [done |].
  destruct (x =? a) eqn:E.
  - apply Z.eqb_eq in E. subst a. rewrite elem_of_cons. intuition congruence.
  - rewrite !elem_of_cons, IH. done.
Qed.

Lemma remove_sublist (x y : Z) (l : list Z) : y ∈ remove x l -> y ∈ l.
Proof.
  induction l as [|a l IH]; cbn; [done |].
  destruct (x =? a).
  - intros. by right.
  - rewrite !elem_of_cons. intuition congruence.
Qed.

Lemma remove_NoDup (x : Z) (l : list Z) : NoDup l -> NoDup (remove x l).
Proof.
  induction 1 as [|a l Ha Hl IH]; cbn; [constructor |].
  destruct (x =? a); [done |].
  constructor; [| done]. intros Hin. apply Ha. by eapply remove_sublist.
Qed.

Lemma remove_gone (x : Z) (l : list Z) : NoDup l -> x ∉ remove x l.
Proof.
  induction 1 as [|a l Ha Hl IH]; cbn; [apply not_elem_of_nil |].
  destruct (x =? a) eqn:E.
  - apply Z.eqb_eq in E. by subst a.
  - apply Z.eqb_neq in E. rewrite elem_of_cons. intuition congruence.
Qed.

Lemma wrong_after_spec (qid : Z) (b : bool) (wrong : list Z) :
  NoDup wrong ->
  NoDup (wrong_after qid b wrong)
  /\ (if b then qid ∉ wrong_after qid b wrong else qid ∈ wrong_after qid b wrong)
  /\ (forall x, x <> qid -> x ∈ wrong_after qid b wrong <-> x ∈ wrong).
Proof.
  intros Hnd. unfold wrong_after.
  destruct (mem qid wrong) eqn:E;
    [apply mem_true in E | apply mem_false in E]; destruct b.
  - split; [by apply remove_NoDup |]. split; [by apply remove_gone |].
    intros x Hx. by apply remove_other.
  - split; [done |]. split; [done |]. intros; reflexivity.
  - split; [done |]. split; [done |]. intros; reflexivity.
  - split.
    + apply NoDup_app. split; [done |]. split; [| apply NoDup_singleton].
      intros x Hx Hx'. apply list_elem_of_singleton in Hx'. by subst.
    + split; [apply elem_of_app; right; by left |].
      intros x Hx. rewrite elem_of_app, list_elem_of_singleton. intuition congruence.
Qed.

Lemma record_answer_inv (q : Question) (b : bool) (p : Progress) (w : World)
    (r : Progress * gmap pystr QStat) (w' : World) :
  record_answer q b p w = (Ok r, w') ->
  w' = w
  /\ exists wrong,
       wrong_questions p = Some wrong
       /\ wrong_questions (fst r) = Some (wrong_after (q_id q) b wrong).
Proof.
  unfold record_answer, bind, getitem, ret, raise, wrong_after.
  destruct p as [[a|] tc cats wr fav sp qst me]; cbn; [| discriminate].
  destruct cats as [cats|]; cbn; [| discriminate].
  destruct b.
  - destruct tc as [tc|]; cbn; [| discriminate].
    destruct wr as [wr|]; cbn; [| discriminate].
    destruct (mem (q_id q) wr) eqn:E; cbn;
      (destruct qst as [qst|]; cbn; [| discriminate]);
      intros [= <- <-]; (split; [done |]); exists wr; cbn; by rewrite E.
  - destruct wr as [wr|]; cbn; [| discriminate].
    destruct (mem (q_id q) wr) eqn:E; cbn;
      (destruct qst as [qst|]; cbn; [| discriminate]);
      intros [= <- <-]; (split; [done |]); exists wr; cbn; by rewrite E.
Qed.

Lemma check_result_world (q : Question) (b : bool) (answer : pystr)
    (stats : gmap pystr QStat) (w : World) :
  snd (check_result q b answer stats w) = w.
Proof.
  unfold check_result, bind, getitem, ret, raise, lift.
  destruct (stats !! str (q_id q)) as [qs|]; cbn; [| done].
  destruct (0 <? st_attempts qs); cbn; [| done].
  destruct (error_rate_of (st_correct qs) (st_attempts qs)); done.
Qed.

Lemma check_result_correct (q : Question) (b : bool) (answer : pystr)
    (stats : gmap pystr QStat) (w : World) (r : CheckResult) :
  fst (check_result q b answer stats w) = Ok r -> cr_correct r = b.
Proof.
  unfold check_result, bind, getitem, ret, raise, lift.
  destruct (stats !! str (q_id q)) as [qs|]; cbn; [| discriminate].
  destruct (0 <? st_attempts qs); cbn.
  - destruct (error_rate_of (st_correct qs) (st_attempts qs)); cbn;
      [| discriminate]. by intros [= <-].
  - by intros [= <-].
Qed.

Lemma wrong_of_saved (p : Progress) (w : World) :
  wrong_of (saved p w) = get_or (wrong_questions p) [].
Proof.
  unfold wrong_of. rewrite loaded_eq. cbn [saved progress_file get_or].
  by rewrite ensure_fields_wrong_questions.
Qed.

Lemma cmd_check_eq (id : Z) (answer : pystr) (w : World) :
  cmd_check id answer w =
    match find_in (data_dir w) id known_corpora with
    | None => (Ok (inl (QuestionNotFound id)), w)
    | Some q =>
        match record_answer q (is_correct_answer q answer) (loaded w) w with
        | (Ok updated, w1) =>
            match check_result q (is_correct_answer q answer) answer
                    (snd updated) (saved (fst updated) w1) with
            | (Ok result, w2) => (Ok (inr result), w2)
            | (Raise e, w2) => (Raise e, w2)
            end
        | (Raise e, w1) => (Raise e, w1)
        end
    end.
Proof.
  unfold cmd_check, bind, find_question_by_id.
  destruct (find_in (data_dir w) id known_corpora) as [q|]; [| reflexivity].
  rewrite load_progress_eq, <- loaded_eq.
  destruct (record_answer q (is_correct_answer q answer) (loaded w) w)
    as [[r|e] w1]; reflexivity.
Qed.

(** What a completed [cmd_check] did: the question it found, the record
    it saved. *)
Lemma cmd_check_done (w : World) (id : Z) (answer : pystr) (b : bool) :
  verdict (fst (cmd_check id answer w)) = Some b ->
  exists q p,
    find_in (data_dir w) id known_corpora = Some q
    /\ is_correct_answer q answer = b
    /\ snd (cmd_check id answer w) = saved p w
    /\ wrong_questions p = Some (wrong_after id b (wrong_of w))
    /\ is_Some (wrong_questions (loaded w)).
Proof.
  rewrite cmd_check_eq.
  destruct (find_in (data_dir w) id known_corpora) as [q|] eqn:Hq;
    [| discriminate].
  pose proof (find_in_Some _ _ _ _ Hq) as Hid.
  destruct (record_answer q (is_correct_answer q answer) (loaded w) w)
    as [[r|e] w1] eqn:Hr; [| discriminate].
  apply record_answer_inv in Hr as [-> (wrong & Hw & Hw')].
  pose proof (check_result_world q (is_correct_answer q answer) answer
                (snd r) (saved (fst r) w)) as Hworld.
  pose proof (check_result_correct q (is_correct_answer q answer) answer
                (snd r) (saved (fst r) w)) as Hcorrect.
  destruct (check_result q (is_correct_answer q answer) answer (snd r)
              (saved (fst r) w)) as [[res|e] w2]; cbn [fst snd] in *;
    [| discriminate].
  cbn [verdict]. intros [= Hb]. subst w2.
  rewrite (Hcorrect res eq_refl) in Hb.
  exists q, (fst r). repeat split; try done.
  rewrite Hw'. unfold wrong_of. rewrite Hw. cbn [get_or]. by rewrite Hid, Hb.
Qed.

Lemma record_answer_ok (q : Question) (b : bool) (p : Progress) (w : World) :
  is_Some (total_answered p) -> is_Some (total_correct p) ->
  is_Some (categories p) -> is_Some (wrong_questions p) ->
  is_Some (question_stats p) ->
  exists r, record_answer q b p w = (Ok r, w).
Proof.
  destruct p as [ta tc cats wr fav sp qst me]. cbn.
  intros [a ->] [c ->] [m ->] [l ->] [st ->].
  unfold record_answer, bind, getitem, ret. cbn.
  destruct b; destruct (mem (q_id q) l); cbn; eexists; reflexivity.
Qed.

(** A check of a known question on a record that has its counters and
    lists always rewrites [progress.json], whatever happens while the
    result is printed. *)
Lemma cmd_check_saves (w : World) (id : Z) (answer : pystr) (q : Question) :
  find_in (data_dir w) id known_corpora = Some q ->
  is_Some (total_answered (loaded w)) -> is_Some (total_correct (loaded w)) ->
  is_Some (categories (loaded w)) -> is_Some (wrong_questions (loaded w)) ->
  exists p,
    snd (cmd_check id answer w) = saved p w
    /\ wrong_questions p
       = Some (wrong_after id (is_correct_answer q answer) (wrong_of w)).
Proof.
  intros Hq Ha Hc Hcats Hw. rewrite cmd_check_eq, Hq.
  pose proof (find_in_Some _ _ _ _ Hq) as Hid.
  destruct (record_answer_ok q (is_correct_answer q answer) (loaded w) w
              Ha Hc Hcats Hw) as [r Hr].
  { rewrite loaded_eq, ensure_fields_question_stats. by eexists. }
  rewrite Hr.
  apply record_answer_inv in Hr as [_ (wrong & Hwrong & Hwrong')].
  pose proof (check_result_world q (is_correct_answer q answer) answer
                (snd r) (saved (fst r) w)) as Hworld.
  exists (fst r). split.
  - destruct (check_result q (is_correct_answer q answer) answer (snd r)
                (saved (fst r) w)) as [[res|e] w2]; exact Hworld.
  - rewrite Hwrong'. unfold wrong_of. rewrite Hwrong. cbn [get_or].
    by rewrite Hid.
Qed.

(** C4. When [wrong_questions] has no duplicates, a check that comes out
    correct leaves the id absent from it, a check that comes out wrong
    leaves the id in it, no other id enters or leaves, and the list still
    has no duplicates (so the id is there exactly once). *)
Theorem check_keeps_wrong_questions_a_set (w : World) (id : Z)
    (answer : pystr) (b : bool) :
  NoDup (wrong_of w) ->
  verdict (fst (cmd_check id answer w)) = Some b ->
  let wrong' := wrong_of (snd (cmd_check id answer w)) in
  NoDup wrong'
  /\ (if b then id ∉ wrong' else id ∈ wrong')
  /\ (forall x, x <> id -> x ∈ wrong' <-> x ∈ wrong_of w).
Proof.
  intros Hnd Hv.
  destruct (cmd_check_done _ _ _ _ Hv) as (q & p & _ & _ & Hsnd & Hw & _).
  cbn zeta. rewrite Hsnd, wrong_of_saved, Hw. cbn [get_or].
  by apply wrong_after_spec.
Qed.

Lemma check_keeps_wrong_questions_a_set_witness :
  10002 ∉ wrong_of
    (snd (cmd_check 10002 (py "a")
            (sample_world (sample_run 10001 12 (py "signals"))
               (Some (with_wrong [10002; 10005]))))).
Proof.
  assert (Hnd : NoDup (wrong_of
                         (sample_world (sample_run 10001 12 (py "signals"))
                            (Some (with_wrong [10002; 10005]))))).
  { replace (wrong_of (sample_world (sample_run 10001 12 (py "signals"))
                         (Some (with_wrong [10002; 10005]))))
      with [10002; 10005] by (vm_compute; reflexivity).
    apply NoDup_cons. split; [| apply NoDup_singleton].
    intros H. apply list_elem_of_singleton in H. discriminate H. }
  assert (Hv : verdict (fst (cmd_check 10002 (py "a")
                               (sample_world (sample_run 10001 12 (py "signals"))
                                  (Some (with_wrong [10002; 10005])))))
               = Some true).
  { vm_compute. reflexivity. }
  exact (proj1 (proj2 (check_keeps_wrong_questions_a_set _ _ _ _ Hnd Hv))).
Defined.

(** ** Check: synonyms of a judge answer *)

Lemma check_result_verdict (q : Question) (b : bool) (a1 a2 : pystr)
    (stats : gmap pystr QStat) (w : World) :
  let out a :=
    match check_result q b a stats w with
    | (Ok result, w2) => (Ok (inr result), w2)
    | (Raise e, w2) => (@Raise (Error + CheckResult) e, w2)
    end in
  verdict (fst (out a1)) = verdict (fst (out a2)) /\ snd (out a1) = snd (out a2).
Proof.
  cbn zeta. unfold check_result, bind, getitem, ret, raise, lift.
  destruct (stats !! str (q_id q)) as [qs|]; cbn; [| done].
  destruct (0 <? st_attempts qs); cbn; [| done].
  destruct (error_rate_of (st_correct qs) (st_attempts qs)); done.
Qed.

Lemma synonym_is_correct (q : Question) (syn canon : pystr) :
  q_type q = py "judge" ->
  (syn, canon) ∈ normalize_map ->
  is_correct_answer q syn = is_correct_answer q canon.
Proof.
  intros Htype Hin. unfold is_correct_answer. rewrite Htype.
  change (eqb (py "judge") (py "judge")) with true. cbv iota.
  set (c := upper (strip (q_answer q))).
  apply list_elem_of_In in Hin. unfold normalize_map in Hin.
  cbn [In] in Hin.
  repeat (destruct Hin as [[= <- <-] | Hin]; [f_equal; vm_compute; reflexivity |]).
  destruct Hin.
Qed.

(** C6. For a judge question, checking any of the six synonym spellings
    gives the same verdict as checking the canonical answer (对 or 错) it
    stands for, and leaves the same world behind; [normalize_map] lists
    each spelling with its canonical answer. *)
Theorem judge_synonym_same_verdict (w : World) (id : Z) (q : Question)
    (syn canon : pystr) :
  find_in (data_dir w) id known_corpora = Some q ->
  q_type q = py "judge" ->
  (syn, canon) ∈ normalize_map ->
  verdict (fst (cmd_check id syn w)) = verdict (fst (cmd_check id canon w))
  /\ snd (cmd_check id syn w) = snd (cmd_check id canon w).
Proof.
  intros Hq Htype Hin. rewrite !cmd_check_eq, Hq.
  rewrite (synonym_is_correct q syn canon Htype Hin).
  destruct (record_answer q (is_correct_answer q canon) (loaded w) w)
    as [[r|e] w1]; [| done].
  apply check_result_verdict.
Qed.

Lemma judge_synonym_same_verdict_witness :
  verdict (fst (cmd_check 20001 (py "TRUE")
                  (sample_world [sample_judge 20001 (py "对")] None)))
  = verdict (fst (cmd_check 20001 (py "对")
                    (sample_world [sample_judge 20001 (py "对")] None)))
  /\ verdict (fst (cmd_check 20001 (py "TRUE")
                     (sample_world [sample_judge 20001 (py "对")] None)))
     = Some true.
Proof.
  split; [| vm_compute; reflexivity].
  refine (proj1 (judge_synonym_same_verdict _ 20001
                   (sample_judge 20001 (py "对")) (py "TRUE") (py "对") _ _ _)).
  - vm_compute. reflexivity.
  - vm_compute. reflexivity.
  - apply list_elem_of_In. vm_compute. tauto.
Defined.

(** ** Schema repair on load *)



(** ** Sequential practice *)

Lemma resolve_vtype_ok (raw vt : pystr) (w : World) :
  assoc (lower (strip raw)) VTYPE_ALIAS = Some vt ->
  resolve_vtype raw w = (Ok vt, w).
Proof. intros H. unfold resolve_vtype. by rewrite H. Qed.

Lemma load_questions_ok (subject : Z) (vt : pystr) (qs : list Question)
    (w : World) :
  data_dir w !! corpus_file vt subject = Some qs ->
  load_questions subject vt w = (Ok qs, w).
Proof. intros H. unfold load_questions. by rewrite H. Qed.

Lemma sequential_pos_loaded (w : World) :
  sequential_pos (loaded w)
  = Some (get_or (sequential_pos (loaded w)) ∅).
Proof.
  rewrite loaded_eq, ensure_fields_sequential_pos. reflexivity.
Qed.

Lemma cmd_sequential_batch (w : World) (subject : Z) (raw vt : pystr)
    (count : Z) (qs : list Question) (ratio : float) :
  assoc (lower (strip raw)) VTYPE_ALIAS = Some vt ->
  data_dir w !! corpus_file vt subject = Some qs ->
  let key := pos_key_of vt subject in
  let c := cursor_of w key in
  let e := Z.min (c + count) (len qs) in
  c < len qs ->
  truediv e (len qs) = Ok ratio ->
  cmd_sequential subject raw count false w =
    (Ok (SeqBatch
           (mkSequentialBatch vt subject (c + 1) e (len qs) (len qs - e)
              (percent ratio) (len (slice qs c e))
              (map format_question (slice qs c e)))),
     saved (set_sequential_pos
              (<[key := e]> (get_or (sequential_pos (loaded w)) ∅))
              (loaded w)) w).
Proof.
  intros Hvt Hqs key c e Hlt Hratio.
  unfold cmd_sequential, bind.
  rewrite (resolve_vtype_ok _ _ _ Hvt), (load_questions_ok _ _ _ _ Hqs).
  rewrite load_progress_eq, <- loaded_eq.
  rewrite sequential_pos_loaded. cbn [getitem ret].
  fold key. fold (cursor_of w key). fold c.
  destruct (len qs <=? c) eqn:E; [lia |].
  fold e. unfold save_progress, lift. rewrite Hratio. reflexivity.
Qed.

Lemma cmd_sequential_finished (w : World) (subject : Z) (raw vt : pystr)
    (count : Z) (qs : list Question) :
  assoc (lower (strip raw)) VTYPE_ALIAS = Some vt ->
  data_dir w !! corpus_file vt subject = Some qs ->
  len qs <= cursor_of w (pos_key_of vt subject) ->
  cmd_sequential subject raw count false w =
    (Ok (SeqFinished (cursor_of w (pos_key_of vt subject)) (len qs)), w).
Proof.
  intros Hvt Hqs Hle.
  unfold cmd_sequential, bind.
  rewrite (resolve_vtype_ok _ _ _ Hvt), (load_questions_ok _ _ _ _ Hqs).
  rewrite load_progress_eq, <- loaded_eq.
  rewrite sequential_pos_loaded. cbn [getitem ret].
  fold (cursor_of w (pos_key_of vt subject)).
  destruct (len qs <=? cursor_of w (pos_key_of vt subject)) eqn:E; [done | lia].
Qed.

Lemma cursor_of_saved (key : pystr) (e : Z) (m : gmap pystr Z) (p : Progress)
    (w : World) :
  cursor_of (saved (set_sequential_pos (<[key := e]> m) p) w) key = e.
Proof.
  unfold cursor_of. rewrite loaded_eq. cbn [saved progress_file get_or].
  rewrite ensure_fields_sequential_pos. cbn [set_sequential_pos sequential_pos get_or].
  by rewrite lookup_insert_eq.
Qed.

Lemma slice_inside {A} (l : list A) (i j : Z) :
  0 <= i <= j -> j <= len l ->
  slice l i j = take (Z.to_nat (j - i)) (drop (Z.to_nat i) l).
Proof.
  intros Hij Hj. unfold slice, clamp.
  destruct (i <? 0) eqn:Ei; [lia |]. destruct (j <? 0) eqn:Ej; [lia |].
  by rewrite !Z.min_l by lia.
Qed.

(** C5. On a corpus of 12 questions with the cursor at 0, a call with
    [count = 5] returns the first five questions, reports positions 1 to
    5 and saves the cursor 5; the next call returns questions 6 to 10,
    reports positions 6 to 10 and saves the cursor 10; and with the
    cursor at 12 the call reports completion and leaves the world,
    cursor included, untouched. *)
Theorem sequential_resumes (w : World) (subject : Z) (raw vt : pystr)
    (qs : list Question) :
  assoc (lower (strip raw)) VTYPE_ALIAS = Some vt ->
  data_dir w !! corpus_file vt subject = Some qs ->
  length qs = 12%nat ->
  cursor_of w (pos_key_of vt subject) = 0 ->
  exists b1 w1 b2 w2,
    cmd_sequential subject raw 5 false w = (Ok (SeqBatch b1), w1)
    /\ sq_questions b1 = map format_question (take 5 qs)
    /\ sq_position b1 = 1 /\ sq_end_position b1 = 5
    /\ cursor_of w1 (pos_key_of vt subject) = 5
    /\ cmd_sequential subject raw 5 false w1 = (Ok (SeqBatch b2), w2)
    /\ sq_questions b2 = map format_question (take 5 (drop 5 qs))
    /\ sq_position b2 = 6 /\ sq_end_position b2 = 10
    /\ cursor_of w2 (pos_key_of vt subject) = 10
    /\ forall w3 count,
         data_dir w3 !! corpus_file vt subject = Some qs ->
         cursor_of w3 (pos_key_of vt subject) = 12 ->
         cmd_sequential subject raw count false w3 = (Ok (SeqFinished 12 12), w3).
Proof.
  intros Hvt Hqs Hlen Hcur.
  assert (Hlen' : len qs = 12) by (unfold len; rewrite Hlen; reflexivity).
  pose proof (cmd_sequential_batch w subject raw vt 5 qs) as H1.
  cbn zeta in H1. rewrite Hcur, Hlen' in H1.
  specialize (H1 _ Hvt Hqs ltac:(lia) ltac:(vm_compute; reflexivity)).
  change (Z.min (0 + 5) 12) with 5 in H1.
  set (w1 := saved _ w) in H1.
  assert (Hcur1 : cursor_of w1 (pos_key_of vt subject) = 5)
    by apply cursor_of_saved.
  assert (Hqs1 : data_dir w1 !! corpus_file vt subject = Some qs) by exact Hqs.
  assert (Hr2 : truediv (Z.min (5 + 5) 12) 12
                = Ok (S754_finite false 7505999378950827 (-53)))
    by (vm_compute; reflexivity).
  pose proof (cmd_sequential_batch w1 subject raw vt 5 qs
                (S754_finite false 7505999378950827 (-53)) Hvt Hqs1) as H2.
  cbn zeta in H2. rewrite Hcur1, Hlen' in H2.
  specialize (H2 ltac:(lia) Hr2).
  change (Z.min (5 + 5) 12) with 10 in H2.
  set (w2 := saved _ w1) in H2.
  eexists _, w1, _, w2.
  split; [exact H1 |]. cbn [sq_questions sq_position sq_end_position].
  split; [by rewrite slice_inside by lia |].
  split; [reflexivity |]. split; [reflexivity |].
  split; [exact Hcur1 |].
  split; [exact H2 |].
  split; [by rewrite slice_inside by lia |].
  split; [reflexivity |]. split; [reflexivity |].
  split; [apply cursor_of_saved |].
  intros w3 count Hqs3 Hcur3.
  rewrite (cmd_sequential_finished w3 subject raw vt count qs Hvt Hqs3)
    by (rewrite Hcur3, Hlen'; lia).
  by rewrite Hcur3, Hlen'.
Qed.

Lemma sequential_resumes_witness :
  exists b1 w1,
    cmd_sequential 1 (py "c1") 5 false
      (sample_world (sample_run 10001 12 (py "signals")) None)
    = (Ok (SeqBatch b1), w1)
    /\ map f_id (sq_questions b1) = [10001; 10002; 10003; 10004; 10005]
    /\ cursor_of w1 (pos_key_of (py "c1") 1) = 5.
Proof.
  destruct (sequential_resumes
              (sample_world (sample_run 10001 12 (py "signals")) None)
              1 (py "c1") (py "c1") (sample_run 10001 12 (py "signals")))
    as (b1 & w1 & b2 & w2 & H1 & Hq1 & _ & _ & Hc1 & _).
  - vm_compute. reflexivity.
  - apply lookup_singleton_eq.
  - reflexivity.
  - vm_compute. reflexivity.
  - exists b1, w1. split; [exact H1 |]. split; [| exact Hc1].
    rewrite Hq1. vm_compute. reflexivity.
Defined.

(** ** Sorting *)

Section SortFacts.
Context {A : Type} (lt : A -> A -> bool) (ok : A -> Prop).

Hypothesis lt_asym : forall x y, ok x -> ok y -> lt x y = true -> lt y x = false.
Hypothesis not_after_trans :
  forall x y z, ok x -> ok y -> ok z ->
    not_after lt x y -> not_after lt y z -> not_after lt x z.

Lemma insert_Permutation (x : A) (l : list A) :
  Permutation (insert lt x l) (x :: l).
Proof.
  induction l as [|y l IH]; cbn; [done |].
  destruct (lt y x); [| done].
  rewrite IH. apply perm_swap.
Qed.

Lemma sort_Permutation (l : list A) : Permutation (sort lt l) l.
Proof.
  induction l as [|x l IH]; cbn; [done |].
  rewrite insert_Permutation. by constructor.
Qed.

Lemma insert_sorted (x : A) (l : list A) :
  ok x -> Forall ok l ->
  StronglySorted (not_after lt) l -> StronglySorted (not_after lt) (insert lt x l).
Proof.
  intros Hx Hok Hs. induction Hs as [|y l Hs IH Hy]; cbn.
  - repeat constructor.
  - apply Forall_cons in Hok as [Hoky Hokl].
    destruct (lt y x) eqn:E.
    + constructor; [by apply IH |].
      rewrite insert_Permutation. constructor; [| done].
      by apply lt_asym.
    + constructor; [by constructor |].
      constructor; [done |].
      rewrite Forall_forall in Hy, Hokl. apply Forall_forall.
      intros z Hz. apply (not_after_trans x y z); auto.
Qed.

Lemma sort_sorted (l : list A) :
  Forall ok l -> StronglySorted (not_after lt) (sort lt l).
Proof.
  induction 1 as [|x l Hx Hl IH]; cbn; [constructor |].
  apply insert_sorted; [done | | done].
  change (Forall ok (sort lt l)). by rewrite sort_Permutation.
Qed.
End SortFacts.

(** In a sorted list, whatever may not stand after [y] stands before it. *)
Lemma sorted_precedes {A} (R : A -> A -> Prop) (l : list A) (x y : A) :
  StronglySorted R l -> x ∈ l -> y ∈ l -> ~ R y x ->
  (exists l1 l2 l3, l = l1 ++ x :: l2 ++ y :: l3) \/ x = y.
Proof.
  intros Hs Hx Hy Hn.
  induction Hs as [|a l Hs IH Ha]; [by apply elem_of_nil in Hx |].
  apply elem_of_cons in Hx as [<- | Hx], Hy as [<- | Hy].
  - by right.
  - left. apply list_elem_of_split in Hy as (l2 & l3 & ->).
    by exists [], l2, l3.
  - exfalso. apply Hn. rewrite Forall_forall in Ha. by apply Ha.
  - destruct (IH Hx Hy) as [(l1 & l2 & l3 & ->) | ->]; [left | by right].
    by exists (a :: l1), l2, l3.
Qed.

(** ** The order of binary64 values *)

Lemma fltb_rank (x y : float) :
  is_nan x = false -> is_nan y = false ->
  fltb x y = true <-> lex_lt (rank x) (rank y).
Proof.
  unfold fltb, SFltb, lex_lt.
  destruct x as [[]|[]| |[] m e], y as [[]|[]| |[] m' e']; cbn;
    try discriminate; intros _ _; try (split; [discriminate | lia]);
    try (split; [lia | reflexivity]).
  - rewrite Pos.compare_cont_spec. cbn [Pos.switch_Eq].
    destruct (Z.compare_spec e e'); destruct (Pos.compare_spec m m'); cbn;
      split; try discriminate; try reflexivity; lia.
  - rewrite Pos.compare_cont_spec. cbn [Pos.switch_Eq].
    destruct (Z.compare_spec e e'); destruct (Pos.compare_spec m m'); cbn;
      split; try discriminate; try reflexivity; lia.
Qed.

Lemma feqb_rank (x y : float) :
  is_nan x = false -> is_nan y = false ->
  feqb x y = true <-> rank x = rank y.
Proof.
  unfold feqb, SFeqb.
  destruct x as [[]|[]| |[] m e], y as [[]|[]| |[] m' e']; cbn;
    try discriminate; intros _ _; try (split; [discriminate | congruence]);
    try (split; [congruence | reflexivity]).
  - rewrite Pos.compare_cont_spec. cbn [Pos.switch_Eq].
    destruct (Z.compare_spec e e'); destruct (Pos.compare_spec m m'); cbn;
      split; try discriminate; try reflexivity; intros [=]; try lia; congruence.
  - rewrite Pos.compare_cont_spec. cbn [Pos.switch_Eq].
    destruct (Z.compare_spec e e'); destruct (Pos.compare_spec m m'); cbn;
      split; try discriminate; try reflexivity; intros [=]; try lia; congruence.
Qed.

Lemma key_lt_spec (k k' : float * Z) :
  is_nan k.1 = false -> is_nan k'.1 = false ->
  key_lt k k' = true <-> key_before k k'.
Proof.
  intros Hk Hk'. unfold key_lt, key_before.
  pose proof (feqb_rank _ _ Hk Hk') as He.
  pose proof (fltb_rank _ _ Hk Hk') as Hl.
  unfold lex_lt in Hl.
  destruct (rank k.1) as [[a b] c], (rank k'.1) as [[a' b'] c'].
  cbn [fst snd] in *.
  destruct (feqb k.1 k'.1); cbn [negb].
  - assert (Heq : (a, b, c) = (a', b', c')) by by apply He.
    injection Heq as -> -> ->. rewrite Z.ltb_lt. lia.
  - rewrite Hl.
    assert (Hne : ~ (a = a' /\ b = b' /\ c = c')).
    { intros (-> & -> & ->). by destruct He as [_ He]; discriminate He. }
    lia.
Qed.

Lemma key_lt_false (k k' : float * Z) :
  is_nan k.1 = false -> is_nan k'.1 = false ->
  key_lt k k' = false <-> ~ key_before k k'.
Proof.
  intros Hk Hk'. rewrite <- key_lt_spec by done.
  destruct (key_lt k k'); split; congruence.
Qed.

Lemma rank_fneg (x : float) :
  rank (fneg x) = (- (rank x).1.1, - (rank x).1.2, - (rank x).2).
Proof. destruct x as [[]|[]| |[] m e]; cbn; f_equal; f_equal; lia. Qed.

Lemma is_nan_fneg (x : float) : is_nan (fneg x) = is_nan x.
Proof. by destruct x. Qed.

Lemma scored_lt_asym (x y : Scored) :
  rate_ok x -> rate_ok y -> scored_lt x y = true -> scored_lt y x = false.
Proof.
  unfold rate_ok, scored_lt. intros Hx Hy.
  rewrite key_lt_spec, key_lt_false
    by (unfold sort_key; cbn [fst]; by rewrite is_nan_fneg).
  unfold key_before, sort_key. cbn [fst snd]. rewrite !rank_fneg.
  cbn [fst snd]. lia.
Qed.

Lemma scored_not_after_trans (x y z : Scored) :
  rate_ok x -> rate_ok y -> rate_ok z ->
  not_after scored_lt x y -> not_after scored_lt y z ->
  not_after scored_lt x z.
Proof.
  unfold rate_ok, not_after, scored_lt. intros Hx Hy Hz.
  rewrite !key_lt_false
    by (unfold sort_key; cbn [fst]; by rewrite is_nan_fneg).
  unfold key_before, sort_key. cbn [fst snd]. rewrite !rank_fneg.
  cbn [fst snd]. lia.
Qed.

Lemma not_after_ranks_before (x y : Scored) :
  rate_ok x -> rate_ok y ->
  not_after scored_lt x y <-> ranks_before x y.
Proof.
  unfold rate_ok, not_after, scored_lt, ranks_before. intros Hx Hy.
  rewrite key_lt_false
    by (unfold sort_key; cbn [fst]; by rewrite is_nan_fneg).
  rewrite (fltb_rank _ _ Hy Hx), (feqb_rank _ _ Hx Hy).
  unfold key_before, lex_lt, sort_key. cbn [fst snd]. rewrite !rank_fneg.
  destruct (rank x.1.2) as [[a b] c], (rank y.1.2) as [[a' b'] c'].
  cbn [fst snd]. split.
  - intros H.
    destruct (decide (a = a')) as [->|]; [| lia].
    destruct (decide (b = b')) as [->|]; [| lia].
    destruct (decide (c = c')) as [->|]; [| lia].
    right. split; [done | lia].
  - intros [H | [[= -> -> ->] H]]; lia.
Qed.

Lemma ranks_before_refl (x : Scored) : rate_ok x -> ranks_before x x.
Proof.
  intros Hx. right. split; [| lia]. by apply feqb_rank.
Qed.

(** ** Error rates are numbers *)

Lemma shr_1_nonneg (mrs : shr_record) : 0 <= shr_m mrs -> 0 <= shr_m (shr_1 mrs).
Proof. destruct mrs as [[|[p|p|]|p] r s]; cbn; lia. Qed.

Lemma iter_shr_1_nonneg (p : positive) (mrs : shr_record) :
  0 <= shr_m mrs -> 0 <= shr_m (SpecFloat.iter_pos shr_1 p mrs).
Proof.
  revert mrs. induction p as [p IH|p IH|]; intros mrs H; cbn.
  - apply IH, IH. by apply shr_1_nonneg.
  - by apply IH, IH.
  - by apply shr_1_nonneg.
Qed.

Lemma shr_fexp_nonneg (m e : Z) (l : location) :
  0 <= m -> 0 <= shr_m (shr_fexp prec emax m e l).1.
Proof.
  intros Hm. unfold shr_fexp, shr.
  assert (H0 : 0 <= shr_m (shr_record_of_loc m l)) by (by destruct l as [|[]]).
  destruct (fexp prec emax (Zdigits2 m + e) - e); cbn [fst]; [done | | done].
  by apply iter_shr_1_nonneg.
Qed.

Lemma round_nearest_even_nonneg (m : Z) (l : location) :
  0 <= m -> 0 <= round_nearest_even m l.
Proof.
  intros Hm. destruct l as [|[]]; cbn; try lia. destruct (Z.even m); lia.
Qed.

Lemma binary_round_aux_number (sx : bool) (mx ex : Z) (lx : location) :
  0 <= mx -> is_nan (binary_round_aux prec emax sx mx ex lx) = false.
Proof.
  intros Hm. unfold binary_round_aux.
  pose proof (shr_fexp_nonneg mx ex lx Hm) as H1.
  destruct (shr_fexp prec emax mx ex lx) as [mrs' e']. cbn [fst] in H1.
  pose proof (shr_fexp_nonneg
                (round_nearest_even (shr_m mrs') (loc_of_shr_record mrs'))
                e' loc_Exact
                (round_nearest_even_nonneg _ _ H1)) as H2.
  destruct (shr_fexp prec emax _ e' loc_Exact) as [mrs'' e'']. cbn [fst] in H2.
  destruct (shr_m mrs''); [done | | lia].
  by destruct (e'' <=? emax - prec).
Qed.

Lemma binary_normalize_number (m e : Z) (s : bool) :
  is_nan (binary_normalize prec emax m e s) = false.
Proof.
  destruct m; cbn; [done | |];
    unfold binary_round;
    destruct (shl_align _ _ _); by apply binary_round_aux_number.
Qed.

Lemma truediv_number (x y : Z) (f : float) :
  truediv x y = Ok f -> is_nan f = false /\ forall s, f <> S754_infinity s.
Proof.
  unfold truediv. destruct (y =? 0) eqn:Ey; [discriminate |].
  assert (Hn : is_nan (SFdiv prec emax (of_int x) (of_int y)) = false).
  { destruct x as [|px|px], y as [|py|py]; try done; cbn [of_int SFdiv];
      (destruct (SFdiv_core_binary prec emax (Z.pos px) 0 (Z.pos py) 0)
         as [[mz ez] lz] eqn:E;
       apply binary_round_aux_number;
       unfold SFdiv_core_binary in E;
       match type of E with
       | (let '(q, r) := Z.div_eucl ?a ?b in _) = _ =>
           pose proof (Z.div_pos a b) as Hq; unfold Z.div in Hq;
           destruct (Z.div_eucl a b) as [q r]
       end;
       injection E as <- _ _; apply Hq; [| lia];
       match goal with
       | |- 0 <= match ?s with _ => _ end =>
           destruct s; [lia | apply Z.shiftl_nonneg; lia | lia]
       end). }
  destruct (SFdiv prec emax (of_int x) (of_int y)); try discriminate;
    intros [= <-]; done.
Qed.

Lemma error_rate_number (c a : Z) (f : float) :
  error_rate_of c a = Ok f -> is_nan f = false.
Proof.
  unfold error_rate_of. destruct (truediv c a) as [g|] eqn:E; [| discriminate].
  intros [= <-]. apply truediv_number in E as [Hn Hinf].
  change (to_float 1) with (S754_finite false 4503599627370496 (-52)).
  unfold fsub. destruct g as [[]|[]| |[] m e]; try done;
    try (by destruct (Hinf _)); cbn [SFsub]; apply binary_normalize_number.
Qed.

(** ** Questions ranked by error rate *)

Lemma score_questions_spec (q_stats : gmap pystr QStat)
    (qs : list Question) (scored : list Scored) :
  score_questions q_stats qs = Ok scored ->
  map (fun x : Scored => x.1.1) scored = filter (attempted q_stats) qs
  /\ Forall rate_ok scored
  /\ Forall (scored_from q_stats) scored.
Proof.
  revert scored. induction qs as [|q qs IH]; intros scored.
  - cbn. intros [= <-]. repeat split; constructor.
  - rewrite filter_cons. cbn [score_questions].
    assert (Hatt : attempted q_stats q
                   = match q_stats !! str (q_id q) with
                     | Some stats => 0 <? st_attempts stats
                     | None => false
                     end) by reflexivity.
    destruct (q_stats !! str (q_id q)) as [stats|] eqn:Hs.
    + destruct (0 <? st_attempts stats) eqn:Ha.
      * destruct (error_rate_of (st_correct stats) (st_attempts stats))
          as [er|] eqn:He; [| discriminate].
        destruct (score_questions q_stats qs) as [rest|]; [| discriminate].
        intros [= <-]. destruct (IH rest eq_refl) as (Hm & Hok & Hfrom).
        rewrite decide_True by (by rewrite Hatt). cbn. rewrite Hm.
        split; [done |]. split; constructor; try done.
        -- by apply error_rate_number in He.
        -- by exists stats.
      * intros H. rewrite decide_False by (rewrite Hatt; intros []). by apply IH.
    + intros H. rewrite decide_False by (rewrite Hatt; intros []). by apply IH.
Qed.

Lemma prefix_min {A} (l : list A) (count : Z) :
  0 <= count -> prefix l (Z.min count (len l)) = take (Z.to_nat count) l.
Proof.
  intros Hc. unfold prefix, len.
  rewrite slice_inside by (unfold len; lia).
  rewrite drop_0, Z.sub_0_r.
  destruct (Z.le_gt_cases count (Z.of_nat (length l))).
  - by rewrite Z.min_l by lia.
  - rewrite Z.min_r, Nat2Z.id by lia.
    by rewrite !take_ge by lia.
Qed.

Lemma sorted_weaken {A} (R R' : A -> A -> Prop) (ok : A -> Prop) (l : list A) :
  (forall x y, ok x -> ok y -> R x y -> R' x y) ->
  Forall ok l -> StronglySorted R l -> StronglySorted R' l.
Proof.
  intros HR Hok Hs. induction Hs as [|a l Hs IH Ha]; [constructor |].
  apply Forall_cons in Hok as [Hoka Hokl].
  constructor; [by apply IH |].
  rewrite Forall_forall in Ha, Hokl. apply Forall_forall.
  intros y Hy. apply HR; auto.
Qed.

Lemma strictly_higher_not_ranked_after (x y : Scored) :
  rate_ok x -> rate_ok y ->
  fltb y.1.2 x.1.2 = true -> ~ ranks_before y x /\ x <> y.
Proof.
  unfold rate_ok, ranks_before. intros Hx Hy H.
  split.
  - rewrite (fltb_rank _ _ Hx Hy), (feqb_rank _ _ Hy Hx).
    apply (fltb_rank _ _ Hy Hx) in H. unfold lex_lt in *.
    intros [H' | [H' _]]; [lia |]. rewrite H' in H. lia.
  - intros ->. apply (fltb_rank _ _ Hy Hy) in H. unfold lex_lt in H. lia.
Qed.

(** C7. The pool of [hard] is exactly the questions with at least one
    recorded attempt, in corpus order, each with the error rate
    [1 - correct / attempts] of its statistics; the list returned is the
    first [count] entries of that pool sorted by descending error rate,
    ties broken by descending attempts, so that an entry with a strictly
    higher error rate always comes first; and the error rate of 3 correct
    out of 10 is strictly higher than that of 8 correct out of 10. *)
Theorem hard_ranks_by_error_rate (w : World) (subject : Z) (raw vt : pystr)
    (qs : list Question) (count : Z) (scored : list Scored) :
  assoc (lower (strip raw)) VTYPE_ALIAS = Some vt ->
  data_dir w !! corpus_file vt subject = Some qs ->
  score_questions (get_or (question_stats (loaded w)) ∅) qs = Ok scored ->
  scored <> [] ->
  0 <= count ->
  map (fun x : Scored => x.1.1) scored
    = filter (attempted (get_or (question_stats (loaded w)) ∅)) qs
  /\ Forall (scored_from (get_or (question_stats (loaded w)) ∅)) scored
  /\ (exists ranked,
        Permutation ranked scored
        /\ StronglySorted ranks_before ranked
        /\ (forall x y, x ∈ ranked -> y ∈ ranked ->
              fltb y.1.2 x.1.2 = true ->
              exists l1 l2 l3, ranked = l1 ++ x :: l2 ++ y :: l3)
        /\ cmd_hard subject raw count w =
             (Ok (HardRanked
                    (mkHardList vt subject (len scored)
                       (Z.min count (len scored))
                       (map (fun x : Scored =>
                               (format_question x.1.1, percent x.1.2, x.2))
                          (take (Z.to_nat count) ranked)))), w))
  /\ (exists e1 e2,
        error_rate_of 3 10 = Ok e1 /\ error_rate_of 8 10 = Ok e2
        /\ fltb e2 e1 = true).
Proof.
  intros Hvt Hqs Hscored Hne Hcount.
  destruct (score_questions_spec _ _ _ Hscored) as (Hpool & Hok & Hfrom).
  split; [exact Hpool |]. split; [exact Hfrom |]. split.
  - exists (sort scored_lt scored).
    assert (Hperm : Permutation (sort scored_lt scored) scored)
      by apply sort_Permutation.
    assert (Hok' : Forall rate_ok (sort scored_lt scored))
      by (by rewrite Hperm).
    assert (Hsorted : StronglySorted ranks_before (sort scored_lt scored)).
    { apply (sorted_weaken (not_after scored_lt) ranks_before rate_ok);
        [| exact Hok' |].
      - intros x y Hx Hy. by apply not_after_ranks_before.
      - apply (sort_sorted scored_lt rate_ok);
          [exact scored_lt_asym | exact scored_not_after_trans | exact Hok]. }
    split; [exact Hperm |]. split; [exact Hsorted |]. split.
    + intros x y Hx Hy Hlt. rewrite Forall_forall in Hok'.
      destruct (strictly_higher_not_ranked_after x y (Hok' x Hx) (Hok' y Hy) Hlt)
        as [Hn Hxy].
      destruct (sorted_precedes ranks_before _ x y Hsorted Hx Hy Hn); done.
    + unfold cmd_hard, bind.
      rewrite (resolve_vtype_ok _ _ _ Hvt), (load_questions_ok _ _ _ _ Hqs).
      rewrite load_progress_eq, <- loaded_eq. unfold lift. rewrite Hscored.
      destruct scored as [|x rest] eqn:E; [done |]. rewrite <- E in *.
      unfold ret.
      assert (Hlen : len (sort scored_lt scored) = len scored)
        by (unfold len; by rewrite Hperm).
      rewrite Hlen, <- Hlen, prefix_min by done. by rewrite Hlen.
  - exists (S754_finite false 6305039478318694 (-53)),
           (S754_finite false 7205759403792792 (-55)).
    split; [vm_compute; reflexivity |].
    split; [vm_compute; reflexivity |]. vm_compute. reflexivity.
Qed.

Lemma hard_ranks_by_error_rate_witness :
  exists r,
    cmd_hard 1 (py "c1") 10
      (sample_world [sample_question 2 (py "signals");
                     sample_question 1 (py "signals");
                     sample_question 3 (py "signals")]
         (Some hard_progress))
    = (Ok (HardRanked r),
       sample_world [sample_question 2 (py "signals");
                     sample_question 1 (py "signals");
                     sample_question 3 (py "signals")]
         (Some hard_progress))
    /\ map (fun x : Formatted * float * Z => f_id x.1.1) (hd_questions r)
       = [1; 2].
Proof.
  destruct (hard_ranks_by_error_rate
              (sample_world [sample_question 2 (py "signals");
                             sample_question 1 (py "signals");
                             sample_question 3 (py "signals")]
                 (Some hard_progress))
              1 (py "c1") (py "c1")
              [sample_question 2 (py "signals");
               sample_question 1 (py "signals");
               sample_question 3 (py "signals")]
              10
              [(sample_question 2 (py "signals"),
                S754_finite false 7205759403792792 (-55), 10);
               (sample_question 1 (py "signals"),
                S754_finite false 6305039478318694 (-53), 10)])
    as (_ & _ & (ranked & _ & _ & _ & Hrun) & _).
  - vm_compute. reflexivity.
  - apply lookup_singleton_eq.
  - vm_compute. reflexivity.
  - discriminate.
  - lia.
  - eexists. split; [exact Hrun |].
    match type of Hrun with
    | ?run = _ =>
        assert (Hc : exists r, run = (Ok (HardRanked r), _)
                     /\ map (fun x : Formatted * float * Z => f_id x.1.1)
                          (hd_questions r) = [1; 2])
          by (eexists; split; vm_compute; reflexivity)
    end.
    destruct Hc as (r & Hc & Hids). rewrite Hc in Hrun.
    injection Hrun as Hr. rewrite Hr in Hids. exact Hids.
Defined.

(** ** The random module *)

Lemma same_files_refl (w : World) : same_files w w.
Proof. by repeat split. Qed.

Lemma same_files_trans (w1 w2 w3 : World) :
  same_files w1 w2 -> same_files w2 w3 -> same_files w1 w3.
Proof. intros (? & ? & ?) (? & ? & ?). repeat split; congruence. Qed.

Lemma randbelow_spec (n : nat) (w : World) :
  exists i w', randbelow n w = (Ok i, w') /\ same_files w w'
               /\ ((0 < n)%nat -> (i < n)%nat).
Proof.
  unfold randbelow. destruct (rng w) as [|r rest].
  - exists O, w. split; [done |]. split; [apply same_files_refl | lia].
  - eexists _, _. split; [done |]. split; [by repeat split |].
    intros Hn. apply Nat.mod_upper_bound. lia.
Qed.

Lemma draw_spec {A} (k : nat) (pop : list A) (w : World) :
  exists l w',
    draw k pop w = (Ok l, w') /\ same_files w w'
    /\ length l = (k `min` length pop)%nat /\ l ⊆+ pop.
Proof.
  revert pop w. induction k as [|k IH]; intros pop w.
  - exists [], w. split; [done |]. split; [apply same_files_refl |].
    split; [done | apply submseteq_nil_l].
  - cbn [draw]. unfold bind.
    destruct (randbelow_spec (length pop) w) as (i & w1 & -> & Hw1 & Hi).
    destruct (pop !! i) as [x|] eqn:Hx.
    + destruct (IH (delete i pop) w1) as (rest & w2 & -> & Hw2 & Hlen & Hsub).
      exists (x :: rest), w2. split; [done |].
      split; [by eapply same_files_trans |].
      pose proof (lookup_lt_Some _ _ _ Hx) as Hlt.
      split.
      * cbn [length]. rewrite Hlen, length_delete by eauto. lia.
      * rewrite (delete_Permutation pop i x Hx). by apply submseteq_skip.
    + exists [], w1. split; [done |]. split; [done |].
      apply lookup_ge_None in Hx.
      assert (length pop = 0)%nat by lia.
      split; [cbn [length]; lia | apply submseteq_nil_l].
Qed.

Lemma random_sample_spec {A} (pop : list A) (k : Z) (w : World) :
  0 <= k <= len pop ->
  exists l w',
    random_sample pop k w = (Ok l, w') /\ same_files w w'
    /\ len l = k /\ l ⊆+ pop.
Proof.
  intros Hk. unfold random_sample.
  destruct (k <? 0) eqn:E1; [lia |]. destruct (len pop <? k) eqn:E2; [lia |].
  cbn [orb].
  destruct (draw_spec (Z.to_nat k) pop w) as (l & w' & -> & Hw & Hlen & Hsub).
  exists l, w'. split; [done |]. split; [done |]. split; [| done].
  unfold len in *. lia.
Qed.

Lemma random_shuffle_spec {A} (x : list A) (w : World) :
  exists l w',
    random_shuffle x w = (Ok l, w') /\ same_files w w' /\ l ≡ₚ x.
Proof.
  unfold random_shuffle.
  destruct (draw_spec (length x) x w) as (l & w' & -> & Hw & Hlen & Hsub).
  exists l, w'. split; [done |]. split; [done |].
  apply submseteq_length_Permutation; [done | lia].
Qed.

(** ** The curated 500: sampling per category *)

Lemma taken_bound (per_cat : Z) (by_cat : list (pystr * list Question)) :
  0 <= per_cat -> 0 <= taken per_cat by_cat <= per_cat * len by_cat.
Proof.
  intros Hp. induction by_cat as [|g rest IH]; cbn [taken foldr]; [unfold len; cbn; lia |].
  fold (taken per_cat rest). unfold len in *. cbn [length].
  pose proof (Nat2Z.is_nonneg (length g.2)). lia.
Qed.

Lemma filter_all {A} (P : A -> Prop) `{!forall x, Decision (P x)} (l : list A) :
  Forall P l -> filter P l = l.
Proof.
  induction 1 as [|x l Hx Hl IH]; [done |].
  by rewrite filter_cons_True, IH.
Qed.

Lemma filter_none {A} (P : A -> Prop) `{!forall x, Decision (P x)} (l : list A) :
  Forall (fun x => ~ P x) l -> filter P l = [].
Proof.
  induction 1 as [|x l Hx Hl IH]; [done |].
  by rewrite filter_cons_False.
Qed.

(** What a group hands over is drawn from it, so it has the category of
    the group. *)
Lemma filter_group_all (c : pystr) (g l : list Question) :
  Forall (fun q => q_category q = c) g -> l ⊆+ g ->
  filter (fun q => q_category q = c) l = l.
Proof.
  intros Hg Hsub. apply filter_all, Forall_forall. intros q Hq.
  rewrite Forall_forall in Hg. apply Hg. by eapply elem_of_submseteq.
Qed.

Lemma filter_group_none (c c' : pystr) (g l : list Question) :
  Forall (fun q => q_category q = c') g -> l ⊆+ g -> c <> c' ->
  filter (fun q => q_category q = c) l = [].
Proof.
  intros Hg Hsub Hne. apply filter_none, Forall_forall. intros q Hq.
  rewrite Forall_forall in Hg. rewrite (Hg q); [congruence |].
  by eapply elem_of_submseteq.
Qed.

Lemma filter_groups_none (c : pystr) (by_cat : list (pystr * list Question))
    (l : list Question) :
  Forall group_ok by_cat -> l ⊆+ concat (map snd by_cat) ->
  c ∉ map fst by_cat ->
  filter (fun q => q_category q = c) l = [].
Proof.
  intros Hok Hsub Hout. apply filter_none, Forall_forall. intros q Hq Hc.
  apply (elem_of_submseteq _ _ _ Hq) in Hsub.
  apply list_elem_of_In, in_concat in Hsub as (g & Hg & Hqg).
  apply in_map_iff in Hg as ([c' g'] & <- & Hin).
  apply list_elem_of_In in Hin, Hqg. cbn [snd] in Hqg.
  rewrite Forall_forall in Hok. destruct (Hok _ Hin) as [_ Hcat].
  cbn [fst snd] in Hcat. rewrite Forall_forall in Hcat.
  apply Hout. apply list_elem_of_fmap. exists (c', g'). split; [| done].
  cbn [fst]. by rewrite <- Hc, (Hcat q Hqg).
Qed.

Lemma sample_each_full (per_cat : Z) (by_cat : list (pystr * list Question))
    (w : World) :
  0 <= per_cat ->
  exists picked w',
    sample_each per_cat by_cat w = (Ok picked, w') /\ same_files w w'
    /\ len picked = taken per_cat by_cat
    /\ picked ⊆+ concat (map snd by_cat)
    /\ (1 <= per_cat ->
        forall c g, (c, g) ∈ by_cat -> g <> [] ->
          exists q, q ∈ picked /\ q ∈ g)
    /\ (NoDup (map fst by_cat) -> Forall group_ok by_cat ->
        forall c g, (c, g) ∈ by_cat ->
          len (filter (fun q => q_category q = c) picked)
          = Z.min per_cat (len g)).
Proof.
  intros Hp. revert w. induction by_cat as [|[c0 g0] rest IH]; intros w.
  - exists [], w. split; [done |]. split; [apply same_files_refl |].
    split; [done |]. split; [done |].
    split; [intros _ c g Hin; by apply elem_of_nil in Hin |].
    intros _ _ c g Hin. by apply elem_of_nil in Hin.
  - cbn [sample_each]. unfold bind.
    destruct (random_sample_spec g0 (Z.min per_cat (len g0)) w)
      as (l & w1 & -> & Hw1 & Hlen & Hsub).
    { unfold len. lia. }
    destruct (IH w1)
      as (more & w2 & -> & Hw2 & Hlen2 & Hsub2 & Hhit & Hshare).
    exists (l ++ more), w2. split; [done |].
    split; [by eapply same_files_trans |]. split; [| split; [| split]].
    + cbn [taken foldr snd]. fold (taken per_cat rest).
      unfold len in *. rewrite length_app. lia.
    + cbn [map concat snd]. by apply submseteq_app.
    + intros H1 c g Hin Hne. apply elem_of_cons in Hin as [[= -> ->] | Hin].
      * destruct l as [|q l'].
        -- exfalso. destruct g0; [done |]. unfold len in Hlen.
           cbn [length] in Hlen. lia.
        -- exists q. split; [apply elem_of_app; left; by left |].
           eapply elem_of_submseteq; [| exact Hsub]. by left.
      * destruct (Hhit H1 c g Hin Hne) as (q & Hq & Hqg).
        exists q. split; [apply elem_of_app; by right | done].
    + cbn [map fst]. intros [Hc0 Hnd]%NoDup_cons [Hok0 Hok]%Forall_cons c g Hin.
      destruct Hok0 as [_ Hcat0]. cbn [fst snd] in Hcat0.
      rewrite filter_app. unfold len. rewrite length_app.
      apply elem_of_cons in Hin as [[= -> ->] | Hin].
      * rewrite (filter_group_all c0 g0 l Hcat0 Hsub).
        rewrite (filter_groups_none c0 rest more Hok Hsub2 Hc0).
        unfold len in Hlen. cbn [length]. lia.
      * assert (Hne : c <> c0).
        { intros ->. apply Hc0. apply list_elem_of_fmap. by exists (c0, g). }
        rewrite (filter_group_none c c0 g0 l Hcat0 Hsub Hne).
        specialize (Hshare Hnd Hok c g Hin). unfold len in Hshare.
        cbn [length]. lia.
Qed.

Lemma sample_each_spec (per_cat : Z) (by_cat : list (pystr * list Question))
    (w : World) :
  0 <= per_cat ->
  exists picked w',
    sample_each per_cat by_cat w = (Ok picked, w') /\ same_files w w'
    /\ len picked = taken per_cat by_cat
    /\ picked ⊆+ concat (map snd by_cat)
    /\ (1 <= per_cat ->
        forall c g, (c, g) ∈ by_cat -> g <> [] ->
          exists q, q ∈ picked /\ q ∈ g).
Proof.
  intros Hp.
  destruct (sample_each_full per_cat by_cat w Hp)
    as (picked & w' & Hrun & Hw & Hlen & Hsub & Hhit & _).
  by exists picked, w'.
Qed.

(** ** The curated 500: grouping by category *)

Lemma setdefault_append_spec (q : Question)
    (by_cat : list (pystr * list Question)) :
  let by_cat' := setdefault_append (q_category q) q by_cat in
  concat (map snd by_cat') ≡ₚ q :: concat (map snd by_cat)
  /\ (forall c, c ∈ map fst by_cat' <-> c = q_category q \/ c ∈ map fst by_cat)
  /\ (NoDup (map fst by_cat) -> NoDup (map fst by_cat'))
  /\ (Forall group_ok by_cat -> Forall group_ok by_cat').
Proof.
  cbn zeta. induction by_cat as [|[c qs] rest IH]; cbn [setdefault_append].
  - split; [done |]. split; [| split].
    + intros c. cbn. rewrite elem_of_cons. intuition congruence.
    + intros _. cbn. apply NoDup_singleton.
    + intros _. constructor; [| constructor]. split; cbn; [done |].
      by repeat constructor.
  - unfold eqb. destruct (bool_decide (c = q_category q)) eqn:E.
    + apply bool_decide_eq_true in E. subst c. cbn [map concat fst snd].
      split; [| split; [| split]].
      * rewrite <- (assoc_L (++)). cbn [app]. by rewrite <- Permutation_middle.
      * intros c. rewrite elem_of_cons. intuition congruence.
      * done.
      * intros H. apply Forall_cons in H as [[_ Hq] Hrest].
        constructor; [| done]. split; cbn [fst snd].
        -- by destruct qs.
        -- apply Forall_app. split; [done |]. by constructor.
    + apply bool_decide_eq_false in E.
      destruct IH as (Hperm & Hkeys & Hnd & Hok).
      cbn [map concat fst snd]. split; [| split; [| split]].
      * rewrite Hperm. by rewrite Permutation_middle.
      * intros c'. rewrite !elem_of_cons, Hkeys. intuition congruence.
      * intros H. apply NoDup_cons in H as [Hc Hrest].
        apply NoDup_cons. split; [| by apply Hnd].
        rewrite Hkeys. intros [-> | Hin]; done.
      * intros H. apply Forall_cons in H as [Hg Hrest].
        constructor; [done | by apply Hok].
Qed.

Lemma group_fold_spec (pool : list Question)
    (acc : list (pystr * list Question)) :
  let r := fold_left (fun by_cat q => setdefault_append (q_category q) q by_cat)
             pool acc in
  concat (map snd r) ≡ₚ concat (map snd acc) ++ pool
  /\ (forall c, c ∈ map fst r <-> c ∈ map fst acc \/ c ∈ map q_category pool)
  /\ (NoDup (map fst acc) -> NoDup (map fst r))
  /\ (Forall group_ok acc -> Forall group_ok r).
Proof.
  cbn zeta. revert acc. induction pool as [|q pool IH]; intros acc.
  - cbn. split; [by rewrite app_nil_r |]. split; [| done].
    intros c. rewrite elem_of_nil. tauto.
  - cbn [fold_left].
    destruct (setdefault_append_spec q acc) as (Hp1 & Hk1 & Hn1 & Ho1).
    destruct (IH (setdefault_append (q_category q) q acc))
      as (Hp2 & Hk2 & Hn2 & Ho2).
    split; [| split; [| split]].
    + rewrite Hp2, Hp1. by rewrite <- Permutation_middle.
    + intros c. rewrite Hk2, Hk1. cbn [map]. rewrite elem_of_cons. intuition congruence.
    + intros H. by apply Hn2, Hn1.
    + intros H. by apply Ho2, Ho1.
Qed.

Lemma group_by_category_spec (pool : list Question) :
  concat (map snd (group_by_category pool)) ≡ₚ pool
  /\ (forall c, c ∈ map fst (group_by_category pool)
                <-> c ∈ map q_category pool)
  /\ NoDup (map fst (group_by_category pool))
  /\ Forall group_ok (group_by_category pool).
Proof.
  destruct (group_fold_spec pool []) as (Hp & Hk & Hn & Ho).
  split; [exact Hp |]. split; [| split].
  - intros c. rewrite Hk. cbn. rewrite elem_of_nil. tauto.
  - apply Hn. constructor.
  - apply Ho. constructor.
Qed.

(** [len(by_cat)] is the number of distinct categories of the pool. *)
Lemma group_count (pool : list Question) :
  length (group_by_category pool)
  = length (remove_dups (map q_category pool)).
Proof.
  destruct (group_by_category_spec pool) as (_ & Hk & Hn & _).
  rewrite <- (length_map fst (group_by_category pool)).
  apply Permutation_length, NoDup_Permutation;
    [done | apply NoDup_remove_dups |].
  intros c. rewrite Hk. by rewrite elem_of_remove_dups.
Qed.

(** Every question of the pool sits in the group of its category. *)
Lemma group_of_question (pool : list Question) (q : Question) :
  q ∈ pool ->
  exists g, (q_category q, g) ∈ group_by_category pool /\ q ∈ g.
Proof.
  destruct (group_by_category_spec pool) as (Hp & _ & _ & Ho).
  intros Hq. rewrite <- Hp in Hq.
  apply list_elem_of_In, in_concat in Hq as (g & Hg & Hqg).
  apply in_map_iff in Hg as ([c g'] & <- & Hin).
  apply list_elem_of_In in Hin, Hqg.
  cbn [snd] in Hqg. rewrite Forall_forall in Ho.
  destruct (Ho _ Hin) as [_ Hcat]. cbn [fst snd] in Hcat.
  rewrite Forall_forall in Hcat. rewrite (Hcat q Hqg).
  by exists g'.
Qed.

(** ** The curated 500: the selection *)

Lemma nonempty_true {A} (l : list A) : nonempty l = true <-> l <> [].
Proof. by destruct l. Qed.

Lemma group_nonempty (pool : list Question) :
  pool <> [] -> group_by_category pool <> [].
Proof.
  intros Hne Hg. destruct (group_by_category_spec pool) as (Hp & _).
  rewrite Hg in Hp. cbn in Hp. apply Permutation_nil_l in Hp. done.
Qed.

(** The curated set is a shuffle of the first [target] entries of the
    wrong pool followed by what was sampled from the unanswered pool
    ([pu]) and from the correct pool ([pc]). *)
Lemma curate_full (wp up cp : list Question) (w : World) :
  exists pu pc curated w',
    curate wp up cp w = (Ok curated, w') /\ same_files w w'
    /\ curated ≡ₚ prefix (wp ++ pu ++ pc) target
    /\ pu ⊆+ up /\ pc ⊆+ cp
    /\ (0 < target - len wp ->
        len pu = taken (Z.max 1 ((target - len wp)
                                 / len (group_by_category up)))
                   (group_by_category up)
        /\ forall c g, (c, g) ∈ group_by_category up ->
             exists q, q ∈ pu /\ q ∈ g)
    /\ (target - len wp <= 0 -> pu = [])
    /\ len pc = Z.max 0 (Z.min (target - len wp - len pu) (len cp))
    /\ (0 < target - len wp ->
        forall c g, (c, g) ∈ group_by_category up ->
          len (filter (fun q => q_category q = c) pu)
          = Z.min (Z.max 1 ((target - len wp) / len (group_by_category up)))
              (len g)).
Proof.
  unfold curate.
  (* the unanswered questions *)
  assert (Hu : exists pu w1,
             (if (0 <? target - len wp) && nonempty up
              then
                let by_cat := group_by_category up in
                let per_cat :=
                  if nonempty by_cat
                  then Z.max 1 ((target - len wp) / len by_cat) else 0 in
                picked <- sample_each per_cat by_cat ;; ret (wp ++ picked)
              else ret wp) w = (Ok (wp ++ pu), w1)
             /\ same_files w w1 /\ pu ⊆+ up
             /\ (0 < target - len wp ->
                 len pu = taken (Z.max 1 ((target - len wp)
                                          / len (group_by_category up)))
                            (group_by_category up)
                 /\ forall c g, (c, g) ∈ group_by_category up ->
                      exists q, q ∈ pu /\ q ∈ g)
             /\ (target - len wp <= 0 -> pu = [])
             /\ (0 < target - len wp ->
                 forall c g, (c, g) ∈ group_by_category up ->
                   len (filter (fun q => q_category q = c) pu)
                   = Z.min (Z.max 1 ((target - len wp)
                                     / len (group_by_category up)))
                       (len g))).
  { destruct (0 <? target - len wp) eqn:Hrem; cbn [andb].
    - apply Z.ltb_lt in Hrem.
      destruct (nonempty up) eqn:Hup.
      + apply nonempty_true in Hup.
        pose proof (group_nonempty up Hup) as Hg.
        apply nonempty_true in Hg. cbn zeta. rewrite Hg.
        set (per_cat := Z.max 1 ((target - len wp) / len (group_by_category up))).
        destruct (sample_each_full per_cat (group_by_category up) w)
          as (pu & w1 & Hrun & Hw1 & Hlen & Hsub & Hhit & Hshare); [lia |].
        exists pu, w1. unfold bind. rewrite Hrun.
        split; [done |]. split; [done |].
        destruct (group_by_category_spec up) as (Hp & _ & Hnd & Hok).
        split; [by rewrite <- Hp |].
        split; [| split; [lia | intros _; by apply Hshare]].
        intros _. split; [done |].
        intros c g Hin. apply (Hhit ltac:(lia) c g Hin).
        rewrite Forall_forall in Hok. by destruct (Hok _ Hin).
      + exists [], w. rewrite app_nil_r. split; [done |].
        split; [apply same_files_refl |]. split; [apply submseteq_nil_l |].
        destruct up; [| done].
        split; [| split; [done |]].
        * intros _. split; [done |].
          intros c g Hin. by apply elem_of_nil in Hin.
        * intros _ c g Hin. by apply elem_of_nil in Hin.
    - apply Z.ltb_ge in Hrem. exists [], w. rewrite app_nil_r.
      split; [done |]. split; [apply same_files_refl |].
      split; [apply submseteq_nil_l |]. split; [lia |].
      split; [done | lia]. }
  destruct Hu as (pu & w1 & Hrun1 & Hw1 & Hsubu & Hpu & Hpu0 & Hshare).
  cbv zeta in Hrun1 |- *. unfold bind at 1. rewrite Hrun1. cbv beta iota.
  (* the questions answered correctly *)
  assert (Hc : exists pc w2,
             (if (0 <? target - len (wp ++ pu)) && nonempty cp
              then
                let take := Z.min (target - len (wp ++ pu)) (len cp) in
                picked <- random_sample cp take ;; ret ((wp ++ pu) ++ picked)
              else ret (wp ++ pu)) w1 = (Ok (wp ++ pu ++ pc), w2)
             /\ same_files w1 w2 /\ pc ⊆+ cp
             /\ len pc = Z.max 0 (Z.min (target - len wp - len pu) (len cp))).
  { assert (Hlen : len (wp ++ pu) = len wp + len pu)
      by (unfold len; rewrite length_app; lia).
    rewrite Hlen.
    destruct (0 <? target - (len wp + len pu)) eqn:Hrem; cbn [andb].
    - apply Z.ltb_lt in Hrem. destruct (nonempty cp) eqn:Hcp.
      + apply nonempty_true in Hcp. cbn zeta.
        assert (1 <= len cp) by (destruct cp; [done | unfold len; cbn [length]; lia]).
        destruct (random_sample_spec cp
                    (Z.min (target - (len wp + len pu)) (len cp)) w1)
          as (pc & w2 & Hrun & Hw2 & Hlenc & Hsub); [lia |].
        exists pc, w2. unfold bind. rewrite Hrun.
        split; [by rewrite <- (assoc_L (++)) |]. split; [done |].
        split; [done | lia].
      + exists [], w1. rewrite app_nil_r. split; [done |].
        split; [apply same_files_refl |]. split; [apply submseteq_nil_l |].
        destruct cp; [| done]. unfold len. cbn [length]. lia.
    - apply Z.ltb_ge in Hrem. exists [], w1. rewrite app_nil_r.
      split; [done |]. split; [apply same_files_refl |].
      split; [apply submseteq_nil_l |].
      pose proof (Nat2Z.is_nonneg (length cp)). unfold len in *.
      cbn [length]. lia. }
  destruct Hc as (pc & w2 & Hrun2 & Hw2 & Hsubc & Hpc).
  cbv zeta in Hrun2. unfold bind at 1. rewrite Hrun2. cbv beta iota.
  destruct (random_shuffle_spec (prefix (wp ++ pu ++ pc) target) w2)
    as (curated & w3 & Hrun3 & Hw3 & Hperm).
  exists pu, pc, curated, w3. rewrite Hrun3.
  split; [done |].
  split; [eapply same_files_trans; [| exact Hw3];
          by eapply same_files_trans |].
  done.
Qed.

Lemma curate_spec (wp up cp : list Question) (w : World) :
  exists pu pc curated w',
    curate wp up cp w = (Ok curated, w') /\ same_files w w'
    /\ curated ≡ₚ prefix (wp ++ pu ++ pc) target
    /\ pu ⊆+ up /\ pc ⊆+ cp
    /\ (0 < target - len wp ->
        len pu = taken (Z.max 1 ((target - len wp)
                                 / len (group_by_category up)))
                   (group_by_category up)
        /\ forall c g, (c, g) ∈ group_by_category up ->
             exists q, q ∈ pu /\ q ∈ g)
    /\ (target - len wp <= 0 -> pu = [])
    /\ len pc = Z.max 0 (Z.min (target - len wp - len pu) (len cp)).
Proof.
  destruct (curate_full wp up cp w)
    as (pu & pc & curated & w' & Hrun & Hw & Hperm & Hpu & Hpc & Hu & Hu0
        & Hc & _).
  by exists pu, pc, curated, w'.
Qed.

(** ** The curated 500: the command *)

Lemma cmd_top500_eq (w w' : World) (subject : Z) (raw vt : pystr)
    (qs curated : list Question) (count : Z) :
  assoc (lower (strip raw)) VTYPE_ALIAS = Some vt ->
  data_dir w !! corpus_file vt subject = Some qs ->
  curate (wrong_pool_of (wrong_ids_of w) qs)
    (unanswered_pool_of (wrong_ids_of w) (answered_ids_at w) qs)
    (correct_pool_of (wrong_ids_of w) (answered_ids_at w) qs) w
  = (Ok curated, w') ->
  cmd_top500 subject raw count w =
    (Ok (mkTop500Out vt subject (len curated)
           (len (wrong_pool_of (wrong_ids_of w) qs))
           (len (filter (fun q => (q_id q ∉ answered_ids_at w)
                                  /\ (q_id q ∉ wrong_ids_of w)) curated))
           (len (filter (fun q => (q_id q ∈ answered_ids_at w)
                                  /\ (q_id q ∉ wrong_ids_of w)) curated))
           (Z.min count (len curated))
           (map format_question (prefix curated (Z.min count (len curated))))),
     w').
Proof.
  intros Hvt Hqs Hcur. unfold cmd_top500, bind.
  rewrite (resolve_vtype_ok _ _ _ Hvt), (load_questions_ok _ _ _ _ Hqs).
  rewrite load_progress_eq, <- loaded_eq.
  fold (wrong_ids_of w). fold (answered_ids_at w).
  rewrite Hcur. reflexivity.
Qed.

(** Every question is wrong, unanswered or reviewed, and only one of
    them. *)
Lemma three_way_split (wrong_ids answered_ids : gset Z) (l : list Question) :
  len l
  = len (filter (fun q => q_id q ∈ wrong_ids) l)
    + len (filter (fun q => (q_id q ∉ answered_ids) /\ (q_id q ∉ wrong_ids)) l)
    + len (filter (fun q => (q_id q ∈ answered_ids) /\ (q_id q ∉ wrong_ids)) l).
Proof.
  unfold len. induction l as [|q l IH]; [done |].
  rewrite !filter_cons.
  destruct (decide (q_id q ∈ wrong_ids)), (decide (q_id q ∈ answered_ids));
    repeat case_decide; cbn [length]; try lia; tauto.
Qed.

Lemma prefix_take {A} (l : list A) (j : Z) :
  0 <= j -> prefix l j = take (Z.to_nat j) l.
Proof.
  intros Hj. unfold prefix, slice, clamp. cbn [Z.ltb Z.compare].
  destruct (j <? 0) eqn:E; [lia |].
  rewrite (Z.min_l 0 (len l)) by (unfold len; lia). rewrite Z.sub_0_r, drop_0.
  destruct (Z.le_gt_cases j (len l)).
  - by rewrite Z.min_l by lia.
  - rewrite Z.min_r by lia. unfold len in *. rewrite Nat2Z.id.
    by rewrite !take_ge by lia.
Qed.

(** C1 is not what the code does: with three unanswered questions and a
    batch of one, the composition still counts three. *)
Lemma top500_composition_not_of_batch :
  match fst (cmd_top500 1 (py "c1") 1
               (sample_world (sample_run 10001 3 (py "signals")) None)) with
  | Ok out =>
      tp_unanswered out = 3 /\ len (tp_questions out) = 1
      /\ tp_wrong out + tp_unanswered out + tp_reviewed out
         <> len (tp_questions out)
  | Raise _ => False
  end.
Proof. vm_compute. repeat split; discriminate. Qed.

(** C1, amended. The composition describes the curated set, not the
    batch: [unanswered] and [reviewed] count over the whole curated set
    (of size [total_selected]), [wrong] is the size of the wrong pool, and
    none of them depends on the requested count; when the wrong pool has
    at most 500 questions all of them are in the curated set and the
    three counts add up to [total_selected].  The batch is the first
    [min(count, total_selected)] questions of the curated set. *)
Theorem top500_composition_of_curated_set (w : World) (subject : Z)
    (raw vt : pystr) (qs : list Question) :
  assoc (lower (strip raw)) VTYPE_ALIAS = Some vt ->
  data_dir w !! corpus_file vt subject = Some qs ->
  exists curated w',
    curate (wrong_pool_of (wrong_ids_of w) qs)
      (unanswered_pool_of (wrong_ids_of w) (answered_ids_at w) qs)
      (correct_pool_of (wrong_ids_of w) (answered_ids_at w) qs) w
    = (Ok curated, w')
    /\ forall count, exists out,
         cmd_top500 subject raw count w = (Ok out, w')
         /\ tp_questions out
            = map format_question (prefix curated (Z.min count (len curated)))
         /\ tp_count out = Z.min count (len curated)
         /\ tp_total_selected out = len curated
         /\ tp_unanswered out
            = len (filter (fun q => (q_id q ∉ answered_ids_at w)
                                    /\ (q_id q ∉ wrong_ids_of w)) curated)
         /\ tp_reviewed out
            = len (filter (fun q => (q_id q ∈ answered_ids_at w)
                                    /\ (q_id q ∉ wrong_ids_of w)) curated)
         /\ tp_wrong out = len (wrong_pool_of (wrong_ids_of w) qs)
         /\ (len (wrong_pool_of (wrong_ids_of w) qs) <= target ->
             tp_wrong out
             = len (filter (fun q => q_id q ∈ wrong_ids_of w) curated)
             /\ tp_wrong out + tp_unanswered out + tp_reviewed out
                = tp_total_selected out).
Proof.
  intros Hvt Hqs.
  destruct (curate_spec (wrong_pool_of (wrong_ids_of w) qs)
              (unanswered_pool_of (wrong_ids_of w) (answered_ids_at w) qs)
              (correct_pool_of (wrong_ids_of w) (answered_ids_at w) qs) w)
    as (pu & pc & curated & w' & Hrun & _ & Hperm & Hpu & Hpc & _).
  exists curated, w'. split; [exact Hrun |]. intros count.
  eexists. split; [by apply (cmd_top500_eq w w' subject raw vt qs curated) |].
  cbn [tp_questions tp_count tp_total_selected tp_unanswered tp_reviewed tp_wrong].
  do 6 (split; [reflexivity |]).
  intros Hle.
  assert (Hw : len (wrong_pool_of (wrong_ids_of w) qs)
               = len (filter (fun q => q_id q ∈ wrong_ids_of w) curated)).
  { unfold len. f_equal. rewrite Hperm.
    rewrite prefix_take by (unfold target; lia).
    rewrite take_app_ge by (unfold len, target in *; lia).
    rewrite filter_app.
    rewrite filter_all, filter_none, app_nil_r; [done | |].
    - apply Forall_forall. intros q Hq.
      assert (Hin : q ∈ pu ++ pc).
      { eapply elem_of_submseteq; [exact Hq | apply submseteq_take]. }
      apply elem_of_app in Hin as [Hin | Hin].
      + apply (elem_of_submseteq _ _ _ Hin) in Hpu.
        apply list_elem_of_filter in Hpu. tauto.
      + apply (elem_of_submseteq _ _ _ Hin) in Hpc.
        apply list_elem_of_filter in Hpc. tauto.
    - apply Forall_forall. intros q Hq.
      by apply list_elem_of_filter in Hq as [? _]. }
  split; [exact Hw |].
  rewrite Hw. symmetry. apply three_way_split.
Qed.

Lemma top500_composition_of_curated_set_witness :
  exists out w',
    cmd_top500 1 (py "c1") 1
      (sample_world (sample_run 10001 3 (py "signals")) None)
    = (Ok out, w')
    /\ tp_total_selected out = 3.
Proof.
  destruct (top500_composition_of_curated_set
              (sample_world (sample_run 10001 3 (py "signals")) None)
              1 (py "c1") (py "c1") (sample_run 10001 3 (py "signals")))
    as (curated & w' & Hcur & Hall).
  - vm_compute. reflexivity.
  - apply lookup_singleton_eq.
  - destruct (Hall 1) as (out & Hrun & _ & _ & Htotal & _).
    exists out, w'. split; [exact Hrun |].
    rewrite Htotal. vm_compute in Hcur. injection Hcur as <- _. reflexivity.
Defined.

(** C2 is not what the code does: on the skewed corpus the curated set
    has 104 questions, not 500; a category gives at most its even share
    of 45 and nothing makes up for the small ones. *)
Lemma top500_skewed_corpus_falls_short :
  length skewed_corpus = 600%nat
  /\ length (wrong_pool_of
               (wrong_ids_of (sample_world skewed_corpus
                                (Some (with_wrong skewed_wrong))))
               skewed_corpus) = 50%nat
  /\ length (remove_dups
               (map q_category
                  (unanswered_pool_of
                     (wrong_ids_of (sample_world skewed_corpus
                                      (Some (with_wrong skewed_wrong))))
                     (answered_ids_at (sample_world skewed_corpus
                                         (Some (with_wrong skewed_wrong))))
                     skewed_corpus))) = 10%nat
  /\ match fst (cmd_top500 1 (py "c1") 5
                  (sample_world skewed_corpus (Some (with_wrong skewed_wrong)))) with
     | Ok out => tp_total_selected out = 104
     | Raise _ => False
     end.
Proof.
  split; [vm_compute; reflexivity |].
  split; [vm_compute; reflexivity |].
  split; [vm_compute; reflexivity |].
  vm_compute. reflexivity.
Qed.

(** The three pools share out the corpus. *)
Lemma pools_partition (wrong_ids answered_ids : gset Z) (qs : list Question) :
  len qs
  = len (wrong_pool_of wrong_ids qs)
    + len (unanswered_pool_of wrong_ids answered_ids qs)
    + len (correct_pool_of wrong_ids answered_ids qs).
Proof.
  unfold len, wrong_pool_of, unanswered_pool_of, correct_pool_of.
  induction qs as [|q qs IH]; [done |].
  rewrite !filter_cons.
  destruct (decide (q_id q ∈ wrong_ids)), (decide (q_id q ∈ answered_ids));
    repeat case_decide; cbn [length]; try lia; tauto.
Qed.

Lemma sum_of_Permutation (l k : list Z) : l ≡ₚ k -> sum_of l = sum_of k.
Proof. unfold sum_of. induction 1; cbn; lia. Qed.

(** A group holds the questions of its category, all of them. *)
Lemma groups_filter (c : pystr) (g : list Question)
    (by_cat : list (pystr * list Question)) :
  NoDup (map fst by_cat) -> Forall group_ok by_cat -> (c, g) ∈ by_cat ->
  filter (fun q => q_category q = c) (concat (map snd by_cat)) = g.
Proof.
  induction by_cat as [|[c0 g0] rest IH]; [by intros _ _ H%elem_of_nil |].
  cbn [map fst snd concat].
  intros [Hc0 Hnd]%NoDup_cons [Hok0 Hok]%Forall_cons Hin.
  destruct Hok0 as [_ Hcat0]. cbn [fst snd] in Hcat0.
  rewrite filter_app. apply elem_of_cons in Hin as [[= -> ->] | Hin].
  - rewrite (filter_group_all c0 g0 g0 Hcat0) by done.
    rewrite (filter_groups_none c0 rest _ Hok) by done.
    apply app_nil_r.
  - assert (Hne : c <> c0).
    { intros ->. apply Hc0. apply list_elem_of_fmap. by exists (c0, g). }
    rewrite (filter_group_none c c0 g0 g0 Hcat0) by done.
    by apply IH.
Qed.

Lemma group_size (pool : list Question) (c : pystr) (g : list Question) :
  (c, g) ∈ group_by_category pool ->
  len g = len (filter (fun q => q_category q = c) pool).
Proof.
  intros Hin. destruct (group_by_category_spec pool) as (Hp & _ & Hnd & Hok).
  unfold len. rewrite <- Hp, (groups_filter c g _ Hnd Hok Hin). done.
Qed.

(** What the groups give in all is the sum of what each category gives. *)
Lemma taken_by_category (per_cat : Z) (pool : list Question) :
  taken per_cat (group_by_category pool)
  = sum_of (map (fun c => Z.min per_cat
                            (len (filter (fun q => q_category q = c) pool)))
              (remove_dups (map q_category pool))).
Proof.
  destruct (group_by_category_spec pool) as (_ & Hk & Hn & _).
  assert (Hperm : map fst (group_by_category pool)
                  ≡ₚ remove_dups (map q_category pool)).
  { apply NoDup_Permutation; [done | apply NoDup_remove_dups |].
    intros c. rewrite Hk. by rewrite elem_of_remove_dups. }
  rewrite <- (sum_of_Permutation _ _ (fmap_Permutation _ _ _ Hperm)).
  rewrite <- list_fmap_compose.
  assert (Hgroups : forall l : list (pystr * list Question),
            (forall c g, (c, g) ∈ l -> (c, g) ∈ group_by_category pool) ->
            taken per_cat l
            = sum_of (map ((fun c => Z.min per_cat
                                       (len (filter
                                               (fun q => q_category q = c)
                                               pool))) ∘ fst) l)).
  { induction l as [|[c g] l IH]; intros Hl; [done |].
    cbn [taken foldr map]. fold (taken per_cat l). cbn [compose fst snd].
    unfold sum_of at 1. cbn [foldr]. fold (sum_of (map ((fun c => Z.min per_cat
                                       (len (filter
                                               (fun q => q_category q = c)
                                               pool))) ∘ fst) l)).
    rewrite <- IH by (intros c' g' H'; apply Hl; by right).
    rewrite <- (group_size pool c g) by (apply Hl; left). done. }
  by apply Hgroups.
Qed.

(** C2, amended. On a corpus of 600 questions of which 50 are currently
    wrong and whose never-attempted questions span 10 categories, each
    category gives [min(45, its number of never-attempted questions)]
    questions: that many never-attempted questions of the category are in
    the curated set, and [U], their sum over the categories, is the
    number of never-attempted questions in it.  The curated set has
    [50 + U + min(450 - U, number of questions answered and not wrong)]
    questions, which is at most 500 and is 500 exactly when the answered
    questions can fill what the categories left; it holds every wrong
    question of the corpus, at least one question of every category that
    has a never-attempted one, and only questions of the corpus, whose
    550 other questions are the never-attempted and the answered ones. *)
Theorem top500_curated_set (w : World) (subject : Z) (raw vt : pystr)
    (qs : list Question) :
  assoc (lower (strip raw)) VTYPE_ALIAS = Some vt ->
  data_dir w !! corpus_file vt subject = Some qs ->
  length qs = 600%nat ->
  length (wrong_pool_of (wrong_ids_of w) qs) = 50%nat ->
  length (remove_dups
            (map q_category
               (unanswered_pool_of (wrong_ids_of w) (answered_ids_at w) qs)))
  = 10%nat ->
  let up := unanswered_pool_of (wrong_ids_of w) (answered_ids_at w) qs in
  let cp := correct_pool_of (wrong_ids_of w) (answered_ids_at w) qs in
  let U := taken 45 (group_by_category up) in
  exists curated w',
    curate (wrong_pool_of (wrong_ids_of w) qs) up cp w = (Ok curated, w')
    /\ (forall count, exists out,
          cmd_top500 subject raw count w = (Ok out, w')
          /\ tp_total_selected out = len curated)
    /\ len curated = 50 + U + Z.min (450 - U) (len cp)
    /\ len curated <= 500
    /\ (len curated = 500 <-> 450 - U <= len cp)
    /\ (forall q, q ∈ qs -> q_id q ∈ wrong_ids_of w -> q ∈ curated)
    /\ (forall q, q ∈ up ->
          exists q', q' ∈ curated /\ q' ∈ up /\ q_category q' = q_category q)
    /\ (forall q, q ∈ curated -> q ∈ qs)
    /\ len up + len cp = 550
    /\ (forall c,
          len (filter (fun q => q_category q = c)
                 (unanswered_pool_of (wrong_ids_of w) (answered_ids_at w)
                    curated))
          = Z.min 45 (len (filter (fun q => q_category q = c) up)))
    /\ len (unanswered_pool_of (wrong_ids_of w) (answered_ids_at w) curated)
       = U
    /\ U = sum_of (map (fun c => Z.min 45
                                   (len (filter (fun q => q_category q = c)
                                           up)))
                  (remove_dups (map q_category up))).
Proof.
  intros Hvt Hqs Hsize Hwrong Hcats up cp U.
  destruct (curate_full (wrong_pool_of (wrong_ids_of w) qs) up cp w)
    as (pu & pc & curated & w' & Hrun & _ & Hperm & Hpu & Hpc & Hu & _ & Hc
        & Hshare).
  assert (Hlw : len (wrong_pool_of (wrong_ids_of w) qs) = 50)
    by (unfold len; rewrite Hwrong; reflexivity).
  assert (Hlg : len (group_by_category up) = 10)
    by (unfold len; rewrite group_count; fold up; unfold up; rewrite Hcats;
        reflexivity).
  rewrite Hlw, Hlg in Hu. unfold target in Hu, Hc, Hperm.
  destruct (Hu ltac:(lia)) as [Hlu Hhit]. clear Hu.
  change (Z.max 1 ((500 - 50) / 10)) with 45 in Hlu. fold U in Hlu.
  assert (Hshare45 : forall c g, (c, g) ∈ group_by_category up ->
            len (filter (fun q => q_category q = c) pu) = Z.min 45 (len g)).
  { intros c g Hg. rewrite Hlw, Hlg in Hshare. unfold target in Hshare.
    exact (Hshare ltac:(lia) c g Hg). }
  pose proof (taken_bound 45 (group_by_category up) ltac:(lia)) as HU.
  fold U in HU. rewrite Hlg in HU.
  rewrite Hlw, Hlu in Hc.
  assert (0 <= len cp) by (unfold len; lia).
  assert (Hlen : len (wrong_pool_of (wrong_ids_of w) qs ++ pu ++ pc)
                 = 50 + U + Z.min (450 - U) (len cp)).
  { unfold len in *. rewrite !length_app. lia. }
  assert (Hwhole : curated ≡ₚ wrong_pool_of (wrong_ids_of w) qs ++ pu ++ pc).
  { rewrite Hperm, prefix_take by lia. apply reflexive_eq, take_ge.
    unfold len in Hlen. lia. }
  assert (Hlc : len curated = 50 + U + Z.min (450 - U) (len cp)).
  { rewrite <- Hlen. unfold len. by rewrite Hwhole. }
  exists curated, w'. split; [exact Hrun |].
  assert (Hnever : unanswered_pool_of (wrong_ids_of w) (answered_ids_at w)
                      curated ≡ₚ pu).
  { unfold unanswered_pool_of at 1. rewrite Hwhole, !filter_app.
    rewrite (filter_none _ (wrong_pool_of (wrong_ids_of w) qs)).
    2:{ apply Forall_forall. intros q Hq [Hw _].
        by apply list_elem_of_filter in Hq as [? _]. }
    rewrite (filter_none _ pc).
    2:{ apply Forall_forall. intros q Hq [_ Ha].
        apply (elem_of_submseteq _ _ _ Hq) in Hpc.
        by apply list_elem_of_filter in Hpc as [[_ ?] _]. }
    rewrite app_nil_r. cbn [app]. apply reflexive_eq, filter_all.
    apply Forall_forall. intros q Hq.
    apply (elem_of_submseteq _ _ _ Hq) in Hpu.
    by apply list_elem_of_filter in Hpu as [? _]. }
  split; [| split; [| split; [| split; [| split; [| split; [| split;
    [| split; [| split; [| split]]]]]]]]].
  - intros count. eexists.
    split; [by apply (cmd_top500_eq w w' subject raw vt qs curated) |].
    reflexivity.
  - exact Hlc.
  - lia.
  - lia.
  - intros q Hq Hid. rewrite Hwhole. apply elem_of_app. left.
    by apply list_elem_of_filter.
  - intros q Hq.
    destruct (group_of_question up q Hq) as (g & Hg & Hqg).
    destruct (Hhit _ _ Hg) as (q' & Hq' & Hq'g).
    exists q'. split; [| split].
    + rewrite Hwhole. apply elem_of_app. right. apply elem_of_app. by left.
    + exact (elem_of_submseteq _ _ _ Hq' Hpu).
    + destruct (group_by_category_spec up) as (_ & _ & _ & Hok).
      rewrite Forall_forall in Hok. destruct (Hok _ Hg) as [_ Hcat].
      cbn [fst snd] in Hcat. rewrite Forall_forall in Hcat.
      by rewrite (Hcat q' Hq'g).
  - intros q Hq. rewrite Hwhole in Hq.
    apply elem_of_app in Hq as [Hq | Hq];
      [by apply list_elem_of_filter in Hq as [_ ?] |].
    apply elem_of_app in Hq as [Hq | Hq].
    + apply (elem_of_submseteq _ _ _ Hq) in Hpu.
      by apply list_elem_of_filter in Hpu as [_ ?].
    + apply (elem_of_submseteq _ _ _ Hq) in Hpc.
      by apply list_elem_of_filter in Hpc as [_ ?].
  - pose proof (pools_partition (wrong_ids_of w) (answered_ids_at w) qs) as Hp.
    fold up cp in Hp. rewrite Hlw in Hp. unfold len in Hp at 1.
    rewrite Hsize in Hp. lia.
  - intros c. unfold len at 1. rewrite Hnever.
    fold (len (filter (fun q => q_category q = c) pu)).
    destruct (group_by_category_spec up) as (_ & Hkeys & _ & Hok).
    destruct (decide (c ∈ map q_category up)) as [Hin | Hout].
    + apply Hkeys, list_elem_of_fmap in Hin as ([c' g] & -> & Hg).
      cbn [fst]. rewrite (Hshare45 _ _ Hg). by rewrite (group_size up c' g Hg).
    + assert (Hnone : forall l : list Question,
                l ⊆+ up -> filter (fun q => q_category q = c) l = []).
      { intros l Hl. apply filter_none, Forall_forall. intros q Hq Hc'.
        apply Hout. rewrite <- Hc'. apply list_elem_of_fmap. exists q.
        split; [done |]. by eapply elem_of_submseteq. }
      rewrite (Hnone pu Hpu), (Hnone up) by done. reflexivity.
  - unfold len at 1. rewrite Hnever. exact Hlu.
  - apply taken_by_category.
Qed.

Lemma top500_curated_set_witness :
  exists out w',
    cmd_top500 1 (py "c1") 5
      (sample_world even_corpus (Some (with_wrong even_wrong)))
    = (Ok out, w')
    /\ tp_total_selected out = 500.
Proof.
  destruct (top500_curated_set
              (sample_world even_corpus (Some (with_wrong even_wrong)))
              1 (py "c1") (py "c1") even_corpus)
    as (curated & w' & _ & Hall & Hlen & _).
  - vm_compute. reflexivity.
  - apply lookup_singleton_eq.
  - vm_compute. reflexivity.
  - vm_compute. reflexivity.
  - vm_compute. reflexivity.
  - destruct (Hall 5) as (out & Hrun & Htotal).
    exists out, w'. split; [exact Hrun |].
    rewrite Htotal, Hlen. vm_compute. reflexivity.
Defined.

(* ===================================================================== *)
(** * Further properties of the modelled code *)
(* ===================================================================== *)

(** ** Vehicle classes *)

Lemma assoc_alias_label (key vt : pystr) :
  assoc key VTYPE_ALIAS = Some vt -> vt ∈ VTYPE_LABELS.
Proof.
  unfold VTYPE_ALIAS, VTYPE_LABELS. cbn [assoc].
  repeat (destruct (eqb _ key);
          [intros [= <-]; apply list_elem_of_In; vm_compute; tauto |]).
  discriminate.
Qed.

(** X1. [resolve_vtype] either exits with the unsupported-class error or
    returns one of the four keys of [VTYPE_LABELS], and that key resolves
    to itself; the world is never touched. *)
Theorem resolve_vtype_canonical (raw : pystr) (w : World) :
  (exists vt,
     resolve_vtype raw w = (Ok vt, w) /\ vt ∈ VTYPE_LABELS
     /\ resolve_vtype vt w = (Ok vt, w))
  \/ resolve_vtype raw w = (Raise (SystemExit (UnsupportedVtype raw)), w).
Proof.
  unfold resolve_vtype at 1 3.
  destruct (assoc (lower (strip raw)) VTYPE_ALIAS) as [vt|] eqn:E;
    [left | by right].
  exists vt. split; [done |].
  pose proof (assoc_alias_label _ _ E) as Hin. split; [done |].
  apply resolve_vtype_ok.
  unfold VTYPE_LABELS in Hin. apply list_elem_of_In in Hin. cbn [In] in Hin.
  repeat (destruct Hin as [<- | Hin]; [vm_compute; reflexivity |]).
  destruct Hin.
Qed.

(** ** Looking a question up, both ways *)

Lemma first_with_id_None_inv (qid : Z) (questions : list Question) :
  first_with_id qid questions = None ->
  forall q, q ∈ questions -> q_id q <> qid.
Proof.
  induction questions as [|x rest IH]; cbn.
  - intros _ q Hq. by apply elem_of_nil in Hq.
  - destruct (q_id x =? qid) eqn:E; [discriminate |].
    intros H q Hq. apply elem_of_cons in Hq as [-> | Hq]; [lia | by apply IH].
Qed.

Lemma find_in_Some_file (dir : gmap pystr (list Question)) (qid : Z)
    (files : list pystr) (q : Question) :
  find_in dir qid files = Some q ->
  exists file qs, file ∈ files /\ dir !! file = Some qs /\ q ∈ qs.
Proof.
  induction files as [|f rest IH]; cbn; [discriminate |].
  destruct (dir !! f) as [qs|] eqn:Ef.
  - destruct (first_with_id qid qs) eqn:E.
    + intros [= <-]. apply first_with_id_Some in E as [Hin _].
      exists f, qs. split; [left | done].
    + intros H. destruct (IH H) as (file & qs' & ? & ? & ?).
      exists file, qs'. split; [by right | done].
  - intros H. destruct (IH H) as (file & qs' & ? & ? & ?).
    exists file, qs'. split; [by right | done].
Qed.

Lemma find_in_None_inv (dir : gmap pystr (list Question)) (qid : Z)
    (files : list pystr) :
  find_in dir qid files = None ->
  forall file qs q,
    file ∈ files -> dir !! file = Some qs -> q ∈ qs -> q_id q <> qid.
Proof.
  induction files as [|f rest IH]; cbn.
  - intros _ file qs q Hf. by apply elem_of_nil in Hf.
  - destruct (dir !! f) as [qs0|] eqn:Ef.
    + destruct (first_with_id qid qs0) eqn:E; [discriminate |].
      intros H file qs q Hf Hl Hq.
      apply elem_of_cons in Hf as [-> | Hf]; [| by eapply IH].
      rewrite Ef in Hl. injection Hl as <-.
      by eapply first_with_id_None_inv.
    + intros H file qs q Hf Hl Hq.
      apply elem_of_cons in Hf as [-> | Hf]; [congruence | by eapply IH].
Qed.

(** X2. [find_question_by_id] returns a question exactly when one of the
    eight known corpus files holds a question with that id; the question
    returned has the id and comes from such a file; the world is left as
    it was. *)
Theorem find_question_by_id_spec (w : World) (id : Z) :
  exists found,
    find_question_by_id id w = (Ok found, w)
    /\ match found with
       | Some q =>
           q_id q = id
           /\ exists file qs,
                file ∈ known_corpora /\ data_dir w !! file = Some qs /\ q ∈ qs
       | None =>
           forall file qs q,
             file ∈ known_corpora -> data_dir w !! file = Some qs ->
             q ∈ qs -> q_id q <> id
       end.
Proof.
  exists (find_in (data_dir w) id known_corpora). split; [reflexivity |].
  destruct (find_in (data_dir w) id known_corpora) as [q|] eqn:E.
  - split; [by eapply find_in_Some | by eapply find_in_Some_file].
  - by apply find_in_None_inv.
Qed.

(** ** Favorites: adding and removing *)

Lemma remove_last (x : Z) (l : list Z) : x ∉ l -> remove x (l ++ [x]) = l.
Proof.
  induction l as [|a l IH]; cbn; intros Hx.
  - by rewrite Z.eqb_refl.
  - apply not_elem_of_cons in Hx as [Hne Hx].
    destruct (x =? a) eqn:E; [lia |]. by rewrite IH.
Qed.

Lemma length_remove (x : Z) (l : list Z) :
  x ∈ l -> len (remove x l) = len l - 1.
Proof.
  unfold len. induction l as [|a l IH]; cbn [remove length]; intros Hx.
  - by apply elem_of_nil in Hx.
  - destruct (x =? a) eqn:E; [lia |].
    apply elem_of_cons in Hx as [-> | Hx]; [lia |].
    cbn [length]. specialize (IH Hx). destruct l; [by apply elem_of_nil in Hx |].
    cbn [length] in *. lia.
Qed.

(** X3. Favoriting a question that is in a corpus and not yet a favorite
    appends its id and saves; unfavoriting it next gives back exactly the
    favorites there were. *)
Theorem favorite_then_unfavorite (w : World) (id : Z) (q : Question) :
  find_in (data_dir w) id known_corpora = Some q ->
  id ∉ favorites_of w ->
  let w1 := snd (cmd_favorite id w) in
  let w2 := snd (cmd_unfavorite id w1) in
  fst (cmd_favorite id w) = Ok (Favorited id (len (favorites_of w) + 1))
  /\ favorites_of w1 = favorites_of w ++ [id]
  /\ fst (cmd_unfavorite id w1) = Ok (Unfavorited id (len (favorites_of w)))
  /\ favorites_of w2 = favorites_of w.
Proof.
  intros Hq Hnot. cbn zeta. rewrite cmd_favorite_eq, Hq.
  apply mem_false in Hnot as Hmem. rewrite Hmem. cbn [fst snd].
  set (w1 := saved _ w).
  assert (H1 : favorites_of w1 = favorites_of w ++ [id])
    by apply favorites_of_saved.
  split; [unfold len; rewrite length_app; cbn [length]; do 2 f_equal; lia |].
  split; [exact H1 |].
  rewrite cmd_unfavorite_eq, H1.
  assert (Hin : mem id (favorites_of w ++ [id]) = true).
  { apply mem_true, elem_of_app. right. by left. }
  rewrite Hin. cbn [fst snd]. rewrite remove_last by done.
  split; [done | apply favorites_of_saved].
Qed.

Lemma favorite_then_unfavorite_witness :
  favorites_of
    (snd (cmd_unfavorite 10003
            (snd (cmd_favorite 10003
                    (sample_world (sample_run 10001 12 (py "signals"))
                       (Some (with_favorites [10001; 10007])))))))
  = [10001; 10007].
Proof.
  refine (proj2 (proj2 (proj2
            (favorite_then_unfavorite
               (sample_world (sample_run 10001 12 (py "signals"))
                  (Some (with_favorites [10001; 10007])))
               10003 (sample_question 10003 (py "signals")) _ _)))).
  - vm_compute. reflexivity.
  - apply mem_false. vm_compute. reflexivity.
Defined.

(** X4. Unfavoriting an id that is among duplicate-free favorites removes
    it and nothing else, saves, and reports one favorite less. *)
Theorem unfavorite_present_removes (w : World) (id : Z) :
  NoDup (favorites_of w) ->
  id ∈ favorites_of w ->
  let w' := snd (cmd_unfavorite id w) in
  fst (cmd_unfavorite id w) = Ok (Unfavorited id (len (favorites_of w) - 1))
  /\ (id ∉ favorites_of w')
  /\ (forall x, x <> id -> x ∈ favorites_of w' <-> x ∈ favorites_of w)
  /\ NoDup (favorites_of w').
Proof.
  intros Hnd Hin. cbn zeta. rewrite cmd_unfavorite_eq.
  apply mem_true in Hin as Hmem. rewrite Hmem. cbn [fst snd].
  rewrite favorites_of_saved, length_remove by done.
  split; [done |]. split; [by apply remove_gone |].
  split; [intros x Hx; by apply remove_other | by apply remove_NoDup].
Qed.

Lemma unfavorite_present_removes_witness :
  favorites_of
    (snd (cmd_unfavorite 2 (sample_world [] (Some (with_favorites [1; 2; 3])))))
  = [1; 3]
  /\ 2 ∉ favorites_of
       (snd (cmd_unfavorite 2 (sample_world [] (Some (with_favorites [1; 2; 3]))))).
Proof.
  split; [vm_compute; reflexivity |].
  refine (proj1 (proj2 (unfavorite_present_removes
                          (sample_world [] (Some (with_favorites [1; 2; 3])))
                          2 _ _))).
  - replace (favorites_of (sample_world [] (Some (with_favorites [1; 2; 3]))))
      with [1; 2; 3] by (vm_compute; reflexivity).
    repeat (apply NoDup_cons; split;
            [rewrite ?elem_of_cons, elem_of_nil; lia |]).
    apply NoDup_nil_2.
  - apply mem_true. vm_compute. reflexivity.
Defined.

(** ** Checking an answer: what is recorded *)

Lemma bumped_category (cats : gmap pystr CatData) (cat : pystr) (qid : Z)
    (b : bool) :
  let cats1 :=
    match cats !! cat with
    | None => <[cat := mkCatData 0 0 []]> cats
    | Some _ => cats
    end in
  let cats2 := alter (bump_answered qid) cat cats1 in
  let cats' := if b then alter bump_correct cat cats2 else cats2 in
  cats' !! cat
  = Some (let old := get_or (cats !! cat) (mkCatData 0 0 []) in
          mkCatData (cat_answered old + 1)
            (cat_correct old + (if b then 1 else 0))
            (cat_answered_ids old ++ [qid]))
  /\ forall c, c <> cat -> cats' !! c = cats !! c.
Proof.
  cbn zeta. split.
  - destruct b; rewrite ?lookup_alter_eq;
      destruct (cats !! cat) as [old|] eqn:E;
      rewrite ?lookup_insert_eq, ?E; cbn; unfold bump_correct, bump_answered;
      cbn; do 2 f_equal; lia.
  - intros c Hc.
    destruct b; rewrite ?lookup_alter_ne by done;
      destruct (cats !! cat); by rewrite ?lookup_insert_ne by done.
Qed.

Lemma bumped_stats (stats : gmap pystr QStat) (key : pystr) (b : bool) :
  let stats1 :=
    match stats !! key with
    | None => <[key := mkQStat 0 0]> stats
    | Some _ => stats
    end in
  let stats2 :=
    alter (fun s => mkQStat (st_attempts s + 1) (st_correct s)) key stats1 in
  let stats' :=
    if b
    then alter (fun s => mkQStat (st_attempts s) (st_correct s + 1)) key stats2
    else stats2 in
  stats' !! key
  = Some (let old := get_or (stats !! key) (mkQStat 0 0) in
          mkQStat (st_attempts old + 1)
            (st_correct old + (if b then 1 else 0)))
  /\ forall k, k <> key -> stats' !! k = stats !! k.
Proof.
  cbn zeta. split.
  - destruct b; rewrite ?lookup_alter_eq;
      destruct (stats !! key) as [old|] eqn:E;
      rewrite ?lookup_insert_eq, ?E; cbn; do 2 f_equal; lia.
  - intros k Hk.
    destruct b; rewrite ?lookup_alter_ne by done;
      destruct (stats !! key); by rewrite ?lookup_insert_ne by done.
Qed.

Lemma record_answer_fields (q : Question) (b : bool) (p : Progress)
    (w : World) (r : Progress * gmap pystr QStat) (w' : World) :
  record_answer q b p w = (Ok r, w') ->
  exists a cats stats,
    total_answered p = Some a /\ categories p = Some cats
    /\ question_stats p = Some stats
    /\ total_answered r.1 = Some (a + 1)
    /\ (if b
        then exists c, total_correct p = Some c
                       /\ total_correct r.1 = Some (c + 1)
        else total_correct r.1 = total_correct p)
    /\ (exists cats',
          categories r.1 = Some cats'
          /\ cats' !! q_category q
             = Some (let old := get_or (cats !! q_category q)
                                  (mkCatData 0 0 []) in
                     mkCatData (cat_answered old + 1)
                       (cat_correct old + (if b then 1 else 0))
                       (cat_answered_ids old ++ [q_id q]))
          /\ forall c, c <> q_category q -> cats' !! c = cats !! c)
    /\ question_stats r.1 = Some r.2
    /\ r.2 !! str (q_id q)
       = Some (let old := get_or (stats !! str (q_id q)) (mkQStat 0 0) in
               mkQStat (st_attempts old + 1)
                 (st_correct old + (if b then 1 else 0)))
    /\ (forall k, k <> str (q_id q) -> r.2 !! k = stats !! k)
    /\ favorites r.1 = favorites p
    /\ sequential_pos r.1 = sequential_pos p
    /\ mock_exams r.1 = mock_exams p.
Proof.
  unfold record_answer, bind, getitem, ret, raise.
  destruct p as [[a|] tc cats wr fav sp qst me]; cbn; [| discriminate].
  destruct cats as [cats|]; cbn; [| discriminate].
  pose proof (bumped_category cats (q_category q) (q_id q) b) as [Hc1 Hc2].
  destruct b.
  - destruct tc as [tc|]; cbn; [| discriminate].
    destruct wr as [wr|]; cbn; [| discriminate].
    destruct (mem (q_id q) wr); cbn;
      (destruct qst as [qst|]; cbn; [| discriminate]);
      pose proof (bumped_stats qst (str (q_id q)) true) as [Hs1 Hs2];
      intros [= <- <-]; exists a, cats, qst; cbn;
      (repeat split; try done; eauto).
  - destruct wr as [wr|]; cbn; [| discriminate].
    destruct (mem (q_id q) wr); cbn;
      (destruct qst as [qst|]; cbn; [| discriminate]);
      pose proof (bumped_stats qst (str (q_id q)) false) as [Hs1 Hs2];
      intros [= <- <-]; exists a, cats, qst; cbn;
      (repeat split; try done; eauto).
Qed.

Lemma record_answer_world (q : Question) (b : bool) (p : Progress) (w : World) :
  snd (record_answer q b p w) = w.
Proof.
  unfold record_answer, bind, getitem, ret, raise.
  destruct p as [[a|] tc cats wr fav sp qst me]; cbn; [| done].
  destruct cats as [cats|]; cbn; [| done].
  destruct b.
  - destruct tc as [tc|]; cbn; [| done].
    destruct wr as [wr|]; cbn; [| done].
    destruct (mem (q_id q) wr); cbn; by destruct qst.
  - destruct wr as [wr|]; cbn; [| done].
    destruct (mem (q_id q) wr); cbn; by destruct qst.
Qed.

Lemma check_result_fields (q : Question) (b : bool) (answer : pystr)
    (stats : gmap pystr QStat) (qs : QStat) (w : World) :
  stats !! str (q_id q) = Some qs ->
  match fst (check_result q b answer stats w) with
  | Ok result =>
      cr_question_id result = q_id q /\ cr_correct result = b
      /\ cr_user_answer result = answer
      /\ cr_correct_answer result = q_answer q
      /\ cr_attempts result = st_attempts qs
  | Raise e => e = ZeroDivisionError \/ e = OverflowError
  end.
Proof.
  intros Hs. unfold check_result, bind, getitem, ret, raise, lift.
  rewrite Hs. cbn.
  destruct (0 <? st_attempts qs); cbn; [| done].
  unfold error_rate_of, truediv.
  destruct (st_attempts qs =? 0); cbn; [by left |].
  destruct (SFdiv prec emax (of_int (st_correct qs)) (of_int (st_attempts qs)));
    cbn; try done. by right.
Qed.

(** X5. A check that completes with a verdict saves a record in which
    [total_answered], the answered count of the question's category and
    the attempts of the question went up by one, the id was appended to
    the category's answered ids, and the three correct counters went up
    by one exactly when the verdict is correct; other categories, the
    statistics of other questions, the favorites, the cursors and the
    exam history are as before; the attempts printed are the new ones. *)
Theorem check_updates_counters (w : World) (id : Z) (answer : pystr) (b : bool) :
  verdict (fst (cmd_check id answer w)) = Some b ->
  exists q p a cats stats cats' stats' result,
    find_in (data_dir w) id known_corpora = Some q
    /\ cmd_check id answer w = (Ok (inr result), saved p w)
    /\ total_answered (loaded w) = Some a
    /\ total_answered p = Some (a + 1)
    /\ (if b
        then exists c, total_correct (loaded w) = Some c
                       /\ total_correct p = Some (c + 1)
        else total_correct p = total_correct (loaded w))
    /\ categories (loaded w) = Some cats /\ categories p = Some cats'
    /\ cats' !! q_category q
       = Some (let old := get_or (cats !! q_category q) (mkCatData 0 0 []) in
               mkCatData (cat_answered old + 1)
                 (cat_correct old + (if b then 1 else 0))
                 (cat_answered_ids old ++ [id]))
    /\ (forall c, c <> q_category q -> cats' !! c = cats !! c)
    /\ question_stats (loaded w) = Some stats /\ question_stats p = Some stats'
    /\ stats' !! str id
       = Some (let old := get_or (stats !! str id) (mkQStat 0 0) in
               mkQStat (st_attempts old + 1)
                 (st_correct old + (if b then 1 else 0)))
    /\ (forall k, k <> str id -> stats' !! k = stats !! k)
    /\ favorites p = favorites (loaded w)
    /\ sequential_pos p = sequential_pos (loaded w)
    /\ mock_exams p = mock_exams (loaded w)
    /\ cr_attempts result
       = st_attempts (get_or (stats !! str id) (mkQStat 0 0)) + 1.
Proof.
  rewrite cmd_check_eq.
  destruct (find_in (data_dir w) id known_corpora) as [q|] eqn:Hq;
    [| discriminate].
  pose proof (find_in_Some _ _ _ _ Hq) as Hid.
  destruct (record_answer q (is_correct_answer q answer) (loaded w) w)
    as [[r|e] w1] eqn:Hr; [| discriminate].
  pose proof (record_answer_world q (is_correct_answer q answer) (loaded w) w)
    as Hw1. rewrite Hr in Hw1. cbn [snd] in Hw1. subst w1.
  apply record_answer_fields in Hr
    as (a & cats & stats & Ha & Hcats & Hstats & Ha' & Hc & (cats' & Hc1 & Hc2 & Hc3)
        & Hs0 & Hs1 & Hs2 & Hf & Hsp & Hme).
  pose proof (check_result_world q (is_correct_answer q answer) answer
                (snd r) (saved (fst r) w)) as Hworld.
  pose proof (check_result_correct q (is_correct_answer q answer) answer
                (snd r) (saved (fst r) w)) as Hcorrect.
  pose proof (check_result_fields q (is_correct_answer q answer) answer
                (snd r) _ (saved (fst r) w) Hs1) as Hfields.
  destruct (check_result q (is_correct_answer q answer) answer (snd r)
              (saved (fst r) w)) as [[res|e] w2]; cbn [fst snd] in *;
    [| discriminate].
  cbn [verdict]. intros [= Hb]. subst w2.
  rewrite (Hcorrect res eq_refl) in Hb. rewrite Hb, Hid in *.
  destruct Hfields as (_ & _ & _ & _ & Hatt).
  exists q, (fst r), a, cats, stats, cats', (snd r), res.
  repeat (split; [done |]). exact Hatt.
Qed.


(** X6. Whatever [cmd_check] does, it leaves the corpora, the random
    generator and the clock alone; and when it stops on a missing key the
    progress file is not rewritten either. *)
Theorem check_failure_leaves_file (w : World) (id : Z) (answer : pystr) :
  same_files_but_progress w (snd (cmd_check id answer w))
  /\ forall key,
       fst (cmd_check id answer w) = Raise (KeyError key) ->
       snd (cmd_check id answer w) = w.
Proof.
  rewrite cmd_check_eq.
  destruct (find_in (data_dir w) id known_corpora) as [q|] eqn:Hq;
    [| split; [by repeat split | done]].
  destruct (record_answer q (is_correct_answer q answer) (loaded w) w)
    as [[r|e] w1] eqn:Hr.
  - pose proof (record_answer_world q (is_correct_answer q answer) (loaded w) w)
      as Hw1. rewrite Hr in Hw1. cbn [snd] in Hw1. subst w1.
    apply record_answer_fields in Hr
      as (a & cats & stats & _ & _ & _ & _ & _ & _ & _ & Hs1 & _).
    pose proof (check_result_world q (is_correct_answer q answer) answer
                  (snd r) (saved (fst r) w)) as Hworld.
    pose proof (check_result_fields q (is_correct_answer q answer) answer
                  (snd r) _ (saved (fst r) w) Hs1) as Hfields.
    destruct (check_result q (is_correct_answer q answer) answer (snd r)
                (saved (fst r) w)) as [[res|e] w2]; cbn [fst snd] in *;
      subst w2.
    + split; [by repeat split | discriminate].
    + split; [by repeat split |].
      intros key [= ->]. by destruct Hfields.
  - pose proof (record_answer_world q (is_correct_answer q answer) (loaded w) w)
      as Hw1. rewrite Hr in Hw1. cbn [snd] in Hw1. subst w1.
    split; [by repeat split | done].
Qed.

(** ** Recording a mock exam *)

Lemma mock_exams_saved (exams : list ExamRecord) (p : Progress) (w : World) :
  mock_exams (loaded (saved (set_mock_exams exams p) w)) = Some exams.
Proof.
  rewrite loaded_eq. cbn [saved progress_file get_or].
  by destruct p as [? ? ? ? [?|] [?|] [?|] ?].
Qed.

(** X7. With a recognised vehicle class and an exam history in the
    record, [cmd_record_exam] appends one entry (dated by the clock,
    passed exactly when the score is at least 90) after the entries that
    were there and changes no other field; a second recording appends
    after the first.  With an unrecognised class it exits, and with no
    exam history it stops on the missing key, without rewriting the
    file. *)
Theorem record_exam_appends (w : World) (subject : Z) (raw : pystr)
    (score total : Z) :
  match assoc (lower (strip raw)) VTYPE_ALIAS, mock_exams (loaded w) with
  | Some vt, Some exams =>
      let entry :=
        mkExamRecord (clock w) vt subject score total (90 <=? score) in
      let w' := saved (set_mock_exams (exams ++ [entry]) (loaded w)) w in
      cmd_record_exam subject raw score total w = (Ok (90 <=? score), w')
      /\ mock_exams (loaded w') = Some (exams ++ [entry])
      /\ favorites_of w' = favorites_of w /\ wrong_of w' = wrong_of w
      /\ (forall key, cursor_of w' key = cursor_of w key)
      /\ forall score2 total2,
           mock_exams
             (loaded (snd (cmd_record_exam subject raw score2 total2 w')))
           = Some (exams ++ [entry;
                             mkExamRecord (clock w) vt subject score2 total2
                               (90 <=? score2)])
  | Some vt, None =>
      cmd_record_exam subject raw score total w
      = (Raise (KeyError "mock_exams"), w)
  | None, _ =>
      cmd_record_exam subject raw score total w
      = (Raise (SystemExit (UnsupportedVtype raw)), w)
  end.
Proof.
  destruct (assoc (lower (strip raw)) VTYPE_ALIAS) as [vt|] eqn:Hvt.
  - assert (Hrun : forall w0 s t,
               cmd_record_exam subject raw s t w0
               = match mock_exams (loaded w0) with
                 | Some exams =>
                     (Ok (90 <=? s),
                      saved (set_mock_exams
                               (exams ++ [mkExamRecord (clock w0) vt subject s t
                                            (90 <=? s)]) (loaded w0)) w0)
                 | None => (Raise (KeyError "mock_exams"), w0)
                 end).
    { intros w0 s t. unfold cmd_record_exam, bind.
      rewrite (resolve_vtype_ok _ _ _ Hvt), load_progress_eq, <- loaded_eq.
      by destruct (mock_exams (loaded w0)). }
    destruct (mock_exams (loaded w)) as [exams|] eqn:He.
    + cbn zeta. split; [by rewrite Hrun, He |].
      split; [apply mock_exams_saved |].
      assert (Hl : loaded (saved (set_mock_exams
                                    (exams ++ [mkExamRecord (clock w) vt subject
                                                 score total (90 <=? score)])
                                    (loaded w)) w)
                   = set_mock_exams
                       (exams ++ [mkExamRecord (clock w) vt subject score total
                                    (90 <=? score)]) (loaded w)).
      { rewrite (loaded_eq (saved _ _)). cbn [saved progress_file get_or].
        rewrite (loaded_eq w).
        by destruct (get_or (progress_file w) _default_progress)
          as [? ? ? ? [?|] [?|] [?|] ?]. }
      split; [unfold favorites_of; by rewrite Hl |].
      split; [unfold wrong_of; by rewrite Hl |].
      split; [intros key; unfold cursor_of; by rewrite Hl |].
      intros score2 total2. rewrite Hrun, mock_exams_saved. cbn [snd].
      rewrite mock_exams_saved. by rewrite <- (assoc_L (++)).
    + by rewrite Hrun, He.
  - destruct (mock_exams (loaded w));
      unfold cmd_record_exam, bind, resolve_vtype; by rewrite Hvt.
Qed.

(** ** Sequential practice: the cursor *)

Lemma cmd_sequential_world (w : World) (subject : Z) (raw vt : pystr)
    (count : Z) (qs : list Question) :
  assoc (lower (strip raw)) VTYPE_ALIAS = Some vt ->
  data_dir w !! corpus_file vt subject = Some qs ->
  let key := pos_key_of vt subject in
  snd (cmd_sequential subject raw count false w)
  = if len qs <=? cursor_of w key then w
    else saved (set_sequential_pos
                  (<[key := Z.min (cursor_of w key + count) (len qs)]>
                     (get_or (sequential_pos (loaded w)) ∅))
                  (loaded w)) w.
Proof.
  intros Hvt Hqs key. unfold cmd_sequential, bind.
  rewrite (resolve_vtype_ok _ _ _ Hvt), (load_questions_ok _ _ _ _ Hqs).
  rewrite load_progress_eq, <- loaded_eq.
  rewrite sequential_pos_loaded. cbn [getitem ret].
  fold key. fold (cursor_of w key).
  destruct (len qs <=? cursor_of w key); [done |].
  unfold save_progress, lift.
  by destruct (truediv _ (len qs)).
Qed.

Lemma cursor_of_saved_other (key k : pystr) (e : Z) (w : World) :
  k <> key ->
  cursor_of (saved (set_sequential_pos
                      (<[key := e]> (get_or (sequential_pos (loaded w)) ∅))
                      (loaded w)) w) k
  = cursor_of w k.
Proof.
  intros Hne. unfold cursor_of at 1. rewrite loaded_eq.
  cbn [saved progress_file get_or].
  rewrite ensure_fields_sequential_pos.
  cbn [set_sequential_pos sequential_pos get_or].
  by rewrite lookup_insert_ne.
Qed.

(** X8. A sequential call that is not a reset moves the cursor of its
    scope to [min(cursor + count, total)] when the cursor is before the
    end of the corpus and leaves it where it was otherwise, whether or
    not the output could be printed; so the cursor never passes the end
    of the corpus unless it already had, never moves back when [count] is
    not negative, and the cursors of the other scopes stay put. *)
Theorem sequential_cursor_moves (w : World) (subject : Z) (raw vt : pystr)
    (count : Z) (qs : list Question) :
  assoc (lower (strip raw)) VTYPE_ALIAS = Some vt ->
  data_dir w !! corpus_file vt subject = Some qs ->
  let key := pos_key_of vt subject in
  let w' := snd (cmd_sequential subject raw count false w) in
  cursor_of w' key
  = (if len qs <=? cursor_of w key then cursor_of w key
     else Z.min (cursor_of w key + count) (len qs))
  /\ cursor_of w' key <= Z.max (cursor_of w key) (len qs)
  /\ (0 <= count -> cursor_of w key <= cursor_of w' key)
  /\ (forall k, k <> key -> cursor_of w' k = cursor_of w k)
  /\ favorites_of w' = favorites_of w /\ wrong_of w' = wrong_of w.
Proof.
  intros Hvt Hqs key w'. unfold w'.
  rewrite (cmd_sequential_world w subject raw vt count qs Hvt Hqs). fold key.
  destruct (len qs <=? cursor_of w key) eqn:E.
  - repeat split; try done; lia.
  - apply Z.leb_gt in E. rewrite cursor_of_saved.
    split; [done |]. split; [lia |]. split; [lia |].
    split; [intros k Hk; by apply cursor_of_saved_other |].
    unfold favorites_of, wrong_of.
    rewrite (loaded_eq (saved _ _)). cbn [saved progress_file get_or].
    rewrite (loaded_eq w).
    by destruct (get_or (progress_file w) _default_progress)
      as [? ? ? ? [?|] [?|] [?|] ?].
Qed.

Lemma sequential_cursor_moves_witness :
  cursor_of
    (snd (cmd_sequential 1 (py "C2") 50 false
            (sample_world (sample_run 10001 12 (py "signals")) None)))
    (pos_key_of (py "c1") 1)
  = 12.
Proof.
  refine (proj1 (sequential_cursor_moves
                   (sample_world (sample_run 10001 12 (py "signals")) None)
                   1 (py "C2") (py "c1") 50
                   (sample_run 10001 12 (py "signals")) _ _)).
  - vm_compute. reflexivity.
  - apply lookup_singleton_eq.
Defined.

(** X9. A reset puts the cursor of its scope back to 0 whatever it was
    and whatever [count] is, reports the size of the corpus, and leaves
    the cursors of the other scopes, the favorites and the wrong
    questions as they were; the next call then starts from the first
    question. *)
Theorem sequential_reset_restarts (w : World) (subject : Z) (raw vt : pystr)
    (count : Z) (qs : list Question) :
  assoc (lower (strip raw)) VTYPE_ALIAS = Some vt ->
  data_dir w !! corpus_file vt subject = Some qs ->
  let key := pos_key_of vt subject in
  exists w',
    cmd_sequential subject raw count true w = (Ok (SeqReset key 0 (len qs)), w')
    /\ cursor_of w' key = 0
    /\ (forall k, k <> key -> cursor_of w' k = cursor_of w k)
    /\ favorites_of w' = favorites_of w /\ wrong_of w' = wrong_of w
    /\ forall n ratio,
         0 < len qs -> truediv (Z.min n (len qs)) (len qs) = Ok ratio ->
         exists b w'',
           cmd_sequential subject raw n false w' = (Ok (SeqBatch b), w'')
           /\ sq_position b = 1
           /\ sq_questions b = map format_question (slice qs 0 (Z.min n (len qs))).
Proof.
  intros Hvt Hqs key.
  eexists. split.
  { unfold cmd_sequential, bind.
    rewrite (resolve_vtype_ok _ _ _ Hvt), (load_questions_ok _ _ _ _ Hqs).
    rewrite load_progress_eq, <- loaded_eq.
    rewrite sequential_pos_loaded. cbn [getitem ret].
    unfold save_progress. fold key. reflexivity. }
  fold (saved (set_sequential_pos
                 (<[key := 0]> (get_or (sequential_pos (loaded w)) ∅))
                 (loaded w)) w).
  split; [apply cursor_of_saved |].
  split; [intros k Hk; by apply cursor_of_saved_other |].
  split; [| split].
  - unfold favorites_of. rewrite (loaded_eq (saved _ _)).
    cbn [saved progress_file get_or]. rewrite (loaded_eq w).
    by destruct (get_or (progress_file w) _default_progress)
      as [? ? ? ? [?|] [?|] [?|] ?].
  - unfold wrong_of. rewrite (loaded_eq (saved _ _)).
    cbn [saved progress_file get_or]. rewrite (loaded_eq w).
    by destruct (get_or (progress_file w) _default_progress)
      as [? ? ? ? [?|] [?|] [?|] ?].
  - intros n ratio Hpos Hratio.
    set (w1 := saved _ w).
    assert (Hc : cursor_of w1 key = 0) by apply cursor_of_saved.
    pose proof (cmd_sequential_batch w1 subject raw vt n qs ratio Hvt Hqs) as H.
    cbn zeta in H. fold key in H. rewrite Hc in H.
    rewrite Z.add_0_l in H. specialize (H Hpos Hratio).
    eexists _, _. split; [exact H |]. by split.
Qed.

Lemma sequential_reset_restarts_witness :
  exists w',
    cmd_sequential 1 (py "c1") 5 true
      (sample_world (sample_run 10001 12 (py "signals")) None)
    = (Ok (SeqReset (pos_key_of (py "c1") 1) 0 12), w')
    /\ cursor_of w' (pos_key_of (py "c1") 1) = 0.
Proof.
  destruct (sequential_reset_restarts
              (sample_world (sample_run 10001 12 (py "signals")) None)
              1 (py "c1") (py "c1") 5 (sample_run 10001 12 (py "signals")))
    as (w' & Hrun & Hc & _).
  - vm_compute. reflexivity.
  - apply lookup_singleton_eq.
  - exists w'. by split.
Defined.

(** ** Ranking by error rate: reading only *)

Lemma score_questions_none (q_stats : gmap pystr QStat) (qs : list Question) :
  (forall q, q ∈ qs -> attempted q_stats q = false) ->
  score_questions q_stats qs = Ok [].
Proof.
  induction qs as [|q qs IH]; intros H; cbn [score_questions]; [done |].
  assert (Hq : attempted q_stats q = false) by (apply H; left).
  unfold attempted in Hq.
  destruct (q_stats !! str (q_id q)) as [stats|].
  - rewrite Hq. apply IH. intros q' Hq'. apply H. by right.
  - apply IH. intros q' Hq'. apply H. by right.
Qed.

(** X10. [cmd_hard] never changes the world, whatever it prints or
    raises; and when no question of the corpus has a recorded attempt it
    prints the no-statistics message instead of a list. *)
Theorem hard_reads_only (w : World) (subject : Z) (raw : pystr) (count : Z) :
  snd (cmd_hard subject raw count w) = w
  /\ forall vt qs,
       assoc (lower (strip raw)) VTYPE_ALIAS = Some vt ->
       data_dir w !! corpus_file vt subject = Some qs ->
       (forall q, q ∈ qs ->
          attempted (get_or (question_stats (loaded w)) ∅) q = false) ->
       fst (cmd_hard subject raw count w) = Ok HardNoStats.
Proof.
  split.
  - unfold cmd_hard, bind, resolve_vtype, load_questions.
    destruct (assoc (lower (strip raw)) VTYPE_ALIAS) as [vt|]; [| done].
    cbn [ret].
    destruct (data_dir w !! corpus_file vt subject) as [qs|]; [| done].
    rewrite load_progress_eq, <- loaded_eq. unfold lift.
    destruct (score_questions _ qs) as [[|x l]|]; done.
  - intros vt qs Hvt Hqs Hnone. unfold cmd_hard, bind.
    rewrite (resolve_vtype_ok _ _ _ Hvt), (load_questions_ok _ _ _ _ Hqs).
    rewrite load_progress_eq, <- loaded_eq. unfold lift.
    by rewrite score_questions_none.
Qed.

(** ** The curated 500 on any corpus *)

Lemma pools_permutation (wrong_ids answered_ids : gset Z) (qs : list Question) :
  wrong_pool_of wrong_ids qs
  ++ unanswered_pool_of wrong_ids answered_ids qs
  ++ correct_pool_of wrong_ids answered_ids qs ≡ₚ qs.
Proof.
  unfold wrong_pool_of, unanswered_pool_of, correct_pool_of.
  induction qs as [|q qs IH]; [done |].
  rewrite !filter_cons.
  destruct (decide (q_id q ∈ wrong_ids)), (decide (q_id q ∈ answered_ids));
    repeat case_decide; try tauto; cbn [app].
  - by rewrite IH.
  - by rewrite IH.
  - rewrite <- !Permutation_middle. by rewrite IH.
  - rewrite <- Permutation_middle. by rewrite IH.
Qed.

Lemma prefix_is_take {A} (l : list A) (j : Z) :
  prefix l j = take (Z.to_nat (clamp (len l) j)) l.
Proof.
  unfold prefix, slice.
  assert (H0 : clamp (len l) 0 = 0).
  { unfold clamp. cbn [Z.ltb Z.compare]. unfold len. lia. }
  by rewrite H0, Z.sub_0_r, drop_0.
Qed.

Lemma submseteq_NoDup' {A} (l k : list A) : l ⊆+ k -> NoDup k -> NoDup l.
Proof.
  intros Hsub Hk. apply submseteq_Permutation in Hsub as [k' Hk'].
  rewrite Hk' in Hk. by apply NoDup_app in Hk as [? _].
Qed.

(** The curated set is drawn from the corpus, each question at most as
    often as the corpus holds it. *)
Lemma curated_from_corpus (wrong_ids answered_ids : gset Z)
    (qs : list Question) (w : World) (curated : list Question) (w' : World) :
  curate (wrong_pool_of wrong_ids qs)
    (unanswered_pool_of wrong_ids answered_ids qs)
    (correct_pool_of wrong_ids answered_ids qs) w = (Ok curated, w') ->
  same_files w w' /\ curated ⊆+ qs /\ len curated <= target
  /\ (target <= len (wrong_pool_of wrong_ids qs) ->
      len curated = target /\ curated ⊆+ wrong_pool_of wrong_ids qs).
Proof.
  intros Hrun.
  destruct (curate_spec (wrong_pool_of wrong_ids qs)
              (unanswered_pool_of wrong_ids answered_ids qs)
              (correct_pool_of wrong_ids answered_ids qs) w)
    as (pu & pc & curated0 & w0 & Hrun0 & Hw & Hperm & Hpu & Hpc & _ & Hfull & Hlc).
  rewrite Hrun in Hrun0. injection Hrun0 as <- <-.
  split; [done |].
  rewrite prefix_take in Hperm by (unfold target; lia).
  split; [| split].
  - rewrite Hperm. etrans; [apply submseteq_take |].
    etrans; [| apply Permutation_submseteq,
                 (pools_permutation wrong_ids answered_ids qs)].
    apply submseteq_app; [done |]. by apply submseteq_app.
  - unfold len. rewrite Hperm, length_take. unfold target. lia.
  - intros Hbig. specialize (Hfull ltac:(lia)). subst pu.
    assert (pc = []) as ->.
    { destruct pc; [done |]. unfold len in Hlc. cbn [length] in Hlc.
      unfold len in Hbig. lia. }
    rewrite !app_nil_r in Hperm. split.
    + unfold len in *. rewrite Hperm, length_take. unfold target in *. lia.
    + rewrite Hperm. apply submseteq_take.
Qed.

(** X11. On every corpus and record [cmd_top500] prints a result and
    touches neither the files nor the clock.  The curated set has at
    most 500 questions and no more than the corpus; for a non-negative
    count the batch has [min(count, total_selected)] questions; the batch
    is drawn from the corpus, so with distinct ids in the corpus no id
    comes twice; and when 500 or more questions are currently wrong the
    curated set is 500 of them. *)
Theorem top500_always_bounded (w : World) (subject : Z) (raw vt : pystr)
    (qs : list Question) (count : Z) :
  assoc (lower (strip raw)) VTYPE_ALIAS = Some vt ->
  data_dir w !! corpus_file vt subject = Some qs ->
  exists out w' batch,
    cmd_top500 subject raw count w = (Ok out, w') /\ same_files w w'
    /\ 0 <= tp_total_selected out <= 500
    /\ tp_total_selected out <= len qs
    /\ (0 <= count ->
        tp_count out = Z.min count (tp_total_selected out)
        /\ len (tp_questions out) = tp_count out)
    /\ tp_questions out = map format_question batch /\ batch ⊆+ qs
    /\ (NoDup (map q_id qs) -> NoDup (map f_id (tp_questions out)))
    /\ (500 <= len (wrong_pool_of (wrong_ids_of w) qs) ->
        tp_total_selected out = 500
        /\ forall q, q ∈ batch -> q_id q ∈ wrong_ids_of w).
Proof.
  intros Hvt Hqs.
  destruct (curate_spec (wrong_pool_of (wrong_ids_of w) qs)
              (unanswered_pool_of (wrong_ids_of w) (answered_ids_at w) qs)
              (correct_pool_of (wrong_ids_of w) (answered_ids_at w) qs) w)
    as (pu & pc & curated & w' & Hrun & _).
  destruct (curated_from_corpus _ _ _ _ _ _ Hrun) as (Hw & Hsub & Hle & Hbig).
  eexists _, w', (prefix curated (Z.min count (len curated))).
  split; [by apply (cmd_top500_eq w w' subject raw vt qs curated) |].
  cbn [tp_total_selected tp_count tp_questions].
  assert (Hbatch : prefix curated (Z.min count (len curated)) ⊆+ curated).
  { rewrite prefix_is_take. apply submseteq_take. }
  split; [done |]. split; [unfold target in Hle; unfold len in *; lia |].
  split; [unfold len; apply Nat2Z.inj_le; by apply submseteq_length |].
  split.
  { intros Hc. split; [done |]. unfold len.
    rewrite length_map, prefix_take by (unfold len; lia).
    rewrite length_take. unfold len. lia. }
  split; [done |]. split; [by etrans |]. split.
  - intros Hnd. rewrite <- list_fmap_compose.
    apply (submseteq_NoDup' _ (map q_id qs)); [| done].
    change (map (f_id ∘ format_question)) with (map q_id).
    apply fmap_submseteq. by etrans.
  - intros H500. destruct (Hbig H500) as [Hlen Hwrong].
    split; [exact Hlen |].
    intros q Hq.
    assert (Hin : q ∈ wrong_pool_of (wrong_ids_of w) qs).
    { eapply elem_of_submseteq; [exact Hq |]. by etrans. }
    by apply list_elem_of_filter in Hin as [? _].
Qed.

Lemma top500_always_bounded_witness :
  exists out w',
    cmd_top500 1 (py "c1") 7
      (sample_world even_corpus (Some (with_wrong even_wrong)))
    = (Ok out, w')
    /\ len (tp_questions out) = 7.
Proof.
  destruct (top500_always_bounded
              (sample_world even_corpus (Some (with_wrong even_wrong)))
              1 (py "c1") (py "c1") even_corpus 7)
    as (out & w' & batch & Hrun & _ & _ & _ & Hcount & _).
  - vm_compute. reflexivity.
  - apply lookup_singleton_eq.
  - exists out, w'. split; [exact Hrun |].
    destruct (Hcount ltac:(lia)) as [Hc ->]. rewrite Hc.
    assert (Ht : match fst (cmd_top500 1 (py "c1") 7
                              (sample_world even_corpus
                                 (Some (with_wrong even_wrong)))) with
                 | Ok o => tp_total_selected o = 500
                 | Raise _ => False
                 end) by (vm_compute; reflexivity).
    rewrite Hrun in Ht. cbn [fst] in Ht. rewrite Ht. reflexivity.
Defined.

(** ** Random practice *)

Lemma cmd_random_eq (w : World) (subject : Z) (raw vt : pystr) (count : Z)
    (category : option pystr) (exclude_done : bool) (qs : list Question) :
  assoc (lower (strip raw)) VTYPE_ALIAS = Some vt ->
  data_dir w !! corpus_file vt subject = Some qs ->
  cmd_random subject raw count category exclude_done w =
    match given_category category, of_category category qs with
    | Some cat, [] => (Ok (RandomUnknownCategory cat), w)
    | _, _ =>
        let pool := not_done w exclude_done (of_category category qs) in
        match random_sample pool (Z.min count (len pool)) w with
        | (Ok selected, w') =>
            (Ok (RandomQuestions
                   (mkRandomBatch vt subject category (len pool)
                      (Z.min count (len pool))
                      (map format_question selected))), w')
        | (Raise e, w') => (Raise e, w')
        end
    end.
Proof.
  intros Hvt Hqs. unfold cmd_random, bind at 1.
  rewrite (resolve_vtype_ok _ _ _ Hvt). unfold bind at 1.
  rewrite (load_questions_ok _ _ _ _ Hqs). cbv zeta.
  unfold of_category, not_done, answered_ids_at.
  assert (Hsample : forall pool : list Question,
    (selected <- random_sample pool (Z.min count (len pool)) ;;
     ret (RandomQuestions
            (mkRandomBatch vt subject category (len pool)
               (Z.min count (len pool)) (map format_question selected)))) w
    = match random_sample pool (Z.min count (len pool)) w with
      | (Ok selected, w') =>
          (Ok (RandomQuestions
                 (mkRandomBatch vt subject category (len pool)
                    (Z.min count (len pool))
                    (map format_question selected))), w')
      | (Raise e, w') => (Raise e, w')
      end).
  { intros pool. unfold bind.
    by destruct (random_sample pool (Z.min count (len pool)) w) as [[?|?] ?]. }
  assert (Hrun : forall l : list Question,
    (questions <-
       (if exclude_done then
          progress <- load_progress ;;
          let progress := ensure_fields progress in
          let done_ids := answered_ids_of (get_or (categories progress) ∅) in
          ret (filter (fun q => q_id q ∉ done_ids) l)
        else ret l) ;;
     let count := Z.min count (len questions) in
     selected <- random_sample questions count ;;
     ret (RandomQuestions
            (mkRandomBatch vt subject category (len questions) count
               (map format_question selected)))) w
    = let pool := if exclude_done
                  then filter (fun q => q_id q ∉
                         answered_ids_of (get_or (categories (loaded w)) ∅)) l
                  else l in
      match random_sample pool (Z.min count (len pool)) w with
      | (Ok selected, w') =>
          (Ok (RandomQuestions
                 (mkRandomBatch vt subject category (len pool)
                    (Z.min count (len pool))
                    (map format_question selected))), w')
      | (Raise e, w') => (Raise e, w')
      end).
  { intros l. cbv zeta. destruct exclude_done.
    - unfold bind at 1. unfold bind at 1. rewrite load_progress_eq.
      rewrite <- loaded_eq. cbv beta iota zeta. unfold ret at 1.
      cbv beta iota. apply Hsample.
    - unfold bind at 1. unfold ret at 1. cbv beta iota. apply Hsample. }
  destruct (given_category category) as [cat|].
  - destruct (filter (fun q => q_category q = cat) qs) as [|q l]; [done |].
    apply Hrun.
  - destruct qs; apply Hrun.
Qed.

Lemma of_category_spec (category : option pystr) (qs : list Question)
    (q : Question) :
  q ∈ of_category category qs <->
  q ∈ qs /\ (forall cat, given_category category = Some cat -> q_category q = cat).
Proof.
  unfold of_category. destruct (given_category category) as [cat|].
  - rewrite list_elem_of_filter. split.
    + intros [Hc Hq]. split; [done |]. by intros ? [= <-].
    + intros [Hq Hc]. split; [by apply Hc | done].
  - split; [intros Hq; by split | by intros [Hq _]].
Qed.

Lemma not_done_spec (w : World) (exclude_done : bool) (qs : list Question)
    (q : Question) :
  q ∈ not_done w exclude_done qs <->
  q ∈ qs /\ (exclude_done = true -> q_id q ∉ answered_ids_at w).
Proof.
  unfold not_done. destruct exclude_done.
  - rewrite list_elem_of_filter. split; [intros [? ?] | intros [? H]].
    + by split.
    + split; [by apply H | done].
  - split; [intros Hq; by split | by intros [Hq _]].
Qed.

Lemma random_pool_sub (w : World) (category : option pystr)
    (exclude_done : bool) (qs : list Question) :
  not_done w exclude_done (of_category category qs) ⊆+ qs.
Proof.
  unfold not_done, of_category.
  assert (Hf : forall (P : Question -> Prop) `{!forall x, Decision (P x)}
                 (l : list Question), filter P l ⊆+ l).
  { intros P ? l. apply sublist_submseteq, sublist_filter. }
  destruct exclude_done, (given_category category); try done;
    try apply Hf.
  etrans; apply Hf.
Qed.

(** X12. [cmd_random] for a recognised licence class whose corpus exists,
    a count that is not negative and a category that is absent, empty or
    held by some question: the batch is drawn without repetition from the
    questions of that category (with [--exclude-done], from those whose id
    is in no [answered_ids] list); [total_available] is the size of that
    pool, [count] the smaller of the count asked for and that size, and
    that many questions are returned; no file is written. *)
Theorem random_batch (w : World) (subject : Z) (raw vt : pystr) (count : Z)
    (category : option pystr) (exclude_done : bool) (qs : list Question) :
  assoc (lower (strip raw)) VTYPE_ALIAS = Some vt ->
  data_dir w !! corpus_file vt subject = Some qs ->
  0 <= count ->
  (given_category category = None \/ of_category category qs <> []) ->
  exists b w' batch,
    cmd_random subject raw count category exclude_done w
    = (Ok (RandomQuestions b), w')
    /\ same_files w w'
    /\ rd_questions b = map format_question batch
    /\ batch ⊆+ not_done w exclude_done (of_category category qs)
    /\ rd_total_available b
       = len (not_done w exclude_done (of_category category qs))
    /\ rd_count b = Z.min count (rd_total_available b)
    /\ len (rd_questions b) = rd_count b
    /\ (forall q, q ∈ batch ->
          q ∈ qs
          /\ (forall cat, given_category category = Some cat ->
                q_category q = cat)
          /\ (exclude_done = true -> q_id q ∉ answered_ids_at w))
    /\ (NoDup (map q_id qs) -> NoDup (map f_id (rd_questions b))).
Proof.
  intros Hvt Hqs Hcount Hcat.
  rewrite (cmd_random_eq w subject raw vt count category exclude_done qs)
    by done.
  set (pool := not_done w exclude_done (of_category category qs)).
  assert (Hk : 0 <= Z.min count (len pool) <= len pool)
    by (unfold len; lia).
  destruct (random_sample_spec pool _ w Hk) as (l & w' & Hrun & Hw & Hlen & Hsub).
  exists (mkRandomBatch vt subject category (len pool)
            (Z.min count (len pool)) (map format_question l)), w', l.
  split.
  { destruct (given_category category) as [cat|] eqn:Ecat.
    - destruct (of_category category qs) as [|q0 rest] eqn:Eof.
      + by destruct Hcat.
      + cbv zeta. fold pool. by rewrite Hrun.
    - cbv zeta. fold pool. rewrite Hrun. by destruct (of_category category qs). }
  cbn [rd_questions rd_total_available rd_count].
  split; [done |]. split; [done |]. split; [done |]. split; [done |].
  split; [done |].
  split; [unfold len in *; by rewrite length_map |].
  split.
  - intros q Hq.
    assert (Hin : q ∈ pool) by (by eapply elem_of_submseteq).
    apply not_done_spec in Hin as [Hin Hdone].
    apply of_category_spec in Hin as [Hin Hc]. done.
  - intros Hnd. rewrite <- list_fmap_compose.
    apply (submseteq_NoDup' _ (map q_id qs)); [| done].
    change (map (f_id ∘ format_question)) with (map q_id).
    apply fmap_submseteq. etrans; [exact Hsub |]. apply random_pool_sub.
Qed.

Lemma random_batch_witness :
  exists b w',
    cmd_random 1 (py "C1") 3 (Some (py "signals")) true
      (sample_world (sample_run 10001 12 (py "signals")) None)
    = (Ok (RandomQuestions b), w')
    /\ rd_count b = 3.
Proof.
  destruct (random_batch
              (sample_world (sample_run 10001 12 (py "signals")) None)
              1 (py "C1") (py "c1") 3 (Some (py "signals")) true
              (sample_run 10001 12 (py "signals")))
    as (b & w' & batch & Hrun & _ & _ & _ & Hav & Hc & _).
  - vm_compute. reflexivity.
  - apply lookup_singleton_eq.
  - lia.
  - right. vm_compute. discriminate.
  - exists b, w'. split; [exact Hrun |]. rewrite Hc, Hav.
    vm_compute. reflexivity.
Defined.

(** X13. [cmd_random] with a category no question of the corpus has
    answers with the unknown-category error; it draws nothing and writes
    nothing.  This is so whatever the count and [--exclude-done] are. *)
Theorem random_unknown_category (w : World) (subject : Z) (raw vt : pystr)
    (count : Z) (cat : pystr) (exclude_done : bool) (qs : list Question) :
  assoc (lower (strip raw)) VTYPE_ALIAS = Some vt ->
  data_dir w !! corpus_file vt subject = Some qs ->
  cat <> [] ->
  (forall q, q ∈ qs -> q_category q <> cat) ->
  cmd_random subject raw count (Some cat) exclude_done w
  = (Ok (RandomUnknownCategory cat), w).
Proof.
  intros Hvt Hqs Hcat Hnone.
  rewrite (cmd_random_eq w subject raw vt count (Some cat) exclude_done qs)
    by done.
  assert (Hg : given_category (Some cat) = Some cat) by (by destruct cat).
  unfold of_category. rewrite Hg.
  rewrite filter_none; [done |]. apply Forall_forall. exact Hnone.
Qed.

Lemma random_unknown_category_witness :
  cmd_random 1 (py "c1") 3 (Some (py "lights")) false
    (sample_world (sample_run 10001 12 (py "signals")) None)
  = (Ok (RandomUnknownCategory (py "lights")),
     sample_world (sample_run 10001 12 (py "signals")) None).
Proof.
  apply (random_unknown_category _ 1 (py "c1") (py "c1") 3 (py "lights")
           false (sample_run 10001 12 (py "signals"))).
  - vm_compute. reflexivity.
  - apply lookup_singleton_eq.
  - vm_compute. discriminate.
  - intros q Hq. apply list_elem_of_In in Hq.
    apply in_map_iff in Hq as (i & Hi & _). subst q.
    vm_compute. discriminate.
Defined.

(** X14. [cmd_random] with a negative count (and a category that is
    absent or known) stops with the [ValueError] of [random.sample]; no
    file is written. *)
Theorem random_negative_count (w : World) (subject : Z) (raw vt : pystr)
    (count : Z) (category : option pystr) (exclude_done : bool)
    (qs : list Question) :
  assoc (lower (strip raw)) VTYPE_ALIAS = Some vt ->
  data_dir w !! corpus_file vt subject = Some qs ->
  count < 0 ->
  (given_category category = None \/ of_category category qs <> []) ->
  cmd_random subject raw count category exclude_done w = (Raise ValueError, w).
Proof.
  intros Hvt Hqs Hcount Hcat.
  rewrite (cmd_random_eq w subject raw vt count category exclude_done qs)
    by done.
  assert (Hs : forall pool : list Question,
            random_sample pool (Z.min count (len pool)) w
            = (Raise ValueError, w)).
  { intros pool. unfold random_sample.
    assert ((Z.min count (len pool) <? 0) = true) as -> by (unfold len; lia).
    reflexivity. }
  cbv zeta. rewrite Hs.
  destruct (given_category category) as [cat|]; [| done].
  destruct (of_category category qs); [by destruct Hcat | done].
Qed.

Lemma random_negative_count_witness :
  cmd_random 1 (py "c1") (-3) None false
    (sample_world (sample_run 10001 12 (py "signals")) None)
  = (Raise ValueError,
     sample_world (sample_run 10001 12 (py "signals")) None).
Proof.
  apply (random_negative_count _ 1 (py "c1") (py "c1") (-3) None false
           (sample_run 10001 12 (py "signals"))).
  - vm_compute. reflexivity.
  - apply lookup_singleton_eq.
  - lia.
  - by left.
Defined.

(** ** Mock exam *)

(** X15. [cmd_exam] for a recognised licence class whose corpus exists
    returns 100 questions for subject 1 and 50 for any other subject, or
    the whole corpus in some order when it holds fewer; the questions are
    drawn from the corpus without repetition, the pass score is 90, the
    time limit 45 minutes for subject 1 and 30 otherwise, and no file is
    written. *)
Theorem exam_paper (w : World) (subject : Z) (raw vt : pystr)
    (qs : list Question) :
  assoc (lower (strip raw)) VTYPE_ALIAS = Some vt ->
  data_dir w !! corpus_file vt subject = Some qs ->
  exists e w' batch,
    cmd_exam subject raw w = (Ok e, w')
    /\ same_files w w'
    /\ xm_vehicle_type e = vt /\ xm_subject e = subject
    /\ xm_pass_score e = 90
    /\ xm_time_limit_minutes e = (if subject =? 1 then 45 else 30)
    /\ xm_total_questions e
       = Z.min (if subject =? 1 then 100 else 50) (len qs)
    /\ xm_questions e = map format_question batch
    /\ len batch = xm_total_questions e
    /\ batch ⊆+ qs
    /\ (len qs <= (if subject =? 1 then 100 else 50) -> batch ≡ₚ qs)
    /\ (NoDup (map q_id qs) -> NoDup (map f_id (xm_questions e))).
Proof.
  intros Hvt Hqs. unfold cmd_exam, bind at 1.
  rewrite (resolve_vtype_ok _ _ _ Hvt). unfold bind at 1.
  rewrite (load_questions_ok _ _ _ _ Hqs). cbv zeta.
  set (full := if subject =? 1 then 100 else 50).
  assert (Hfull : 0 <= full) by (subst full; destruct (subject =? 1); lia).
  assert (Hn : (if len qs <? full then len qs else full) = Z.min full (len qs)).
  { destruct (len qs <? full) eqn:E; lia. }
  rewrite Hn.
  assert (Hk : 0 <= Z.min full (len qs) <= len qs) by (unfold len; lia).
  destruct (random_sample_spec qs _ w Hk) as (l & w' & Hrun & Hw & Hlen & Hsub).
  unfold bind. rewrite Hrun.
  eexists _, w', l. split; [reflexivity |].
  cbn [xm_vehicle_type xm_subject xm_pass_score xm_time_limit_minutes
       xm_total_questions xm_questions].
  do 8 (split; [done |]). split; [done |]. split.
  - intros Hle. apply submseteq_length_Permutation; [done |].
    unfold len in *. lia.
  - intros Hnd. rewrite <- list_fmap_compose.
    apply (submseteq_NoDup' _ (map q_id qs)); [| done].
    change (map (f_id ∘ format_question)) with (map q_id).
    by apply fmap_submseteq.
Qed.

Lemma exam_paper_witness :
  exists e w',
    cmd_exam 4 (py "c2")
      (mkWorld {[ corpus_file (py "c1") 4 := sample_run 40001 60 (py "signals") ]}
         None [] (py "2026-01-01 09:00"))
    = (Ok e, w')
    /\ xm_total_questions e = 50 /\ xm_time_limit_minutes e = 30.
Proof.
  destruct (exam_paper
              (mkWorld {[ corpus_file (py "c1") 4
                          := sample_run 40001 60 (py "signals") ]}
                 None [] (py "2026-01-01 09:00"))
              4 (py "c2") (py "c1") (sample_run 40001 60 (py "signals")))
    as (e & w' & batch & Hrun & _ & _ & _ & _ & Ht & Hn & _).
  - vm_compute. reflexivity.
  - apply lookup_singleton_eq.
  - exists e, w'. split; [exact Hrun |]. rewrite Hn, Ht.
    split; vm_compute; reflexivity.
Defined.

(** ** Reviewing wrong answers and favorites *)

Lemma list_to_set_empty (l : list Z) : (list_to_set l : gset Z) = ∅ <-> l = [].
Proof.
  destruct l as [|x l]; [done |]. split; [| done].
  intros H. assert (Hx : x ∈ (list_to_set (x :: l) : gset Z)) by set_solver.
  rewrite H in Hx. set_solver.
Qed.

Lemma collect_spec (dir : gmap pystr (list Question)) (ids : gset Z)
    (files : list pystr) (q : Question) :
  q ∈ collect dir ids files <->
  q_id q ∈ ids
  /\ exists file qs, file ∈ files /\ dir !! file = Some qs /\ q ∈ qs.
Proof.
  induction files as [|f rest IH]; cbn [collect].
  - split; [intros H; by apply elem_of_nil in H |].
    intros (_ & file & ? & H & _). by apply elem_of_nil in H.
  - destruct (dir !! f) as [qs0|] eqn:Ef.
    + rewrite elem_of_app, list_elem_of_filter, IH. split.
      * intros [[Hid Hq] | (Hid & file & qs & Hf & Hl & Hq)].
        -- split; [done |]. exists f, qs0. split; [left | done].
        -- split; [done |]. exists file, qs. split; [by right | done].
      * intros (Hid & file & qs & Hf & Hl & Hq).
        apply elem_of_cons in Hf as [-> | Hf].
        -- left. rewrite Ef in Hl. injection Hl as <-. done.
        -- right. split; [done |]. by exists file, qs.
    + rewrite IH. split.
      * intros (Hid & file & qs & Hf & Hl & Hq).
        split; [done |]. exists file, qs. split; [by right | done].
      * intros (Hid & file & qs & Hf & Hl & Hq).
        apply elem_of_cons in Hf as [-> | Hf]; [congruence |].
        split; [done |]. by exists file, qs.
Qed.

Lemma cmd_wrong_eq (subject count : option Z) (w : World) :
  cmd_wrong subject count w = review_of (wrong_ids_of w) subject count w.
Proof.
  unfold cmd_wrong, review_of, wrong_ids_of, found_in, bind at 1.
  rewrite load_progress_eq, <- loaded_eq. cbv zeta.
  destruct (bool_decide _); [done |]. unfold bind at 1.
  destruct (over_count count _) as [c|]; [| done].
  unfold bind. by destruct (random_sample _ c w) as [[?|?] ?].
Qed.

Lemma cmd_favorites_eq (subject count : option Z) (w : World) :
  cmd_favorites subject count w = review_of (fav_ids_of w) subject count w.
Proof.
  unfold cmd_favorites, review_of, fav_ids_of, favorites_of, found_in,
    bind at 1.
  rewrite load_progress_eq, <- loaded_eq. cbv zeta.
  destruct (bool_decide _); [done |]. unfold bind at 1.
  destruct (over_count count _) as [c|]; [| done].
  unfold bind. by destruct (random_sample _ c w) as [[?|?] ?].
Qed.

Lemma over_count_None (count : option Z) (found : list Question) :
  over_count count found = None <-> not_over count found.
Proof.
  unfold over_count, not_over. destruct count as [c|]; [| done].
  destruct (c =? 0) eqn:E0; cbn [negb andb].
  - split; [intros _; left; lia | done].
  - destruct (c <? len found) eqn:E1.
    + split; [discriminate | lia].
    + split; [intros _; right; lia | done].
Qed.

Lemma review_of_empty (ids : gset Z) (subject count : option Z) (w : World) :
  fst (review_of ids subject count w) = Ok ReviewEmpty <-> ids = ∅.
Proof.
  unfold review_of. destruct (bool_decide (ids = ∅)) eqn:E.
  - apply bool_decide_eq_true in E. done.
  - apply bool_decide_eq_false in E.
    split; [| done]. 
    destruct (over_count _ _); [| discriminate].
    by destruct (random_sample _ _ w) as [[?|?] ?].
Qed.

Lemma review_of_all (ids : gset Z) (subject count : option Z) (w : World) :
  ids <> ∅ -> not_over count (found_in w ids subject) ->
  review_of ids subject count w
  = (Ok (ReviewQuestions
           (mkReviewList (Z.of_nat (size ids))
              (len (found_in w ids subject))
              (map format_question (found_in w ids subject)))), w).
Proof.
  intros Hne Hc. unfold review_of.
  rewrite bool_decide_eq_false_2 by done.
  apply over_count_None in Hc. by rewrite Hc.
Qed.

Lemma review_of_sampled (ids : gset Z) (subject : option Z) (c : Z)
    (w : World) :
  ids <> ∅ -> 0 < c < len (found_in w ids subject) ->
  exists batch w',
    review_of ids subject (Some c) w
    = (Ok (ReviewQuestions
             (mkReviewList (Z.of_nat (size ids)) c
                (map format_question batch))), w')
    /\ same_files w w' /\ len batch = c
    /\ batch ⊆+ found_in w ids subject.
Proof.
  intros Hne Hc. unfold review_of.
  rewrite bool_decide_eq_false_2 by done.
  assert (Ho : over_count (Some c) (found_in w ids subject) = Some c).
  { unfold over_count.
    assert ((c =? 0) = false) as -> by lia.
    assert ((c <? len (found_in w ids subject)) = true) as -> by lia.
    done. }
  rewrite Ho.
  destruct (random_sample_spec (found_in w ids subject) c w ltac:(lia))
    as (l & w' & -> & Hw & Hlen & Hsub).
  exists l, w'. rewrite Hlen. done.
Qed.

Lemma shown_of_review (ids : gset Z) (subject count : option Z) (w : World)
    (x : Z) :
  x ∈ shown (fst (review_of ids subject count w)) -> x ∈ ids.
Proof.
  assert (Hsub : forall l : list Question,
            l ⊆+ found_in w ids subject -> x ∈ map q_id l -> x ∈ ids).
  { intros l Hl Hx. apply list_elem_of_fmap in Hx as (q & -> & Hq).
    assert (Hin : q ∈ found_in w ids subject) by (by eapply elem_of_submseteq).
    by apply collect_spec in Hin as [? _]. }
  unfold review_of. destruct (bool_decide (ids = ∅)).
  { cbn. intros H. by apply elem_of_nil in H. }
  destruct (over_count count (found_in w ids subject)) as [c|] eqn:Eo.
  - unfold random_sample.
    destruct ((c <? 0) || (len (found_in w ids subject) <? c)).
    { cbn. intros H. by apply elem_of_nil in H. }
    destruct (draw_spec (Z.to_nat c) (found_in w ids subject) w)
      as (l & w' & -> & _ & _ & Hl).
    cbn [fst shown rv_questions]. rewrite <- list_fmap_compose.
    change (map (f_id ∘ format_question)) with (map q_id). by apply Hsub.
  - cbn [fst shown rv_questions]. rewrite <- list_fmap_compose.
    change (map (f_id ∘ format_question)) with (map q_id). by apply Hsub.
Qed.

Lemma shown_of_full_review (ids : gset Z) (w : World) (q : Question) :
  q_id q ∈ ids ->
  (exists file qs,
     file ∈ known_corpora /\ data_dir w !! file = Some qs /\ q ∈ qs) ->
  q_id q ∈ shown (fst (review_of ids None None w)).
Proof.
  intros Hid Hq.
  rewrite review_of_all;
    [| intros ->; by apply not_elem_of_empty in Hid | done].
  cbn [fst shown rv_questions]. rewrite <- list_fmap_compose.
  change (map (f_id ∘ format_question)) with (map q_id).
  apply list_elem_of_fmap. exists q. split; [done |].
  apply collect_spec. by split.
Qed.

(** X16. [cmd_wrong] answers with its no-wrong-answers message exactly
    when the [wrong_questions] list is empty or missing, and
    [cmd_favorites] with its no-favorites message exactly when the
    [favorites] list is; in that case nothing is written, whatever the
    subject and the count are. *)
Theorem review_empty (w : World) (subject count : option Z) :
  (fst (cmd_wrong subject count w) = Ok ReviewEmpty <-> wrong_of w = [])
  /\ (wrong_of w = [] -> snd (cmd_wrong subject count w) = w)
  /\ (fst (cmd_favorites subject count w) = Ok ReviewEmpty
      <-> favorites_of w = [])
  /\ (favorites_of w = [] -> snd (cmd_favorites subject count w) = w).
Proof.
  rewrite cmd_wrong_eq, cmd_favorites_eq.
  rewrite !review_of_empty. unfold wrong_ids_of, fav_ids_of.
  rewrite !list_to_set_empty. fold (wrong_of w).
  split; [done |]. split; [| split; [done |]].
  - intros ->. reflexivity.
  - intros ->. reflexivity.
Qed.

(** X17. With some wrong id recorded and a count that is absent, zero or
    not below the number of matches, [cmd_wrong] lists every question of
    the corpus files of the subject (of subjects 1 and 4 when none is
    given) whose id is in [wrong_questions], in file order, each as often
    as the files hold it; [total_wrong] counts the distinct ids, [showing]
    the questions listed; nothing is drawn and nothing written.
    [cmd_favorites] does the same with [favorites]. *)
Theorem review_lists_every_match (w : World) (subject count : option Z) :
  (wrong_of w <> [] ->
   not_over count (found_in w (wrong_ids_of w) subject) ->
   exists r,
     cmd_wrong subject count w = (Ok (ReviewQuestions r), w)
     /\ rv_total r = Z.of_nat (size (wrong_ids_of w))
     /\ rv_showing r = len (rv_questions r)
     /\ rv_questions r
        = map format_question (found_in w (wrong_ids_of w) subject)
     /\ forall q, q ∈ found_in w (wrong_ids_of w) subject <->
          q_id q ∈ wrong_of w
          /\ exists file qs, file ∈ review_files subject
               /\ data_dir w !! file = Some qs /\ q ∈ qs)
  /\ (favorites_of w <> [] ->
      not_over count (found_in w (fav_ids_of w) subject) ->
      exists r,
        cmd_favorites subject count w = (Ok (ReviewQuestions r), w)
        /\ rv_total r = Z.of_nat (size (fav_ids_of w))
        /\ rv_showing r = len (rv_questions r)
        /\ rv_questions r
           = map format_question (found_in w (fav_ids_of w) subject)
        /\ forall q, q ∈ found_in w (fav_ids_of w) subject <->
             q_id q ∈ favorites_of w
             /\ exists file qs, file ∈ review_files subject
                  /\ data_dir w !! file = Some qs /\ q ∈ qs).
Proof.
  split; intros Hne Hc.
  - rewrite cmd_wrong_eq, review_of_all;
      [| unfold wrong_ids_of; fold (wrong_of w); by rewrite list_to_set_empty
       | done].
    eexists. split; [reflexivity |].
    cbn [rv_total rv_showing rv_questions].
    split; [done |]. split; [unfold len; by rewrite length_map |].
    split; [done |]. intros q. unfold found_in. rewrite collect_spec.
    unfold wrong_ids_of. fold (wrong_of w). by rewrite elem_of_list_to_set.
  - rewrite cmd_favorites_eq, review_of_all;
      [| unfold fav_ids_of; by rewrite list_to_set_empty | done].
    eexists. split; [reflexivity |].
    cbn [rv_total rv_showing rv_questions].
    split; [done |]. split; [unfold len; by rewrite length_map |].
    split; [done |]. intros q. unfold found_in. rewrite collect_spec.
    unfold fav_ids_of. by rewrite elem_of_list_to_set.
Qed.

(** X18. With a positive count below the number of matches, [cmd_wrong]
    shows exactly that many of the matching questions, drawn without
    repetition; [showing] is the count, [total_wrong] still counts all
    recorded ids; no file is written.  [cmd_favorites] does the same with
    [favorites].  With a negative count both stop with the [ValueError]
    of [random.sample] as soon as one question matches. *)
Theorem review_samples_down_to_count (w : World) (subject : option Z) (c : Z) :
  (0 < c < len (found_in w (wrong_ids_of w) subject) ->
   exists batch w',
     cmd_wrong subject (Some c) w
     = (Ok (ReviewQuestions
              (mkReviewList (Z.of_nat (size (wrong_ids_of w))) c
                 (map format_question batch))), w')
     /\ same_files w w' /\ len batch = c
     /\ batch ⊆+ found_in w (wrong_ids_of w) subject)
  /\ (0 < c < len (found_in w (fav_ids_of w) subject) ->
      exists batch w',
        cmd_favorites subject (Some c) w
        = (Ok (ReviewQuestions
                 (mkReviewList (Z.of_nat (size (fav_ids_of w))) c
                    (map format_question batch))), w')
        /\ same_files w w' /\ len batch = c
        /\ batch ⊆+ found_in w (fav_ids_of w) subject)
  /\ (c < 0 -> found_in w (wrong_ids_of w) subject <> [] ->
      cmd_wrong subject (Some c) w = (Raise ValueError, w))
  /\ (c < 0 -> found_in w (fav_ids_of w) subject <> [] ->
      cmd_favorites subject (Some c) w = (Raise ValueError, w)).
Proof.
  assert (Hne : forall ids : gset Z, found_in w ids subject <> [] -> ids <> ∅).
  { intros ids Hf ->. apply Hf. unfold found_in.
    apply elem_of_nil_inv. intros q Hq.
    apply collect_spec in Hq as [Hq _]. by apply not_elem_of_empty in Hq. }
  assert (Hlen : forall ids : gset Z,
            0 < len (found_in w ids subject) -> ids <> ∅).
  { intros ids Hl. apply Hne. intros E. rewrite E in Hl. unfold len in Hl.
    cbn [length] in Hl. lia. }
  assert (Hneg : forall ids : gset Z,
            c < 0 -> found_in w ids subject <> [] ->
            review_of ids subject (Some c) w = (Raise ValueError, w)).
  { intros ids Hc Hf. unfold review_of.
    rewrite bool_decide_eq_false_2 by (by apply Hne).
    unfold over_count.
    assert ((c =? 0) = false) as -> by lia.
    assert ((c <? len (found_in w ids subject)) = true) as ->
      by (apply Z.ltb_lt; unfold len; lia).
    cbn [negb andb]. unfold random_sample.
    assert ((c <? 0) = true) as -> by lia. done. }
  rewrite cmd_wrong_eq, cmd_favorites_eq.
  split; [| split; [| split]].
  - intros Hc. apply review_of_sampled; [apply Hlen; lia | done].
  - intros Hc. apply review_of_sampled; [apply Hlen; lia | done].
  - apply Hneg.
  - apply Hneg.
Qed.

Lemma review_lists_every_match_witness :
  exists r,
    cmd_wrong (Some 1) None
      (sample_world (sample_run 10001 12 (py "signals"))
         (Some (with_wrong [10002; 10005; 77])))
    = (Ok (ReviewQuestions r),
       sample_world (sample_run 10001 12 (py "signals"))
         (Some (with_wrong [10002; 10005; 77])))
    /\ rv_total r = 3
    /\ map f_id (rv_questions r) = [10002; 10005].
Proof.
  destruct (proj1 (review_lists_every_match
                     (sample_world (sample_run 10001 12 (py "signals"))
                        (Some (with_wrong [10002; 10005; 77])))
                     (Some 1) None))
    as (r & Hrun & Ht & _ & Hq & _).
  - vm_compute. discriminate.
  - exact I.
  - exists r. split; [exact Hrun |]. rewrite Ht, Hq.
    split; vm_compute; reflexivity.
Defined.

Lemma review_samples_down_to_count_witness :
  exists batch w',
    cmd_favorites None (Some 1)
      (sample_world (sample_run 10001 12 (py "signals"))
         (Some (with_favorites [10002; 10005])))
    = (Ok (ReviewQuestions
             (mkReviewList 2 1 (map format_question batch))), w')
    /\ len batch = 1.
Proof.
  destruct (proj1 (proj2 (review_samples_down_to_count
                     (sample_world (sample_run 10001 12 (py "signals"))
                        (Some (with_favorites [10002; 10005])))
                     None 1)))
    as (batch & w' & Hrun & _ & Hlen & _).
  - vm_compute. split; reflexivity.
  - exists batch, w'. split; [| exact Hlen].
    rewrite Hrun. reflexivity.
Defined.

(** ** A check, then the wrong-answer review *)

(** X19. After a check that came out wrong, the full wrong-answer review
    (no subject, no count) shows the question.  After a check that came
    out correct, with no duplicates in [wrong_questions], no wrong-answer
    review shows it, whatever subject and count are asked for. *)
Theorem check_then_wrong_review (w : World) (id : Z) (answer : pystr)
    (b : bool) (subject count : option Z) :
  verdict (fst (cmd_check id answer w)) = Some b ->
  let w' := snd (cmd_check id answer w) in
  if b
  then NoDup (wrong_of w) -> id ∉ shown (fst (cmd_wrong subject count w'))
  else id ∈ shown (fst (cmd_wrong None None w')).
Proof.
  intros Hv.
  destruct (cmd_check_done _ _ _ _ Hv) as (q & p & Hq & _ & Hsnd & Hw & _).
  cbv zeta. rewrite Hsnd, !cmd_wrong_eq.
  assert (Hids : wrong_ids_of (saved p w)
                 = list_to_set (wrong_after id b (wrong_of w))).
  { unfold wrong_ids_of. fold (wrong_of (saved p w)).
    by rewrite wrong_of_saved, Hw. }
  destruct b.
  - intros Hnd Hin. apply shown_of_review in Hin.
    rewrite Hids, elem_of_list_to_set in Hin.
    by destruct (wrong_after_spec id true (wrong_of w) Hnd) as (_ & Hout & _).
  - pose proof (find_in_Some _ _ _ _ Hq) as Hid.
    rewrite <- Hid at 1. apply shown_of_full_review.
    + rewrite Hids, elem_of_list_to_set, Hid. unfold wrong_after.
      destruct (mem id (wrong_of w)) eqn:E.
      * by apply mem_true.
      * apply elem_of_app. right. by left.
    + by apply (find_in_Some_file _ _ _ _ Hq).
Qed.

Lemma check_then_wrong_review_witness :
  10001 ∈ shown (fst (cmd_wrong None None
                        (snd (cmd_check 10001 (py "B")
                                (sample_world
                                   (sample_run 10001 12 (py "signals"))
                                   None))))).
Proof.
  apply (check_then_wrong_review
           (sample_world (sample_run 10001 12 (py "signals")) None)
           10001 (py "B") false None None).
  vm_compute. reflexivity.
Defined.

(** ** Favoriting, then the favorites review *)

(** X20. Once [cmd_favorite] has not answered with the not-found error,
    the full favorites review (no subject, no count) shows the question,
    whether it was added just now or was there before.  After
    [cmd_unfavorite], with no duplicates in [favorites], no favorites
    review shows it, whatever subject and count are asked for. *)
Theorem favorite_then_review (w : World) (id : Z) (subject count : option Z) :
  (fst (cmd_favorite id w) <> Ok (FavError (QuestionNotFound id)) ->
   id ∈ shown (fst (cmd_favorites None None (snd (cmd_favorite id w)))))
  /\ (NoDup (favorites_of w) ->
      id ∉ shown (fst (cmd_favorites subject count
                         (snd (cmd_unfavorite id w))))).
Proof.
  split.
  - rewrite cmd_favorite_eq, cmd_favorites_eq.
    destruct (find_in (data_dir w) id known_corpora) as [q|] eqn:Hq;
      [| by intros []].
    intros _. pose proof (find_in_Some _ _ _ _ Hq) as Hid.
    pose proof (find_in_Some_file _ _ _ _ Hq) as Hfile.
    rewrite <- Hid at 1.
    destruct (mem id (favorites_of w)) eqn:E; cbn [snd].
    + apply shown_of_full_review; [| done].
      unfold fav_ids_of. rewrite elem_of_list_to_set, Hid. by apply mem_true.
    + apply shown_of_full_review; [| done].
      unfold fav_ids_of. rewrite favorites_of_saved, elem_of_list_to_set, Hid.
      apply elem_of_app. right. by left.
  - intros Hnd Hin. rewrite cmd_favorites_eq in Hin.
    apply shown_of_review in Hin. revert Hin.
    rewrite cmd_unfavorite_eq. unfold fav_ids_of.
    destruct (mem id (favorites_of w)) eqn:E; cbn [snd].
    + rewrite favorites_of_saved, elem_of_list_to_set. by apply remove_gone.
    + rewrite elem_of_list_to_set. by apply mem_false.
Qed.

Lemma favorite_then_review_witness :
  10003 ∈ shown (fst (cmd_favorites None None
                        (snd (cmd_favorite 10003
                                (sample_world
                                   (sample_run 10001 12 (py "signals"))
                                   None))))).
Proof.
  apply (proj1 (favorite_then_review
                  (sample_world (sample_run 10001 12 (py "signals")) None)
                  10003 None None)).
  vm_compute. discriminate.
Defined.

(** ** The table of categories *)

Lemma first_seen_snoc (l : list pystr) (x : pystr) :
  first_seen (l ++ [x])
  = if decide (x ∈ l) then first_seen l else first_seen l ++ [x].
Proof.
  unfold first_seen. rewrite reverse_snoc. cbn [remove_dups].
  destruct (decide_rel elem_of x (reverse l)) as [Hin | Hout].
  - rewrite decide_True by (by apply elem_of_reverse). done.
  - rewrite decide_False by (by rewrite <- elem_of_reverse).
    by rewrite reverse_cons.
Qed.

Lemma elem_of_first_seen (l : list pystr) (x : pystr) :
  x ∈ first_seen l <-> x ∈ l.
Proof.
  unfold first_seen. by rewrite elem_of_reverse, elem_of_remove_dups,
    elem_of_reverse.
Qed.

Lemma NoDup_first_seen (l : list pystr) : NoDup (first_seen l).
Proof.
  unfold first_seen. rewrite reverse_Permutation. apply NoDup_remove_dups.
Qed.

Lemma how_many_snoc (P : Question -> Prop) `{!forall q, Decision (P q)}
    (qs : list Question) (q : Question) :
  how_many P (qs ++ [q]) = how_many P qs + (if decide (P q) then 1 else 0).
Proof.
  unfold how_many, len. rewrite filter_app, length_app.
  rewrite filter_cons, filter_nil. destruct (decide (P q)); cbn [length]; lia.
Qed.

Lemma how_many_none (P : Question -> Prop) `{!forall q, Decision (P q)}
    (qs : list Question) :
  (forall q, q ∈ qs -> ~ P q) -> how_many P qs = 0.
Proof.
  intros Hall. unfold how_many. rewrite filter_none; [done |].
  by apply Forall_forall.
Qed.

Lemma bump_type_known (t : pystr) (types : TypeCounts) :
  known_type t ->
  bump_type t types
  = Ok (mkTypeCounts
          (tc_single types + (if decide (t = py "single") then 1 else 0))
          (tc_judge types + (if decide (t = py "judge") then 1 else 0))
          (tc_multi types + (if decide (t = py "multi") then 1 else 0))).
Proof.
  unfold known_type. rewrite !elem_of_cons, elem_of_nil.
  intros [-> | [-> | [-> | []]]]; unfold bump_type, eqb;
    repeat (first [ rewrite bool_decide_eq_true_2 by reflexivity
                  | rewrite bool_decide_eq_false_2
                      by (vm_compute; discriminate) ]);
    repeat (first [ rewrite decide_True by reflexivity
                  | rewrite decide_False by (vm_compute; discriminate) ]);
    by rewrite ?Z.add_0_r.
Qed.

Lemma bump_type_unknown (t : pystr) (types : TypeCounts) :
  ~ known_type t -> bump_type t types = Raise (KeyError (key_of t)).
Proof.
  unfold known_type. rewrite !elem_of_cons, elem_of_nil. intros H.
  unfold bump_type, eqb.
  rewrite !bool_decide_eq_false_2 by tauto. done.
Qed.

Lemma indicator_and (P Q : Prop) `{!Decision P, !Decision Q} :
  (if decide (P /\ Q) then 1 else 0)
  = (if decide P then if decide Q then 1 else 0 else 0) :> Z.
Proof. repeat case_decide; tauto || done. Qed.

Lemma tally_snoc (qs : list Question) (q : Question) (cat : pystr) :
  known_type (q_type q) ->
  (if decide (cat = q_category q)
   then count_one (q_type q) (tally qs cat)
   else Ok (tally qs cat))
  = Ok (tally (qs ++ [q]) cat).
Proof.
  intros Hk. unfold tally, count_one.
  rewrite !how_many_snoc, !indicator_and.
  destruct (decide (cat = q_category q)) as [-> | Hne].
  - rewrite (bump_type_known _ _ Hk). cbn [tc_single tc_judge tc_multi ci_types
      ci_total].
    by rewrite !(decide_True (P := q_category q = q_category q)) by done.
  - rewrite !(decide_False (P := q_category q = cat)) by done.
    by rewrite !Z.add_0_r.
Qed.

Lemma count_in_unknown (cat t : pystr) (cats : list (pystr * CatInfo)) :
  ~ known_type t -> count_in cat t cats = Raise (KeyError (key_of t)).
Proof.
  intros Hk. induction cats as [|[c info] rest IH]; cbn [count_in].
  - unfold count_one. by rewrite bump_type_unknown.
  - destruct (eqb c cat); [| by rewrite IH].
    unfold count_one. by rewrite bump_type_unknown.
Qed.

Lemma count_in_tallied (f : pystr -> CatInfo) (names : list pystr)
    (cat t : pystr) (info' : CatInfo) :
  NoDup names ->
  count_one t (f cat) = Ok info' ->
  (cat ∉ names -> f cat = mkCatInfo 0 (mkTypeCounts 0 0 0)) ->
  count_in cat t (map (fun c => (c, f c)) names)
  = Ok (map (fun c => (c, if decide (c = cat) then info' else f c))
          (if decide (cat ∈ names) then names else names ++ [cat])).
Proof.
  intros Hnd Hone Hzero.
  induction Hnd as [|c rest Hc Hnd IH]; cbn [map count_in].
  - rewrite <- Hzero by apply not_elem_of_nil. rewrite Hone.
    rewrite decide_False by apply not_elem_of_nil. cbn [app map].
    by rewrite decide_True.
  - unfold eqb. destruct (decide (c = cat)) as [-> | Hne].
    + rewrite bool_decide_eq_true_2 by done. rewrite Hone.
      rewrite decide_True by left. cbn [map].
      rewrite decide_True by done. do 2 f_equal.
      apply map_ext_in. intros c Hin. apply list_elem_of_In in Hin.
      rewrite decide_False; [done |]. by intros ->.
    + rewrite bool_decide_eq_false_2 by done.
      rewrite IH.
      2:{ intros Hout. apply Hzero. rewrite elem_of_cons.
          intros [-> | ?]; [done | by apply Hout]. }
      destruct (decide (cat ∈ rest)) as [Hin | Hout].
      * rewrite decide_True by (by right). cbn [map].
        by rewrite (decide_False (P := c = cat)).
      * rewrite decide_False.
        2:{ rewrite elem_of_cons. intros [-> | ?]; [done | by apply Hout]. }
        cbn [app map]. by rewrite (decide_False (P := c = cat)).
Qed.

Lemma count_categories_snoc (qs : list Question) (q : Question) :
  count_categories (qs ++ [q])
  = match count_categories qs with
    | Ok cats => count_in (q_category q) (q_type q) cats
    | Raise e => Raise e
    end.
Proof. unfold count_categories. by rewrite fold_left_app. Qed.

Lemma count_categories_tally (qs : list Question) :
  Forall (fun q => known_type (q_type q)) qs ->
  count_categories qs
  = Ok (map (fun c => (c, tally qs c)) (first_seen (map q_category qs))).
Proof.
  induction qs as [|q qs IH] using rev_ind; [done |].
  intros Hk. apply Forall_app in Hk as [Hqs Hq].
  rewrite Forall_singleton in Hq.
  rewrite count_categories_snoc, (IH Hqs).
  pose proof (tally_snoc qs q (q_category q) Hq) as Hone.
  rewrite decide_True in Hone by done.
  rewrite (count_in_tallied _ _ _ _ _ (NoDup_first_seen _) Hone).
  - rewrite map_app. cbn [map]. rewrite first_seen_snoc. f_equal.
    assert (Hd : (if decide (q_category q ∈ first_seen (map q_category qs))
                  then first_seen (map q_category qs)
                  else first_seen (map q_category qs) ++ [q_category q])
                 = (if decide (q_category q ∈ map q_category qs)
                    then first_seen (map q_category qs)
                    else first_seen (map q_category qs) ++ [q_category q])).
    { destruct (decide (q_category q ∈ map q_category qs)) as [Hin | Hout].
      - by rewrite decide_True by (by apply elem_of_first_seen).
      - by rewrite decide_False by (by rewrite elem_of_first_seen). }
    rewrite Hd. apply map_ext. intros c.
    destruct (decide (c = q_category q)) as [-> | Hne]; [done |].
    pose proof (tally_snoc qs q c Hq) as Hc.
    rewrite decide_False in Hc by done. f_equal. congruence.
  - intros Hout. rewrite elem_of_first_seen in Hout.
    assert (Hno : forall q0, q0 ∈ qs -> q_category q0 <> q_category q).
    { intros q0 Hq0 E. apply Hout. rewrite <- E.
      apply list_elem_of_fmap. by exists q0. }
    cbv beta. unfold tally.
    f_equal; [| f_equal]; apply how_many_none; intros q0 Hq0;
      first [ intros E; exact (Hno q0 Hq0 E)
            | intros [E _]; exact (Hno q0 Hq0 E) ].
Qed.

Lemma count_categories_unknown (qs1 qs2 : list Question) (q : Question) :
  Forall (fun q => known_type (q_type q)) qs1 ->
  ~ known_type (q_type q) ->
  count_categories (qs1 ++ q :: qs2) = Raise (KeyError (key_of (q_type q))).
Proof.
  intros Hk Hq.
  assert (Hraise : forall (e : Exn) (l : list Question),
            fold_left (fun acc q =>
                         match acc with
                         | Ok categories =>
                             count_in (q_category q) (q_type q) categories
                         | Raise e => Raise e
                         end) l (Raise e) = Raise e).
  { intros e l. induction l as [|x l IH]; [done | exact IH]. }
  unfold count_categories. rewrite fold_left_app. cbn [fold_left].
  fold (count_categories qs1). rewrite (count_categories_tally _ Hk).
  by rewrite count_in_unknown, Hraise.
Qed.

Lemma cmd_categories_eq (w : World) (subject : Z) (raw vt : pystr)
    (qs : list Question) :
  assoc (lower (strip raw)) VTYPE_ALIAS = Some vt ->
  data_dir w !! corpus_file vt subject = Some qs ->
  cmd_categories subject raw w =
    match count_categories qs with
    | Ok cats =>
        match category_rows (loaded w) (sort by_total cats) with
        | Ok rows => (Ok (mkCategoriesOut vt subject rows), w)
        | Raise e => (Raise e, w)
        end
    | Raise e => (Raise e, w)
    end.
Proof.
  intros Hvt Hqs. unfold cmd_categories, bind at 1.
  rewrite (resolve_vtype_ok _ _ _ Hvt). unfold bind at 1.
  rewrite (load_questions_ok _ _ _ _ Hqs). unfold bind at 1, lift at 1.
  destruct (count_categories qs) as [cats|e]; [| done].
  unfold bind at 1. rewrite load_progress_eq, <- loaded_eq. cbv zeta.
  unfold bind, lift.
  by destruct (category_rows (loaded w) (sort by_total cats)).
Qed.

(** X22. A question whose type is none of [single], [judge] and [multi]
    stops [cmd_categories] with a [KeyError] on that type (the first such
    question decides which); nothing is written. *)
Theorem categories_unknown_type (w : World) (subject : Z) (raw vt : pystr)
    (qs1 qs2 : list Question) (q : Question) :
  assoc (lower (strip raw)) VTYPE_ALIAS = Some vt ->
  data_dir w !! corpus_file vt subject = Some (qs1 ++ q :: qs2) ->
  Forall (fun q => known_type (q_type q)) qs1 ->
  ~ known_type (q_type q) ->
  cmd_categories subject raw w = (Raise (KeyError (key_of (q_type q))), w).
Proof.
  intros Hvt Hqs Hk Hq.
  rewrite (cmd_categories_eq w subject raw vt _ Hvt Hqs).
  by rewrite count_categories_unknown.
Qed.

Lemma category_row_ok (w : World) (entry : pystr * CatInfo) :
  accuracy_defined w entry.1 ->
  exists row, category_row (loaded w) entry = Ok row /\ row_for w entry row.
Proof.
  intros Hacc. unfold category_row, row_for, accuracy_defined, practice_of in *.
  cbv zeta.
  destruct (get_or (categories (loaded w)) ∅ !! entry.1) as [d|] eqn:Ed.
  - destruct (0 <? cat_answered d) eqn:E.
    + destruct (Hacc d eq_refl ltac:(lia)) as [r Hr]. rewrite Hr.
      eexists. split; [reflexivity |]. cbn.
      repeat split; try done; [lia |]. by exists r.
    + eexists. split; [reflexivity |]. cbn. repeat split; try done. lia.
  - cbn [Z.ltb Z.compare]. eexists. split; [reflexivity |]. cbn.
    repeat split; done.
Qed.

Lemma category_rows_ok (w : World) (entries : list (pystr * CatInfo)) :
  Forall (fun entry => accuracy_defined w entry.1) entries ->
  exists rows,
    category_rows (loaded w) entries = Ok rows
    /\ Forall2 (row_for w) entries rows.
Proof.
  induction 1 as [|entry rest He Hrest IH]; cbn [category_rows].
  - exists []. by split.
  - destruct (category_row_ok w entry He) as (row & Hrow & Hfor).
    destruct IH as (rows & Hrows & Hall). rewrite Hrow, Hrows.
    exists (row :: rows). split; [done |]. by constructor.
Qed.

Lemma how_many_cons (P : Question -> Prop) `{!forall q, Decision (P q)}
    (qs : list Question) (q : Question) :
  how_many P (q :: qs) = (if decide (P q) then 1 else 0) + how_many P qs.
Proof.
  unfold how_many, len. rewrite filter_cons.
  destruct (decide (P q)); cbn [length]; lia.
Qed.

Lemma sum_of_cons (x : Z) (l : list Z) : sum_of (x :: l) = x + sum_of l.
Proof. reflexivity. Qed.

Lemma sum_indicator (names : list pystr) (cat : pystr) :
  NoDup names -> cat ∈ names ->
  sum_of (map (fun c => if decide (cat = c) then 1 else 0) names) = 1.
Proof.
  induction 1 as [|c rest Hc Hnd IH]; [by intros H%elem_of_nil |].
  intros Hin. cbn [map]. rewrite sum_of_cons.
  destruct (decide (cat = c)) as [-> | Hne].
  - assert (Hz : sum_of (map (fun c0 => if decide (c = c0) then 1 else 0) rest)
                 = 0).
    { clear IH Hin Hnd. induction rest as [|a rest IH]; [done |].
      cbn [map]. rewrite sum_of_cons, decide_False.
      2:{ intros ->. apply Hc. left. }
      rewrite IH; [done |]. intros H. apply Hc. by right. }
    lia.
  - apply elem_of_cons in Hin as [-> | Hin]; [done |].
    rewrite (IH Hin). lia.
Qed.

(** Every question is counted in exactly one category. *)
Lemma sum_tally (names : list pystr) (qs : list Question) :
  NoDup names -> (forall q, q ∈ qs -> q_category q ∈ names) ->
  sum_of (map (fun c => ci_total (tally qs c)) names) = len qs.
Proof.
  intros Hnd. induction qs as [|q qs IH]; intros Hin.
  - clear Hnd Hin. induction names as [|c names IHn]; [done |].
    cbn [map]. by rewrite sum_of_cons, IHn.
  - assert (Hsplit : forall l : list pystr,
              sum_of (map (fun c => ci_total (tally (q :: qs) c)) l)
              = sum_of (map (fun c => if decide (q_category q = c)
                                       then 1 else 0) l)
                + sum_of (map (fun c => ci_total (tally qs c)) l)).
    { induction l as [|c l IHl]; [done |]. cbn [map].
      rewrite !sum_of_cons, IHl. unfold tally at 1. cbn [ci_total].
      rewrite how_many_cons. unfold tally at 2. cbn [ci_total]. lia. }
    rewrite Hsplit, sum_indicator; [| done | apply Hin; left].
    rewrite IH by (intros q0 Hq0; apply Hin; by right).
    unfold len. cbn [length]. lia.
Qed.

Lemma tally_types (qs : list Question) (cat : pystr) :
  Forall (fun q => known_type (q_type q)) qs ->
  ci_total (tally qs cat)
  = tc_single (ci_types (tally qs cat)) + tc_judge (ci_types (tally qs cat))
    + tc_multi (ci_types (tally qs cat)).
Proof.
  unfold tally. cbn [ci_total ci_types tc_single tc_judge tc_multi].
  induction 1 as [|q qs Hq Hqs IH]; [done |].
  rewrite !how_many_cons, !indicator_and, IH.
  destruct (decide (q_category q = cat)); [| lia].
  unfold known_type in Hq. rewrite !elem_of_cons, elem_of_nil in Hq.
  destruct Hq as [E | [E | [E | []]]]; rewrite E;
    repeat (first [ rewrite decide_True by reflexivity
                  | rewrite decide_False by (vm_compute; discriminate) ]);
    lia.
Qed.

Lemma tally_positive (qs : list Question) (q : Question) :
  q ∈ qs -> 1 <= ci_total (tally qs (q_category q)).
Proof.
  intros Hq. unfold tally, how_many, len. cbn [ci_total].
  assert (Hin : q ∈ filter (fun q0 => q_category q0 = q_category q) qs)
    by (by apply list_elem_of_filter).
  destruct (filter _ qs); [by apply elem_of_nil in Hin | cbn [length]; lia].
Qed.

Lemma sorted_map {A B} (R : A -> A -> Prop) (S : B -> B -> Prop)
    (f : A -> B) (l : list A) :
  (forall x y, R x y -> S (f x) (f y)) ->
  StronglySorted R l -> StronglySorted S (map f l).
Proof.
  intros HRS. induction 1 as [|x l Hs IH Hx]; cbn; constructor; [done |].
  apply Forall_forall. intros y Hy.
  apply list_elem_of_fmap in Hy as (a & -> & Ha).
  rewrite Forall_forall in Hx. by apply HRS, Hx.
Qed.

Lemma sorted_of_map {A B} (R : A -> A -> Prop) (S : B -> B -> Prop)
    (f : A -> B) (l : list A) :
  (forall x y, S (f x) (f y) -> R x y) ->
  StronglySorted S (map f l) -> StronglySorted R l.
Proof.
  intros HSR. induction l as [|x l IH]; cbn [map]; [constructor |].
  intros Hs. apply StronglySorted_inv in Hs as [Hs Hx].
  constructor; [by apply IH |].
  apply Forall_forall. intros y Hy. apply HSR.
  rewrite Forall_forall in Hx. apply Hx.
  apply list_elem_of_fmap. by exists y.
Qed.

Lemma Forall2_elem_r {A B} (R : A -> B -> Prop) (l : list A) (k : list B)
    (y : B) :
  Forall2 R l k -> y ∈ k -> exists x, x ∈ l /\ R x y.
Proof.
  induction 1 as [|a b l k Hab Hlk IH]; [by intros H%elem_of_nil |].
  intros [-> | Hy]%elem_of_cons.
  - exists a. split; [left | done].
  - destruct (IH Hy) as (x & Hx & HR). exists x. split; [by right | done].
Qed.

Lemma by_total_sorted (cats : list (pystr * CatInfo)) :
  StronglySorted (fun x y => ci_total y.2 <= ci_total x.2) (sort by_total cats).
Proof.
  assert (Hs : StronglySorted (not_after by_total) (sort by_total cats)).
  { apply (sort_sorted by_total (fun _ => True)).
    - intros x y _ _. unfold by_total. lia.
    - intros x y z _ _ _. unfold not_after, by_total. lia.
    - by apply Forall_forall. }
  apply (sorted_weaken (not_after by_total)
           (fun x y => ci_total y.2 <= ci_total x.2) (fun _ => True));
    [| by apply Forall_forall | exact Hs].
  intros x y _ _. unfold not_after, by_total. lia.
Qed.

(** X21. [cmd_categories] for a recognised licence class whose corpus
    exists and holds only questions of the three known types: the table
    has one row for each category of the corpus, with the number of its
    questions in all and by type; the rows come by falling total,
    categories of equal total in the order they first occur; the totals
    add up to the size of the corpus and each total is the sum of its
    three type counts; [answered] and [correct] are those of the practice
    record (0 without one), and the accuracy is given exactly when
    [answered] is positive.  Nothing is written. *)
Theorem categories_table (w : World) (subject : Z) (raw vt : pystr)
    (qs : list Question) :
  assoc (lower (strip raw)) VTYPE_ALIAS = Some vt ->
  data_dir w !! corpus_file vt subject = Some qs ->
  Forall (fun q => known_type (q_type q)) qs ->
  (forall q, q ∈ qs -> accuracy_defined w (q_category q)) ->
  exists out,
    cmd_categories subject raw w = (Ok out, w)
    /\ co_vehicle_type out = vt /\ co_subject out = subject
    /\ map (fun r => (cg_name r, mkCatInfo (cg_total r) (cg_types r)))
         (co_categories out)
       = sort by_total
           (map (fun c => (c, tally qs c)) (first_seen (map q_category qs)))
    /\ map cg_name (co_categories out) ≡ₚ first_seen (map q_category qs)
    /\ StronglySorted (fun a b => cg_total b <= cg_total a) (co_categories out)
    /\ sum_of (map cg_total (co_categories out)) = len qs
    /\ Forall (fun r =>
                 1 <= cg_total r
                 /\ cg_total r = tc_single (cg_types r) + tc_judge (cg_types r)
                                 + tc_multi (cg_types r)
                 /\ cg_answered r
                    = match practice_of w (cg_name r) with
                      | Some d => cat_answered d
                      | None => 0
                      end
                 /\ cg_correct r
                    = match practice_of w (cg_name r) with
                      | Some d => cat_correct d
                      | None => 0
                      end
                 /\ match cg_accuracy r with
                    | Some a =>
                        0 < cg_answered r
                        /\ exists x,
                             truediv (cg_correct r) (cg_answered r) = Ok x
                             /\ a = percent x
                    | None => cg_answered r <= 0
                    end)
         (co_categories out).
Proof.
  intros Hvt Hqs Hk Hacc.
  rewrite (cmd_categories_eq w subject raw vt qs Hvt Hqs).
  rewrite (count_categories_tally qs Hk).
  set (names := first_seen (map q_category qs)).
  set (cats := map (fun c => (c, tally qs c)) names).
  assert (Hperm : sort by_total cats ≡ₚ cats) by apply sort_Permutation.
  assert (Hentry : forall e, e ∈ sort by_total cats ->
            exists q, q ∈ qs /\ e = (q_category q, tally qs (q_category q))).
  { intros e He. rewrite Hperm in He.
    apply list_elem_of_fmap in He as (c & -> & Hc).
    apply elem_of_first_seen, list_elem_of_fmap in Hc as (q & -> & Hq).
    by exists q. }
  destruct (category_rows_ok w (sort by_total cats)) as (rows & Hrows & Hall).
  { apply Forall_forall. intros e He.
    destruct (Hentry e He) as (q & Hq & ->). by apply Hacc. }
  rewrite Hrows. exists (mkCategoriesOut vt subject rows).
  cbn [co_vehicle_type co_subject co_categories].
  assert (Hproj : map (fun r => (cg_name r, mkCatInfo (cg_total r) (cg_types r)))
                    rows = sort by_total cats).
  { clear Hrows Hentry Hperm. induction Hall as [|e r es rs He Hes IH]; [done |].
    cbn [map]. rewrite IH. f_equal.
    destruct He as (-> & -> & -> & _). by destruct e as [c [t ty]]. }
  assert (Hnames : map cg_name rows = map fst (sort by_total cats)).
  { rewrite <- Hproj, <- list_fmap_compose. done. }
  assert (Htotals : map cg_total rows
                    = map (fun e => ci_total e.2) (sort by_total cats)).
  { rewrite <- Hproj, <- list_fmap_compose. done. }
  split; [done |]. split; [done |]. split; [done |]. split; [done |].
  split.
  { rewrite Hnames, Hperm. unfold cats. rewrite <- list_fmap_compose.
    by rewrite list_fmap_id. }
  split.
  { apply (sorted_of_map _ (fun x y : pystr * CatInfo =>
                              ci_total y.2 <= ci_total x.2)
             (fun r => (cg_name r, mkCatInfo (cg_total r) (cg_types r)))).
    - done.
    - rewrite Hproj. apply by_total_sorted. }
  split.
  { rewrite Htotals, (sum_of_Permutation _ _ (fmap_Permutation _ _ _ Hperm)).
    unfold cats. rewrite <- list_fmap_compose.
    apply sum_tally; [apply NoDup_first_seen |].
    intros q Hq. apply elem_of_first_seen, list_elem_of_fmap. by exists q. }
  apply Forall_forall. intros r Hr.
  destruct (Forall2_elem_r _ _ _ _ Hall Hr)
    as (e & He & Hn & Ht & Hty & Ha & Hc & Hacc').
  destruct (Hentry e He) as (q & Hq & ->). cbn [fst snd] in *.
  rewrite Hn, Ht, Hty.
  split; [by apply tally_positive |]. split; [by apply tally_types |].
  done.
Qed.

Lemma categories_table_witness :
  exists out,
    cmd_categories 1 (py "c1")
      (sample_world
         [sample_question 1 (py "signs"); sample_judge 2 (py "A");
          sample_question 3 (py "signs")]
         (Some (set_categories
                  (<[py "signs" := mkCatData 4 3 [1; 3; 1; 3]]> ∅)
                  _default_progress)))
    = (Ok out,
       sample_world
         [sample_question 1 (py "signs"); sample_judge 2 (py "A");
          sample_question 3 (py "signs")]
         (Some (set_categories
                  (<[py "signs" := mkCatData 4 3 [1; 3; 1; 3]]> ∅)
                  _default_progress)))
    /\ map (fun r => (cg_name r, cg_total r, cg_answered r))
         (co_categories out)
       = [(py "signs", 2, 4); (py "signals", 1, 0)].
Proof.
  destruct (categories_table
              (sample_world
                 [sample_question 1 (py "signs"); sample_judge 2 (py "A");
                  sample_question 3 (py "signs")]
                 (Some (set_categories
                          (<[py "signs" := mkCatData 4 3 [1; 3; 1; 3]]> ∅)
                          _default_progress)))
              1 (py "c1") (py "c1")
              [sample_question 1 (py "signs"); sample_judge 2 (py "A");
               sample_question 3 (py "signs")])
    as (out & Hrun & _).
  - vm_compute. reflexivity.
  - apply lookup_singleton_eq.
  - repeat constructor; unfold known_type; vm_compute;
      rewrite ?elem_of_cons; tauto.
  - intros q Hq d Hd Hpos.
    assert (Hd' : d = mkCatData 4 3 [1; 3; 1; 3]).
    { rewrite !elem_of_cons, elem_of_nil in Hq.
      destruct Hq as [-> | [-> | [-> | []]]]; vm_compute in Hd; congruence. }
    subst d. eexists. vm_compute. reflexivity.
  - exists out. split; [exact Hrun |].
    assert (Hc : match fst (cmd_categories 1 (py "c1")
                   (sample_world
                      [sample_question 1 (py "signs"); sample_judge 2 (py "A");
                       sample_question 3 (py "signs")]
                      (Some (set_categories
                               (<[py "signs" := mkCatData 4 3 [1; 3; 1; 3]]> ∅)
                               _default_progress)))) with
                 | Ok o => map (fun r => (cg_name r, cg_total r, cg_answered r))
                             (co_categories o)
                           = [(py "signs", 2, 4); (py "signals", 1, 0)]
                 | Raise _ => False
                 end) by (vm_compute; reflexivity).
    rewrite Hrun in Hc. exact Hc.
Defined.

Lemma categories_unknown_type_witness :
  cmd_categories 1 (py "c1")
    (sample_world
       [sample_question 1 (py "signs");
        mkQuestion 2 1 (py "signs") (py "fill") (py "Q") [] (py "A") (py "E")
          None;
        sample_question 3 (py "signs")] None)
  = (Raise (KeyError "fill"),
     sample_world
       [sample_question 1 (py "signs");
        mkQuestion 2 1 (py "signs") (py "fill") (py "Q") [] (py "A") (py "E")
          None;
        sample_question 3 (py "signs")] None).
Proof.
  apply (categories_unknown_type _ 1 (py "c1") (py "c1")
           [sample_question 1 (py "signs")]
           [sample_question 3 (py "signs")]
           (mkQuestion 2 1 (py "signs") (py "fill") (py "Q") [] (py "A")
              (py "E") None)).
  - vm_compute. reflexivity.
  - apply lookup_singleton_eq.
  - repeat constructor; unfold known_type; vm_compute;
      rewrite ?elem_of_cons; tauto.
  - unfold known_type. rewrite !elem_of_cons, elem_of_nil.
    intros [H | [H | [H | []]]]; vm_compute in H; discriminate.
Defined.

(** ** Importing a corpus *)

Lemma number_page_spec (subject : Z) (vehicle_type : pystr) (idx : Z)
    (page_list : list Raw) :
  number_page subject vehicle_type idx page_list
  = (imap (fun i raw =>
             normalize_question raw subject (idx + Z.of_nat i) vehicle_type)
       page_list,
     idx + len page_list).
Proof.
  revert idx. induction page_list as [|raw rest IH]; intros idx.
  - cbn. by rewrite Z.add_0_r.
  - cbn [number_page]. rewrite IH. cbn [imap]. rewrite Z.add_0_r.
    f_equal.
    + f_equal. apply imap_ext. intros i x _. cbn. f_equal. lia.
    + unfold len. cbn [length]. lia.
Qed.

Lemma number_pages_spec (subject : Z) (vehicle_type : pystr) (idx : Z)
    (pages : list (option (list Raw))) :
  number_pages subject vehicle_type idx pages
  = imap (fun i raw =>
            normalize_question raw subject (idx + Z.of_nat i) vehicle_type)
      (obtained pages).
Proof.
  revert idx. induction pages as [|[page_list|] rest IH]; intros idx;
    cbn [number_pages]; [done | | apply IH].
  rewrite number_page_spec, IH.
  change (obtained (Some page_list :: rest)) with (page_list ++ obtained rest).
  rewrite imap_app. f_equal. apply imap_ext. intros i x _. cbn.
  f_equal. unfold len. lia.
Qed.

Lemma id_base_cases (vehicle_type : pystr) :
  id_base vehicle_type ∈ [0; 100000; 200000; 300000].
Proof.
  unfold id_base, VEHICLE_TYPE_ID_BASE. cbn [item].
  repeat (destruct (eqb _ vehicle_type);
          [cbn [get_or]; rewrite !elem_of_cons; tauto |]).
  cbn [get_or]. left.
Qed.

Lemma kept_options (vals : list (option pystr)) :
  Forall (fun o => o <> [])
    (flat_map (fun val => match truthy val with
                          | Some s => [s]
                          | None => []
                          end) vals)
  /\ (length (flat_map (fun val => match truthy val with
                                   | Some s => [s]
                                   | None => []
                                   end) vals) <= length vals)%nat.
Proof.
  induction vals as [|v vals [IH1 IH2]]; cbn [flat_map length].
  - split; [constructor | done].
  - destruct v as [[|c s]|]; cbn [truthy app length];
      (split; [| lia]); try done.
    by constructor.
Qed.

Lemma normalize_question_shape (raw : Raw) (subject idx : Z)
    (vehicle_type : pystr) :
  let q := (normalize_question raw subject idx vehicle_type).1 in
  q_id q = id_base vehicle_type + subject * 10000 + idx
  /\ q_type q ∈ VALID_TYPES
  /\ (q_type q = py "judge" <-> q_options q = [])
  /\ (q_type q = py "multi" <-> q_options q <> [] /\ 44 ∈ q_answer q)
  /\ (length (q_options q) <= 4)%nat
  /\ Forall (fun o => o <> []) (q_options q)
  /\ q_image q <> Some []
  /\ q_subject q = subject.
Proof.
  cbv zeta. unfold normalize_question. cbv zeta.
  cbn [fst q_id q_type q_options q_answer q_image q_subject].
  destruct (kept_options [raw_option1 raw; raw_option2 raw; raw_option3 raw;
                          raw_option4 raw]) as [Hne Hlen].
  set (options := flat_map _ _) in *.
  split; [done |].
  assert (Himg : truthy (raw_pic raw) <> Some []).
  { by destruct (raw_pic raw) as [[|c s]|]. }
  unfold VALID_TYPES. rewrite !elem_of_cons, elem_of_nil.
  destruct options as [|o rest] eqn:E.
  - split; [tauto |]. split; [done |]. split; [| done].
    split; [intros H; vm_compute in H; discriminate | by intros [? _]].
  - destruct (bool_decide (44 ∈ get_or (raw_answer raw) (py ""))) eqn:Ec.
    + apply bool_decide_eq_true in Ec.
      split; [tauto |].
      split; [split; intros H; [vm_compute in H |]; discriminate |].
      done.
    + apply bool_decide_eq_false in Ec.
      split; [tauto |].
      split; [split; intros H; [vm_compute in H |]; discriminate |].
      split; [| done].
      split; [intros H; vm_compute in H; discriminate | tauto].
Qed.

(** X23. The corpus [fetch_subject] assembles numbers the records of the
    pages it obtained from 1 on, in order, skipping nothing: a page given
    up leaves no gap, so the ids run on from [base + subject * 10000 + 1]
    and no id comes twice.  Every question gets one of the three types
    ([judge] exactly when it has no option left, [multi] exactly when it
    has options and a comma in its answer), at most four options and none
    of them empty, and no empty image name. *)
Theorem fetch_subject_numbers (subject : Z) (vehicle_type : pystr)
    (pages : list (option (list Raw))) :
  fetch_subject subject vehicle_type pages
  = imap (fun i raw =>
            normalize_question raw subject (1 + Z.of_nat i) vehicle_type)
      (obtained pages)
  /\ map (fun x => q_id x.1) (fetch_subject subject vehicle_type pages)
     = map (fun i => id_base vehicle_type + subject * 10000 + 1 + Z.of_nat i)
         (seq 0 (length (obtained pages)))
  /\ NoDup (map (fun x => q_id x.1) (fetch_subject subject vehicle_type pages))
  /\ Forall (fun x =>
               q_type x.1 ∈ VALID_TYPES
               /\ (q_type x.1 = py "judge" <-> q_options x.1 = [])
               /\ (q_type x.1 = py "multi"
                   <-> q_options x.1 <> [] /\ 44 ∈ q_answer x.1)
               /\ (length (q_options x.1) <= 4)%nat
               /\ Forall (fun o => o <> []) (q_options x.1)
               /\ q_image x.1 <> Some []
               /\ q_subject x.1 = subject)
       (fetch_subject subject vehicle_type pages).
Proof.
  assert (Hspec := number_pages_spec subject vehicle_type 1 pages).
  fold (fetch_subject subject vehicle_type pages) in Hspec.
  assert (Hids : map (fun x => q_id x.1) (fetch_subject subject vehicle_type pages)
                 = map (fun i => id_base vehicle_type + subject * 10000 + 1
                                 + Z.of_nat i)
                     (seq 0 (length (obtained pages)))).
  { rewrite Hspec, fmap_imap, <- imap_seq_0.
    apply imap_ext. intros i raw _. cbn [compose].
    destruct (normalize_question_shape raw subject (1 + Z.of_nat i)
                vehicle_type) as [-> _]. lia. }
  split; [exact Hspec |]. split; [exact Hids |]. split.
  - rewrite Hids. apply NoDup_fmap_2; [| apply NoDup_seq].
    intros i j. lia.
  - rewrite Hspec. apply Forall_forall. intros x Hx.
    apply elem_of_lookup_imap_1 in Hx as (i & raw & -> & _).
    by destruct (normalize_question_shape raw subject (1 + Z.of_nat i)
                   vehicle_type) as (_ & ? & ? & ? & ? & ? & ? & ?).
Qed.

(** X24. The ids of imported questions tell the corpora apart: for the
    four vehicle types of the table, subjects 1 and 4 and running numbers
    from 1 to 9999, two questions with the same id have the same vehicle
    type, subject and number.  The bound matters: number 30005 of subject
    1 gets the id of number 5 of subject 4. *)
Theorem import_ids_apart :
  (forall (raw raw' : Raw) (vt vt' : pystr) (s s' i i' : Z),
     vt ∈ map fst VEHICLE_TYPE_ID_BASE -> vt' ∈ map fst VEHICLE_TYPE_ID_BASE ->
     s ∈ [1; 4] -> s' ∈ [1; 4] ->
     0 < i < 10000 -> 0 < i' < 10000 ->
     q_id (normalize_question raw s i vt).1
     = q_id (normalize_question raw' s' i' vt').1 ->
     vt = vt' /\ s = s' /\ i = i')
  /\ (forall (raw raw' : Raw) (vt : pystr),
        q_id (normalize_question raw 1 30005 vt).1
        = q_id (normalize_question raw' 4 5 vt).1).
Proof.
  split.
  - intros raw raw' vt vt' s s' i i' Hvt Hvt' Hs Hs' Hi Hi'.
    destruct (normalize_question_shape raw s i vt) as [-> _].
    destruct (normalize_question_shape raw' s' i' vt') as [-> _].
    cbn [map fst VEHICLE_TYPE_ID_BASE] in Hvt, Hvt'.
    rewrite !elem_of_cons, elem_of_nil in Hvt, Hvt'.
    rewrite !elem_of_cons, elem_of_nil in Hs, Hs'.
    destruct Hvt as [-> | [-> | [-> | [-> | []]]]];
      destruct Hvt' as [-> | [-> | [-> | [-> | []]]]];
      match goal with
      | |- id_base ?a + _ + _ = id_base ?b + _ + _ -> _ =>
          let x := eval vm_compute in (id_base a) in
          let y := eval vm_compute in (id_base b) in
          change (id_base a) with x; change (id_base b) with y
      end;
      intros Heq; (split; [first [reflexivity | exfalso; lia] | lia]).
  - intros raw raw' vt.
    destruct (normalize_question_shape raw 1 30005 vt) as [-> _].
    destruct (normalize_question_shape raw' 4 5 vt) as [-> _]. lia.
Qed.

(** ** Validating a corpus *)

Lemma when_nil (cond : bool) (x : Finding) : when cond x = [] <-> cond = false.
Proof. by destruct cond. Qed.

Lemma question_errors_nil (ids_seen : gset (option Z)) (i : nat) (q : Entry) :
  question_errors ids_seen i q = [] <-> (e_id q ∉ ids_seen) /\ sound_entry q.
Proof.
  unfold question_errors, sound_entry, blank, type_is.
  rewrite !app_nil, !when_nil, !negb_false_iff, andb_false_iff, orb_false_iff,
    negb_false_iff.
  rewrite !bool_decide_eq_false, !bool_decide_eq_true.
  unfold VALID_TYPES. cbn [map]. rewrite !elem_of_cons, elem_of_nil.
  split.
  - intros (Hmiss & Hseen & Hty & Hopt & Hq & Ha). repeat split; try done.
    intros Hj. destruct Hopt as [[H1 H2] | H]; [| done].
    destruct Hty as [E | [E | [E | []]]]; congruence.
  - intros (Hseen & (Hmiss & Hty & Hopt & Hq & Ha)). repeat split; try done.
    destruct (decide (e_type q = Some (py "judge"))) as [E | E].
    + left. rewrite E. split; intros [= H]; vm_compute in H; discriminate.
    + right. by apply Hopt.
Qed.

Lemma check_questions_errors (ids_seen : gset (option Z)) (i : nat)
    (qs : list Entry) :
  (check_questions ids_seen i qs).1 = [] <->
  NoDup (map e_id qs) /\ (forall q, q ∈ qs -> e_id q ∉ ids_seen)
  /\ Forall sound_entry qs.
Proof.
  revert ids_seen i. induction qs as [|q qs IH]; intros ids_seen i.
  - cbn. split; [intros _ | done].
    split; [constructor |]. split; [| constructor].
    intros q H. by apply elem_of_nil in H.
  - cbn [check_questions].
    destruct (check_questions (ids_seen ∪ {[e_id q]}) (S i) qs)
      as [errors warnings] eqn:E.
    cbn [fst]. rewrite app_nil, question_errors_nil.
    specialize (IH (ids_seen ∪ {[e_id q]}) (S i)). rewrite E in IH.
    cbn [fst] in IH.
    rewrite IH. cbn [map]. rewrite NoDup_cons, Forall_cons.
    split.
    + intros ((Hseen & Hsound) & Hnd & Hout & Hall).
      split; [split; [| done] |].
      * intros Hin. apply list_elem_of_fmap in Hin as (q' & Heq & Hq').
        apply (Hout q' Hq'). rewrite <- Heq.
        by apply elem_of_union_r, elem_of_singleton.
      * split; [| done]. intros q' [-> | Hq']%elem_of_cons; [done |].
        intros Hin. apply (Hout q' Hq'). by apply elem_of_union_l.
    + intros ((Hq & Hnd) & Hout & Hsound & Hall).
      split; [split; [apply Hout; left | done] |].
      split; [done |]. split; [| done].
      intros q' Hq' [Hin | Hin%elem_of_singleton]%elem_of_union.
      * apply (Hout q'); [by right | done].
      * apply Hq. rewrite <- Hin. apply list_elem_of_fmap. by exists q'.
Qed.

Lemma check_questions_warnings (ids_seen : gset (option Z)) (i : nat)
    (qs : list Entry) :
  (check_questions ids_seen i qs).2
  = concat (imap (fun j => question_warnings (i + j)) qs).
Proof.
  revert ids_seen i. induction qs as [|q qs IH]; intros ids_seen i; [done |].
  cbn [check_questions imap concat].
  specialize (IH (ids_seen ∪ {[e_id q]}) (S i)).
  destruct (check_questions (ids_seen ∪ {[e_id q]}) (S i) qs).
  cbn [snd] in *. rewrite IH, Nat.add_0_r. f_equal. f_equal.
  apply imap_ext. intros j x _. cbn [compose]. f_equal. lia.
Qed.

Lemma validate_questions_report (entries : list Entry) :
  vr_total (validate_questions entries) = len entries
  /\ (vr_ok (validate_questions entries) = true
      <-> vr_errors (validate_questions entries) = [])
  /\ (vr_errors (validate_questions entries) = []
      <-> NoDup (map e_id entries) /\ Forall sound_entry entries)
  /\ vr_warnings (validate_questions entries)
     = concat (imap question_warnings entries).
Proof.
  unfold validate_questions.
  pose proof (check_questions_errors ∅ 0 entries) as He.
  pose proof (check_questions_warnings ∅ 0 entries) as Hw.
  destruct (check_questions ∅ 0 entries) as [errors warnings].
  cbn [fst snd vr_total vr_ok vr_errors vr_warnings] in *.
  split; [done |]. split; [| split; [| done]].
  - unfold len. destruct errors; cbn [length]; split; try done; lia.
  - rewrite He. split.
    + by intros (? & _ & ?).
    + intros [? ?]. split; [done |]. split; [| done].
      intros q _. apply not_elem_of_empty.
Qed.

(** A record with every required key is the record of a question. *)
Lemma complete_entry (e : Entry) :
  missing_fields e = [] -> exists q, e = entry_of q.
Proof.
  destruct e as [[id|] [subject|] [category|] [type|] [question|] [options|]
                 [answer|] [explanation|]]; try discriminate.
  intros _.
  by exists (mkQuestion id subject category type question options answer
               explanation None).
Qed.

Lemma sound_entry_of (q : Question) : sound_entry (entry_of q) <-> sound q.
Proof.
  unfold sound_entry, sound, has_options. cbn.
  unfold VALID_TYPES. rewrite !elem_of_cons, !elem_of_nil.
  split.
  - intros (_ & Hty & Hopt & Hq & Ha). split; [| split; [| done]].
    + destruct Hty as [[= ->] | [[= ->] | [[= ->] | []]]]; tauto.
    + intros Hj Ho. rewrite Ho in Hopt.
      assert (false = true); [| done]. apply Hopt. congruence.
  - intros (Hty & Hopt & Hq & Ha). split; [done |]. split; [| split; [| done]].
    + destruct Hty as [-> | [-> | [-> | []]]]; tauto.
    + intros Hj. destruct (q_options q); [| done].
      exfalso. apply Hopt; [congruence | done].
Qed.

Lemma typed_entries (qs : list Question) :
  (NoDup (map e_id (map entry_of qs)) <-> NoDup (map q_id qs))
  /\ (Forall sound_entry (map entry_of qs) <-> Forall sound qs).
Proof.
  split.
  - assert (Hids : map e_id (map entry_of qs) = map Some (map q_id qs))
      by (by rewrite <- !list_fmap_compose).
    rewrite Hids. split.
    + apply NoDup_fmap_1.
    + apply NoDup_fmap_2. by intros x y [= ->].
  - rewrite Forall_fmap. apply Forall_iff. intros q. apply sound_entry_of.
Qed.

(** X25. [validate_file] returns nothing for a file that does not exist
    and otherwise judges the list of records it read.  On every such
    list, with or without its keys, it returns [True] exactly when it
    found no error, and that is exactly when no record lacks a required
    key, no id comes twice and every record has one of the three types,
    options unless it is a [judge] question, and a question text and an
    answer that are not blank; that is, exactly when the list is a corpus
    of well-formed questions with distinct ids.  Warnings do not count.
    The file is not changed. *)
Theorem validate_file_accepts (w : World) (file : pystr)
    (entries : list Entry) :
  match data_dir w !! file with
  | None => validate_file file w = (Ok None, w)
  | Some qs =>
      validate_file file w
      = (Ok (Some (validate_questions (map entry_of qs))), w)
      /\ (vr_ok (validate_questions (map entry_of qs)) = true
          <-> NoDup (map q_id qs) /\ Forall sound qs)
  end
  /\ vr_total (validate_questions entries) = len entries
  /\ (vr_ok (validate_questions entries) = true
      <-> vr_errors (validate_questions entries) = [])
  /\ (vr_ok (validate_questions entries) = true
      <-> NoDup (map e_id entries) /\ Forall sound_entry entries)
  /\ (vr_ok (validate_questions entries) = true
      <-> exists qs, entries = map entry_of qs
                     /\ NoDup (map q_id qs) /\ Forall sound qs)
  /\ vr_warnings (validate_questions entries)
     = concat (imap question_warnings entries).
Proof.
  destruct (validate_questions_report entries) as (Htotal & Hok & Herr & Hwarn).
  split.
  { unfold validate_file. destruct (data_dir w !! file) as [qs|]; [| done].
    split; [done |].
    destruct (validate_questions_report (map entry_of qs))
      as (_ & Hok' & Herr' & _).
    destruct (typed_entries qs) as [Hnd Hsound].
    by rewrite Hok', Herr', Hnd, Hsound. }
  split; [done |]. split; [done |]. split; [by rewrite Hok, Herr |].
  split; [| done]. rewrite Hok, Herr. split.
  - intros [Hnd Hsound].
    assert (Hall : exists qs, entries = map entry_of qs).
    { clear Hnd Htotal Hok Herr Hwarn.
      induction Hsound as [|e l He Hl IH]; [by exists [] |].
      destruct IH as [qs ->]. destruct He as [Hmiss _].
      destruct (complete_entry e Hmiss) as [q ->]. by exists (q :: qs). }
    destruct Hall as [qs ->]. exists qs. split; [done |].
    destruct (typed_entries qs) as [Hnd' Hsound']. split.
    + by apply Hnd'.
    + by apply Hsound'.
  - intros (qs & -> & Hnd & Hsound).
    destruct (typed_entries qs) as [Hnd' Hsound']. split.
    + by apply Hnd'.
    + by apply Hsound'.
Qed.

Lemma validate_file_accepts_witness :
  validate_file (corpus_file (py "c1") 1)
    (sample_world
       [sample_question 7 (py "signs"); sample_judge 7 (py "A")] None)
  = (Ok (Some (mkReport 2 [DuplicateId (ById 7)] [] false)),
     sample_world
       [sample_question 7 (py "signs"); sample_judge 7 (py "A")] None)
  /\ validate_questions
       [mkEntry None (Some 1) (Some (py "signs")) (Some (py "judge"))
          (Some (py "Q")) (Some []) None (Some (py "E"))]
     = mkReport 1
         [MissingFields (ByIndex 0) ["id"%string; "answer"%string];
          EmptyAnswer (ByIndex 0)]
         [] false.
Proof.
  pose proof (validate_file_accepts
                (sample_world
                   [sample_question 7 (py "signs"); sample_judge 7 (py "A")]
                   None)
                (corpus_file (py "c1") 1) []) as [H _].
  assert (Hl : data_dir
                 (sample_world
                    [sample_question 7 (py "signs"); sample_judge 7 (py "A")]
                    None) !! corpus_file (py "c1") 1
               = Some [sample_question 7 (py "signs"); sample_judge 7 (py "A")])
    by apply lookup_singleton_eq.
  rewrite Hl in H. destruct H as [-> _].
  split; vm_compute; reflexivity.
Defined.

Lemma validate_typed (qs : list Question) :
  vr_total (validate_questions (map entry_of qs)) = len qs
  /\ (NoDup (map q_id qs) -> Forall sound qs ->
      vr_ok (validate_questions (map entry_of qs)) = true
      /\ vr_errors (validate_questions (map entry_of qs)) = [])
  /\ (vr_ok (validate_questions (map entry_of qs)) = true ->
      NoDup (map q_id qs) /\ Forall sound qs)
  /\ (forall f, f ∈ vr_warnings (validate_questions (map entry_of qs)) ->
      exists q, q ∈ qs
        /\ (f = JudgeHasOptions (ById (q_id q))
            /\ q_type q = py "judge" /\ q_options q <> []
            \/ f = LacksExplanation (ById (q_id q)))).
Proof.
  destruct (validate_questions_report (map entry_of qs))
    as (Htotal & Hok & Herr & Hwarn).
  destruct (typed_entries qs) as [Hnd Hsound].
  split; [unfold len in *; by rewrite Htotal, length_map |].
  split; [| split].
  - intros H1 H2.
    assert (He : vr_errors (validate_questions (map entry_of qs)) = [])
      by (apply Herr; split; [by apply Hnd | by apply Hsound]).
    split; [by apply Hok | done].
  - intros H. apply Hok, Herr in H as [H1 H2].
    split; [by apply Hnd | by apply Hsound].
  - intros f Hf. rewrite Hwarn in Hf.
    apply list_elem_of_In, in_concat in Hf as (l & Hl & Hf).
    apply list_elem_of_In, elem_of_lookup_imap_1 in Hl as (i & e & -> & He).
    apply list_elem_of_In in Hf.
    apply list_lookup_fmap_Some in He as (q & -> & Hq).
    exists q. split; [by eapply list_elem_of_lookup_2 |].
    unfold question_warnings, label_of, type_is, has_options in Hf.
    cbn [entry_of e_id e_type e_options e_explanation get_or] in Hf.
    apply elem_of_app in Hf as [Hf | Hf]; unfold when in Hf.
    + destruct (bool_decide (Some (q_type q) = Some (py "judge"))) eqn:E;
        cbn [andb] in Hf; [| by apply elem_of_nil in Hf].
      apply bool_decide_eq_true in E. injection E as E.
      destruct (q_options q) eqn:Eo; [by apply elem_of_nil in Hf |].
      apply list_elem_of_singleton in Hf. left. by repeat split.
    + destruct (blank _); [| by apply elem_of_nil in Hf].
      apply list_elem_of_singleton in Hf. by right.
Qed.



Lemma cmd_exam_run (w : World) (subject : Z) (raw vt : pystr)
    (qs : list Question) :
  assoc (lower (strip raw)) VTYPE_ALIAS = Some vt ->
  data_dir w !! corpus_file vt subject = Some qs ->
  exists l w',
    cmd_exam subject raw w
    = (Ok (mkExam vt subject
             (Z.min (if subject =? 1 then 100 else 50) (len qs)) 90
             (if subject =? 1 then 45 else 30) (map format_question l)), w')
    /\ same_files w w' /\ l ⊆+ qs.
Proof.
  intros Hvt Hqs. unfold cmd_exam, bind at 1.
  rewrite (resolve_vtype_ok _ _ _ Hvt). unfold bind at 1.
  rewrite (load_questions_ok _ _ _ _ Hqs). cbv zeta.
  set (full := if subject =? 1 then 100 else 50).
  assert (Hfull : 0 <= full) by (subst full; destruct (subject =? 1); lia).
  assert (Hn : (if len qs <? full then len qs else full) = Z.min full (len qs)).
  { destruct (len qs <? full) eqn:E; lia. }
  rewrite Hn.
  assert (Hk : 0 <= Z.min full (len qs) <= len qs) by (unfold len; lia).
  destruct (random_sample_spec qs _ w Hk) as (l & w' & Hrun & Hw & _ & Hsub).
  unfold bind. rewrite Hrun. by exists l, w'.
Qed.

(** X27. A corpus file the validator accepts is safe for the quiz: with a
    recognised licence class, [cmd_categories] on it returns its table
    instead of stopping on an unknown type (as long as the accuracies can
    be computed), and the paper of [cmd_exam] never holds the same id
    twice. *)
Theorem validated_corpus_is_safe (w : World) (subject : Z) (raw vt : pystr)
    (r : Report) :
  assoc (lower (strip raw)) VTYPE_ALIAS = Some vt ->
  validate_file (corpus_file vt subject) w = (Ok (Some r), w) ->
  vr_ok r = true ->
  ((forall cat, accuracy_defined w cat) ->
   exists out,
     cmd_categories subject raw w = (Ok out, w)
     /\ len (co_categories out) <= vr_total r)
  /\ (exists e w',
        cmd_exam subject raw w = (Ok e, w')
        /\ NoDup (map f_id (xm_questions e))).
Proof.
  intros Hvt Hval Hok. unfold validate_file in Hval.
  destruct (data_dir w !! corpus_file vt subject) as [qs|] eqn:Hqs;
    [| discriminate].
  injection Hval as <-.
  destruct (validate_typed qs) as (Htotal & _ & Hgood & _).
  destruct (Hgood Hok) as [Hnd Hsound]. rewrite Htotal.
  split.
  - intros Hacc.
    rewrite (cmd_categories_eq w subject raw vt qs Hvt Hqs).
    rewrite count_categories_tally.
    2:{ eapply Forall_impl; [exact Hsound |]. by intros q [? _]. }
    destruct (category_rows_ok w
                (sort by_total
                   (map (fun c => (c, tally qs c))
                      (first_seen (map q_category qs)))))
      as (rows & -> & Hall).
    { apply Forall_forall. intros entry _. apply Hacc. }
    eexists. split; [reflexivity |]. cbn [co_categories].
    apply Forall2_length in Hall. unfold len. rewrite <- Hall.
    rewrite (Permutation_length (sort_Permutation _ _)), length_map.
    apply Nat2Z.inj_le.
    rewrite <- (length_map q_category qs).
    apply submseteq_length, NoDup_submseteq; [apply NoDup_first_seen |].
    intros c. by rewrite elem_of_first_seen.
  - destruct (cmd_exam_run w subject raw vt qs Hvt Hqs)
      as (l & w' & Hrun & _ & Hsub).
    eexists _, w'. split; [exact Hrun |]. cbn [xm_questions].
    rewrite <- list_fmap_compose.
    apply (submseteq_NoDup' _ (map q_id qs)); [| done].
    change (map (f_id ∘ format_question)) with (map q_id).
    by apply fmap_submseteq.
Qed.

Lemma validated_corpus_is_safe_witness :
  exists e w',
    cmd_exam 1 (py "c1")
      (sample_world [sample_question 1 (py "signs"); sample_judge 2 (py "A")]
         None)
    = (Ok e, w')
    /\ NoDup (map f_id (xm_questions e)).
Proof.
  assert (Hr : exists r,
             validate_file (corpus_file (py "c1") 1)
               (sample_world
                  [sample_question 1 (py "signs"); sample_judge 2 (py "A")]
                  None)
             = (Ok (Some r),
                sample_world
                  [sample_question 1 (py "signs"); sample_judge 2 (py "A")]
                  None)
             /\ vr_ok r = true).
  { eexists. split; [vm_compute; reflexivity | reflexivity]. }
  destruct Hr as (r & Hval & Hok).
  exact (proj2 (validated_corpus_is_safe
                  (sample_world
                     [sample_question 1 (py "signs"); sample_judge 2 (py "A")]
                     None)
                  1 (py "c1") (py "c1") r eq_refl Hval Hok)).
Defined.

(** ** Topics *)

Section TopicFacts.
Variable unicode_decimal : Z -> bool.

Lemma match_many_spec (accept : Z -> bool) (k : pystr -> bool) (s : pystr) :
  match_many accept k s = true <->
  exists run s', s = run ++ s' /\ Forall (fun c => accept c = true) run
                 /\ k s' = true.
Proof.
  induction s as [|c s IH]; cbn [match_many].
  - rewrite orb_false_r. split.
    + intros Hk. exists [], []. by repeat split.
    + intros (run & s' & Heq & _ & Hk). symmetry in Heq.
      apply app_eq_nil in Heq as [_ ->]. done.
  - rewrite orb_true_iff, andb_true_iff, IH. split.
    + intros [Hk | (Hc & run & s' & -> & Hrun & Hk)].
      * exists [], (c :: s). by repeat split.
      * exists (c :: run), s'. split; [done |]. split; [by constructor | done].
    + intros ([|c' run] & s' & Heq & Hrun & Hk).
      * left. cbn in Heq. by subst s'.
      * right. cbn in Heq. injection Heq as <- ->.
        apply Forall_cons in Hrun as [Hc Hrun]. split; [done |].
        by exists run, s'.
Qed.

Lemma match_items_spec (items : Branch) (s : pystr) :
  match_items unicode_decimal items s = true <->
  exists m rest, s = m ++ rest /\ denotes unicode_decimal items m.
Proof.
  revert s. induction items as [|[cs rep] items IH]; intros s.
  - cbn. split; [| done]. intros _. by exists [], s.
  - cbn [denotes]. destruct rep; cbn [match_items].
    + destruct s as [|c s].
      * split; [done |].
        intros (m & rest & Heq & run & m' & -> & _ & Hlen & _).
        destruct run; [done |]. done.
      * rewrite andb_true_iff, IH. split.
        -- intros (Hc & m & rest & -> & Hm).
           exists (c :: m), rest. split; [done |].
           exists [c], m. split; [done |]. split; [| done].
           by constructor.
        -- intros (m & rest & Heq & run & m' & -> & Hrun & Hlen & Hm).
           destruct run as [|c' [|? ?]]; try done.
           cbn in Heq. injection Heq as <- ->.
           apply Forall_cons in Hrun as [Hc _]. split; [done |].
           by exists m', rest.
    + destruct s as [|c s].
      * split; [done |].
        intros (m & rest & Heq & run & m' & -> & _ & Hne & _).
        by destruct run.
      * rewrite andb_true_iff, match_many_spec. split.
        -- intros (Hc & run & s' & -> & Hrun & Hk).
           apply IH in Hk as (m & rest & -> & Hm).
           exists (c :: run ++ m), rest.
           split; [cbn [app]; by rewrite app_assoc |].
           exists (c :: run), m. split; [done |].
           split; [by constructor |]. done.
        -- intros (m & rest & Heq & run & m' & -> & Hrun & Hne & Hm).
           destruct run as [|c' run]; [done |].
           cbn in Heq. injection Heq as <- ->.
           apply Forall_cons in Hrun as [Hc Hrun]. split; [done |].
           exists run, (m' ++ rest). split; [by rewrite app_assoc |].
           split; [done |]. apply IH. by exists m', rest.
    + rewrite match_many_spec. split.
      * intros (run & s' & -> & Hrun & Hk).
        apply IH in Hk as (m & rest & -> & Hm).
        exists (run ++ m), rest. split; [by rewrite app_assoc |].
        by exists run, m.
      * intros (m & rest & -> & run & m' & -> & Hrun & _ & Hm).
        exists run, (m' ++ rest). split; [by rewrite app_assoc |].
        split; [done |]. apply IH. by exists m', rest.
Qed.

Lemma re_search_spec (p : Pattern) (text : pystr) :
  re_search unicode_decimal p text = true <->
  exists pre m post b,
    text = pre ++ m ++ post /\ b ∈ p /\ denotes unicode_decimal b m.
Proof.
  assert (Hhere : forall s,
            existsb (fun b => match_items unicode_decimal b s) p = true <->
            exists m post b, s = m ++ post /\ b ∈ p
                             /\ denotes unicode_decimal b m).
  { intros s. rewrite existsb_exists. split.
    - intros (b & Hb & Hm). apply match_items_spec in Hm as (m & post & -> & Hm).
      exists m, post, b. by rewrite list_elem_of_In.
    - intros (m & post & b & -> & Hb & Hm). exists b.
      split; [by apply list_elem_of_In |]. apply match_items_spec.
      by exists m, post. }
  induction text as [|c text IH]; cbn [re_search];
    rewrite orb_true_iff, Hhere.
  - split.
    + intros [(m & post & b & Heq & Hb & Hm) | ?]; [| done].
      by exists [], m, post, b.
    + intros (pre & m & post & b & Heq & Hb & Hm). left.
      destruct pre; [| done]. by exists m, post, b.
  - rewrite IH. split.
    + intros [(m & post & b & Heq & Hb & Hm)
             | (pre & m & post & b & -> & Hb & Hm)].
      * by exists [], m, post, b.
      * by exists (c :: pre), m, post, b.
    + intros ([|c' pre] & m & post & b & Heq & Hb & Hm).
      * left. by exists m, post, b.
      * right. cbn in Heq. injection Heq as <- ->. by exists pre, m, post, b.
Qed.


Lemma denotes_word (word m : pystr) :
  denotes unicode_decimal (word_branch word) m <-> m = word.
Proof.
  revert m. induction word as [|c word IH]; intros m; cbn; [done |].
  split.
  - intros (run & m' & -> & Hrun & Hlen & Hm). apply IH in Hm as ->.
    destruct run as [|c' [|? ?]]; try done.
    apply Forall_cons in Hrun as [Hc _]. cbn in Hc.
    apply Z.eqb_eq in Hc as ->. done.
  - intros ->. exists [c], word. split; [done |].
    split; [constructor; [apply Z.eqb_refl | constructor] |].
    split; [done |]. by apply IH.
Qed.

Lemma search_words (words : list pystr) (text : pystr) :
  re_search unicode_decimal (map word_branch words) text = true <->
  exists word, word ∈ words /\ occurs_in word text.
Proof.
  rewrite re_search_spec. unfold occurs_in. split.
  - intros (pre & m & post & b & -> & Hb & Hm).
    apply list_elem_of_fmap in Hb as (word & -> & Hw).
    apply denotes_word in Hm as ->. exists word. split; [done |].
    by exists pre, post.
  - intros (word & Hw & pre & post & ->).
    exists pre, word, post, (word_branch word). split; [done |].
    split; [apply list_elem_of_fmap; by exists word | by apply denotes_word].
Qed.

Lemma topic_names_distinct : NoDup (map fst TOPIC_RULES).
Proof. apply (bool_decide_unpack _). vm_compute. exact I. Qed.

Lemma compiled_names : map fst _compiled_topics = map fst TOPIC_RULES.
Proof. vm_compute. reflexivity. Qed.

Lemma one_value {A} (l : list (pystr * A)) (k : pystr) (x y : A) :
  NoDup (map fst l) -> (k, x) ∈ l -> (k, y) ∈ l -> x = y.
Proof.
  induction l as [|[k' z] l IH]; cbn [map fst];
    [by intros _ H%elem_of_nil |].
  rewrite NoDup_cons. intros [Hk Hnd] Hx Hy.
  apply elem_of_cons in Hx as [[= -> ->] | Hx],
        Hy as [[= ?] | Hy]; subst.
  - done.
  - destruct Hk. apply list_elem_of_fmap. by exists (k', y).
  - destruct Hk. apply list_elem_of_fmap. by exists (k', x).
  - by apply IH.
Qed.

Lemma rule_iff (rules : list (pystr * pystr)) (text name pattern : pystr)
    (p : Pattern) :
  NoDup (map fst rules) ->
  (name, pattern) ∈ rules -> re_compile pattern = Some p ->
  name ∈ map fst
           (filter (fun rule => re_search unicode_decimal rule.2 text = true)
              (omap (fun rule => match re_compile rule.2 with
                                 | Some pat => Some (rule.1, pat)
                                 | None => None
                                 end) rules)) <->
  re_search unicode_decimal p text = true.
Proof.
  intros Hnd Hrule Hp. rewrite list_elem_of_fmap. split.
  - intros ([name' p'] & -> & Hin). cbn [fst] in *.
    apply list_elem_of_filter in Hin as [Hs Hin]. cbn [snd] in Hs.
    apply list_elem_of_omap in Hin as ([n pat] & Hr & Hc). cbn [fst snd] in Hc.
    destruct (re_compile pat) as [p0|] eqn:E; [| done].
    injection Hc as -> ->.
    assert (pat = pattern) by (by eapply one_value).
    subst pat. congruence.
  - intros Hs. exists (name, p). split; [done |].
    apply list_elem_of_filter. split; [done |].
    apply list_elem_of_omap. exists (name, pattern). split; [done |].
    cbn [fst snd]. by rewrite Hp.
Qed.

Lemma topic_rule_iff (q : Question) (name pattern : pystr) (p : Pattern) :
  (name, pattern) ∈ TOPIC_RULES -> re_compile pattern = Some p ->
  name ∈ get_question_topics unicode_decimal q <->
  re_search unicode_decimal p (topic_text q) = true.
Proof.
  intros Hrule Hp.
  exact (rule_iff TOPIC_RULES (topic_text q) name pattern p
           topic_names_distinct Hrule Hp).
Qed.

Lemma denotes_once (cs : CharSet) (rest : Branch) (m : pystr) :
  denotes unicode_decimal ((cs, Once) :: rest) m <->
  exists c m', m = c :: m' /\ accepts unicode_decimal cs c = true
               /\ denotes unicode_decimal rest m'.
Proof.
  cbn [denotes]. split.
  - intros (run & m' & -> & Hrun & Hlen & Hm).
    destruct run as [|c [|? ?]]; try done.
    apply Forall_cons in Hrun as [Hc _]. by exists c, m'.
  - intros (c & m' & -> & Hc & Hm). exists [c], m'.
    split; [done |]. split; [by repeat constructor | done].
Qed.

Lemma denotes_more (cs : CharSet) (rest : Branch) (m : pystr) :
  denotes unicode_decimal ((cs, OneOrMore) :: rest) m <->
  exists run m',
    m = run ++ m' /\ Forall (fun c => accepts unicode_decimal cs c = true) run
    /\ run <> [] /\ denotes unicode_decimal rest m'.
Proof. done. Qed.

Lemma denotes_any (cs : CharSet) (rest : Branch) (m : pystr) :
  denotes unicode_decimal ((cs, ZeroOrMore) :: rest) m <->
  exists run m',
    m = run ++ m' /\ Forall (fun c => accepts unicode_decimal cs c = true) run
    /\ denotes unicode_decimal rest m'.
Proof.
  cbn [denotes]. split.
  - intros (run & m' & ? & ? & _ & ?). by exists run, m'.
  - intros (run & m' & ? & ? & ?). by exists run, m'.
Qed.

Lemma plain_rule (q : Question) (name pattern : pystr) :
  (name, pattern) ∈ TOPIC_RULES -> plain_words pattern = true ->
  name ∈ get_question_topics unicode_decimal q <->
  exists word, word ∈ split_bar pattern /\ occurs_in word (topic_text q).
Proof.
  intros Hrule Hplain.
  assert (Hp : re_compile pattern = Some (map word_branch (split_bar pattern))).
  { clear q. unfold TOPIC_RULES in Hrule.
    rewrite !elem_of_cons, elem_of_nil in Hrule.
    repeat (destruct Hrule as [[= -> ->] | Hrule];
            [first [ vm_compute; reflexivity
                   | vm_compute in Hplain; discriminate ] |]).
    done. }
  by rewrite (topic_rule_iff q name pattern _ Hrule Hp), search_words.
Qed.


Ltac in_rules := apply (bool_decide_unpack _); vm_compute; exact I.

Lemma occurs_in_inside (word pre post text : pystr) :
  text = pre ++ word ++ post -> occurs_in word text.
Proof. intros ->. by exists pre, post. Qed.

Lemma fine_rule (q : Question) :
  py "罚款金额" ∈ get_question_topics unicode_decimal q <->
  occurs_in (py "罚款") (topic_text q)
  \/ exists digits,
       digits <> [] /\ Forall (fun c => unicode_decimal c = true) digits
       /\ occurs_in (py "处" ++ digits ++ py "元") (topic_text q).
Proof.
  destruct (re_compile (py "罚款|处\d+元|元以[上下]罚款")) as [p|] eqn:Hp;
    [| vm_compute in Hp; discriminate].
  assert (Hin : (py "罚款金额", py "罚款|处\d+元|元以[上下]罚款") ∈ TOPIC_RULES)
    by in_rules.
  rewrite (topic_rule_iff q _ _ p Hin Hp).
  vm_compute in Hp. injection Hp as <-.
  rewrite re_search_spec. split.
  - intros (pre & m & post & b & Htext & Hb & Hm).
    rewrite !elem_of_cons, elem_of_nil in Hb.
    destruct Hb as [-> | [-> | [-> | []]]].
    + left. apply (denotes_word (py "罚款")) in Hm as ->.
      by exists pre, post.
    + right. apply denotes_once in Hm as (c1 & m1 & -> & Hc1 & Hm).
      apply denotes_more in Hm as (digits & m2 & -> & Hd & Hne & Hm).
      apply denotes_once in Hm as (c2 & m3 & -> & Hc2 & ->).
      cbn [accepts] in *. apply Z.eqb_eq in Hc1 as ->, Hc2 as ->.
      exists digits. split; [done |]. split; [done |].
      by exists pre, post.
    + left. apply denotes_once in Hm as (c1 & m1 & -> & Hc1 & Hm).
      apply denotes_once in Hm as (c2 & m2 & -> & Hc2 & Hm).
      apply denotes_once in Hm as (c3 & m3 & -> & Hc3 & Hm).
      apply (denotes_word (py "罚款")) in Hm as ->.
      exists (pre ++ [c1; c2; c3]), post. rewrite Htext.
      by rewrite <- !app_assoc.
  - intros [(pre & post & Htext) | (digits & Hne & Hd & pre & post & Htext)].
    + exists pre, (py "罚款"), post, (word_branch (py "罚款")).
      split; [done |]. split; [left | by apply denotes_word].
    + eexists pre, _, post, _. split; [exact Htext |].
      split; [right; left |].
      apply denotes_once. eexists _, _. split; [reflexivity |].
      split; [apply Z.eqb_refl |]. apply denotes_more.
      exists digits, (py "元"). split; [done |]. split; [done |].
      split; [done |]. apply (denotes_word (py "元")). done.
Qed.


Lemma score_rule (q : Question) :
  py "记分规则" ∈ get_question_topics unicode_decimal q <->
  occurs_in (py "一次记") (topic_text q)
  \/ occurs_in (py "记分") (topic_text q)
  \/ exists digits,
       digits <> [] /\ Forall (fun c => unicode_decimal c = true) digits
       /\ (occurs_in (py "扣" ++ digits ++ py "分") (topic_text q)
           \/ occurs_in (py "记" ++ digits ++ py "分") (topic_text q)).
Proof.
  destruct (re_compile (py "扣\d+分|记\d+分|一次记|记分")) as [p|] eqn:Hp;
    [| vm_compute in Hp; discriminate].
  assert (Hin : (py "记分规则", py "扣\d+分|记\d+分|一次记|记分") ∈ TOPIC_RULES)
    by in_rules.
  rewrite (topic_rule_iff q _ _ p Hin Hp).
  vm_compute in Hp. injection Hp as <-.
  rewrite re_search_spec. split.
  - intros (pre & m & post & b & Htext & Hb & Hm).
    rewrite !elem_of_cons, elem_of_nil in Hb.
    destruct Hb as [-> | [-> | [-> | [-> | []]]]].
    + right. right.
      apply denotes_once in Hm as (c1 & m1 & -> & Hc1 & Hm).
      apply denotes_more in Hm as (digits & m2 & -> & Hd & Hne & Hm).
      apply denotes_once in Hm as (c2 & m3 & -> & Hc2 & ->).
      cbn [accepts] in *. apply Z.eqb_eq in Hc1 as ->, Hc2 as ->.
      exists digits. split; [done |]. split; [done |]. left.
      by exists pre, post.
    + right. right.
      apply denotes_once in Hm as (c1 & m1 & -> & Hc1 & Hm).
      apply denotes_more in Hm as (digits & m2 & -> & Hd & Hne & Hm).
      apply denotes_once in Hm as (c2 & m3 & -> & Hc2 & ->).
      cbn [accepts] in *. apply Z.eqb_eq in Hc1 as ->, Hc2 as ->.
      exists digits. split; [done |]. split; [done |]. right.
      by exists pre, post.
    + left. apply (denotes_word (py "一次记")) in Hm as ->.
      by exists pre, post.
    + right. left. apply (denotes_word (py "记分")) in Hm as ->.
      by exists pre, post.
  - intros [(pre & post & Htext)
           | [(pre & post & Htext)
             | (digits & Hne & Hd & [(pre & post & Htext)
                                    | (pre & post & Htext)])]].
    + exists pre, (py "一次记"), post, (word_branch (py "一次记")).
      split; [done |].
      split; [do 2 right; left | by apply denotes_word].
    + exists pre, (py "记分"), post, (word_branch (py "记分")).
      split; [done |].
      split; [do 3 right; left | by apply denotes_word].
    + eexists pre, _, post, _. split; [exact Htext |].
      split; [left |].
      apply denotes_once. eexists _, _. split; [reflexivity |].
      split; [apply Z.eqb_refl |]. apply denotes_more.
      exists digits, (py "分"). split; [done |]. split; [done |].
      split; [done |]. apply (denotes_word (py "分")). done.
    + eexists pre, _, post, _. split; [exact Htext |].
      split; [right; left |].
      apply denotes_once. eexists _, _. split; [reflexivity |].
      split; [apply Z.eqb_refl |]. apply denotes_more.
      exists digits, (py "分"). split; [done |]. split; [done |].
      split; [done |]. apply (denotes_word (py "分")). done.
Qed.

Lemma belt_rule (q : Question) :
  py "安全带使用" ∈ get_question_topics unicode_decimal q <->
  occurs_in (py "安全带") (topic_text q)
  \/ exists between,
       Forall (fun c => c <> 10) between
       /\ occurs_in (py "系" ++ between ++ py "带") (topic_text q).
Proof.
  destruct (re_compile (py "安全带|系.*带")) as [p|] eqn:Hp;
    [| vm_compute in Hp; discriminate].
  assert (Hin : (py "安全带使用", py "安全带|系.*带") ∈ TOPIC_RULES) by in_rules.
  rewrite (topic_rule_iff q _ _ p Hin Hp).
  vm_compute in Hp. injection Hp as <-.
  assert (Hdot : forall l : pystr,
            Forall (fun c => accepts unicode_decimal Dot c = true) l
            <-> Forall (fun c => c <> 10) l).
  { intros l. apply Forall_iff. intros c. cbn [accepts].
    rewrite negb_true_iff. apply Z.eqb_neq. }
  rewrite re_search_spec. split.
  - intros (pre & m & post & b & Htext & Hb & Hm).
    rewrite !elem_of_cons, elem_of_nil in Hb.
    destruct Hb as [-> | [-> | []]].
    + left. apply (denotes_word (py "安全带")) in Hm as ->.
      by exists pre, post.
    + right.
      apply denotes_once in Hm as (c1 & m1 & -> & Hc1 & Hm).
      apply denotes_any in Hm as (between & m2 & -> & Hd & Hm).
      apply denotes_once in Hm as (c2 & m3 & -> & Hc2 & ->).
      cbn [accepts] in Hc1, Hc2. apply Z.eqb_eq in Hc1 as ->, Hc2 as ->.
      exists between. split; [by apply Hdot |].
      by exists pre, post.
  - intros [(pre & post & Htext) | (between & Hd & pre & post & Htext)].
    + exists pre, (py "安全带"), post, (word_branch (py "安全带")).
      split; [done |]. split; [left | by apply denotes_word].
    + eexists pre, _, post, _. split; [exact Htext |].
      split; [right; left |].
      apply denotes_once. eexists _, _. split; [reflexivity |].
      split; [apply Z.eqb_refl |]. apply denotes_any.
      exists between, (py "带"). split; [done |].
      split; [by apply Hdot |]. apply (denotes_word (py "带")). done.
Qed.


Lemma tagged_sublist (compiled : list (pystr * Pattern)) (text : pystr) :
  sublist
    (map fst
       (filter (fun rule => re_search unicode_decimal rule.2 text = true)
          compiled))
    (map fst compiled).
Proof. apply fmap_sublist, sublist_filter. Qed.

Lemma topics_sublist (q : Question) :
  sublist (get_question_topics unicode_decimal q) (map fst TOPIC_RULES).
Proof.
  rewrite <- compiled_names.
  exact (tagged_sublist _compiled_topics (topic_text q)).
Qed.

(** X28. The topics of a question are names of [TOPIC_RULES], in the
    order of the table and each at most once.  A rule whose pattern is
    made of plain words tags a question exactly when one of the words
    occurs in its text (question, options joined by spaces, explanation,
    put end to end).  The fine rule tags it exactly when the text holds
    the word for a fine, or its [chu] character, one or more decimal
    digits and its [yuan] character in a row (the third alternative adds
    nothing); the score rule exactly when it holds one of its two words
    or a deduct or record character, digits and the point character; the
    seat-belt rule exactly when it holds its word or the fasten character
    and, later on the same line, the belt character. *)
Theorem topics_of_question (q : Question) :
  sublist (get_question_topics unicode_decimal q) (map fst TOPIC_RULES)
  /\ NoDup (get_question_topics unicode_decimal q)
  /\ (forall name pattern,
        (name, pattern) ∈ TOPIC_RULES -> plain_words pattern = true ->
        name ∈ get_question_topics unicode_decimal q <->
        exists word, word ∈ split_bar pattern
                     /\ occurs_in word (topic_text q))
  /\ (py "罚款金额" ∈ get_question_topics unicode_decimal q <->
      occurs_in (py "罚款") (topic_text q)
      \/ exists digits,
           digits <> [] /\ Forall (fun c => unicode_decimal c = true) digits
           /\ occurs_in (py "处" ++ digits ++ py "元") (topic_text q))
  /\ (py "记分规则" ∈ get_question_topics unicode_decimal q <->
      occurs_in (py "一次记") (topic_text q)
      \/ occurs_in (py "记分") (topic_text q)
      \/ exists digits,
           digits <> [] /\ Forall (fun c => unicode_decimal c = true) digits
           /\ (occurs_in (py "扣" ++ digits ++ py "分") (topic_text q)
               \/ occurs_in (py "记" ++ digits ++ py "分") (topic_text q)))
  /\ (py "安全带使用" ∈ get_question_topics unicode_decimal q <->
      occurs_in (py "安全带") (topic_text q)
      \/ exists between,
           Forall (fun c => c <> 10) between
           /\ occurs_in (py "系" ++ between ++ py "带") (topic_text q)).
Proof.
  split; [apply topics_sublist |]. split.
  - eapply sublist_NoDup; [apply topic_names_distinct | apply topics_sublist].
  - split; [intros name pattern; apply plain_rule |].
    split; [apply fine_rule |]. split; [apply score_rule | apply belt_rule].
Qed.

(** ** Practice by topic *)

Lemma cmd_topic_practice_eq (w : World) (subject : Z) (raw vt topic : pystr)
    (count : Z) (qs : list Question) :
  assoc (lower (strip raw)) VTYPE_ALIAS = Some vt ->
  data_dir w !! corpus_file vt subject = Some qs ->
  cmd_topic_practice unicode_decimal subject raw topic count w =
    match tagged_with unicode_decimal topic qs with
    | [] => (Ok (TopicUnknown topic), w)
    | _ =>
        let matched := tagged_with unicode_decimal topic qs in
        match random_sample matched (Z.min count (len matched)) w with
        | (Ok selected, w') =>
            (Ok (TopicQuestions
                   (mkTopicBatch vt subject topic (len matched)
                      (Z.min count (len matched))
                      (map (format_question_with_topics unicode_decimal)
                         selected))), w')
        | (Raise e, w') => (Raise e, w')
        end
    end.
Proof.
  intros Hvt Hqs. unfold cmd_topic_practice, bind at 1.
  rewrite (resolve_vtype_ok _ _ _ Hvt). unfold bind at 1.
  rewrite (load_questions_ok _ _ _ _ Hqs). cbv zeta.
  fold (tagged_with unicode_decimal topic qs).
  destruct (tagged_with unicode_decimal topic qs) as [|q0 rest]; [done |].
  unfold bind. by destruct (random_sample _ _ w) as [[?|?] ?].
Qed.

(** X29. [cmd_topic_practice] for a recognised licence class whose corpus
    exists, a topic that tags some question of it and a count that is not
    negative: the batch is drawn without repetition from the questions
    the topic tags; [total_available] is their number, [count] the
    smaller of the count asked for and that number, and that many
    questions are returned, each with its topics, the one asked for among
    them; no file is written. *)
Theorem topic_practice_batch (w : World) (subject : Z) (raw vt topic : pystr)
    (count : Z) (qs : list Question) :
  assoc (lower (strip raw)) VTYPE_ALIAS = Some vt ->
  data_dir w !! corpus_file vt subject = Some qs ->
  0 <= count ->
  tagged_with unicode_decimal topic qs <> [] ->
  exists b w' batch,
    cmd_topic_practice unicode_decimal subject raw topic count w
    = (Ok (TopicQuestions b), w')
    /\ same_files w w'
    /\ tb_questions b
       = map (format_question_with_topics unicode_decimal) batch
    /\ batch ⊆+ tagged_with unicode_decimal topic qs
    /\ tb_total_available b = len (tagged_with unicode_decimal topic qs)
    /\ tb_count b = Z.min count (tb_total_available b)
    /\ len (tb_questions b) = tb_count b
    /\ Forall (fun t => topic ∈ tg_topics t
                        /\ sublist (tg_topics t) (map fst TOPIC_RULES))
         (tb_questions b)
    /\ (NoDup (map q_id qs) ->
        NoDup (map (fun t => f_id (tg_question t)) (tb_questions b))).
Proof.
  intros Hvt Hqs Hcount Hsome.
  rewrite (cmd_topic_practice_eq w subject raw vt topic count qs Hvt Hqs).
  set (matched := tagged_with unicode_decimal topic qs) in *.
  assert (Hk : 0 <= Z.min count (len matched) <= len matched)
    by (unfold len; lia).
  destruct (random_sample_spec matched _ w Hk)
    as (l & w' & Hrun & Hw & Hlen & Hsub).
  exists (mkTopicBatch vt subject topic (len matched)
            (Z.min count (len matched))
            (map (format_question_with_topics unicode_decimal) l)), w', l.
  split.
  { destruct matched; [done |]. cbv zeta. by rewrite Hrun. }
  cbn [tb_questions tb_total_available tb_count].
  split; [done |]. split; [done |]. split; [done |]. split; [done |].
  split; [done |].
  split; [unfold len in *; by rewrite length_map |].
  split.
  - apply Forall_forall. intros t Ht.
    apply list_elem_of_fmap in Ht as (q & -> & Hq).
    cbn [format_question_with_topics tg_topics].
    split; [| apply topics_sublist].
    assert (Hin : q ∈ matched) by (by eapply elem_of_submseteq).
    by apply list_elem_of_filter in Hin as [? _].
  - intros Hnd. rewrite <- list_fmap_compose.
    apply (submseteq_NoDup' _ (map q_id qs)); [| done].
    change (map ((fun t => f_id (tg_question t))
                 ∘ format_question_with_topics unicode_decimal))
      with (map q_id).
    apply fmap_submseteq. etrans; [exact Hsub |].
    apply sublist_submseteq, sublist_filter.
Qed.

(** X30. [cmd_topic_practice] answers with the unknown-topic error, and
    neither draws nor writes, when no question of the corpus is tagged
    with the topic; this is always so for a name that is not in
    [TOPIC_RULES].  With a negative count and a topic that tags some
    question it stops with the [ValueError] of [random.sample]. *)
Theorem topic_practice_refusals (w : World) (subject : Z)
    (raw vt topic : pystr) (count : Z) (qs : list Question) :
  assoc (lower (strip raw)) VTYPE_ALIAS = Some vt ->
  data_dir w !! corpus_file vt subject = Some qs ->
  (tagged_with unicode_decimal topic qs = [] ->
   cmd_topic_practice unicode_decimal subject raw topic count w
   = (Ok (TopicUnknown topic), w))
  /\ (topic ∉ map fst TOPIC_RULES -> tagged_with unicode_decimal topic qs = [])
  /\ (count < 0 -> tagged_with unicode_decimal topic qs <> [] ->
      cmd_topic_practice unicode_decimal subject raw topic count w
      = (Raise ValueError, w)).
Proof.
  intros Hvt Hqs.
  rewrite (cmd_topic_practice_eq w subject raw vt topic count qs Hvt Hqs).
  split; [by intros -> |]. split.
  - intros Hout. unfold tagged_with. apply filter_none, Forall_forall.
    intros q _ Hin. apply Hout.
    eapply elem_of_sublist; [exact Hin | apply topics_sublist].
  - intros Hc Hsome.
    destruct (tagged_with unicode_decimal topic qs) as [|q0 rest] eqn:E;
      [done |].
    cbv zeta. unfold random_sample.
    assert ((Z.min count (len (q0 :: rest)) <? 0) = true) as ->
      by (apply Z.ltb_lt; unfold len; lia).
    done.
Qed.

End TopicFacts.

Lemma topics_of_question_witness :
  py "超车规定" ∈ get_question_topics ascii_decimal (overtaking_question 1)
  /\ get_question_topics ascii_decimal (overtaking_question 1)
     = [py "罚款金额"; py "超车规定"].
Proof.
  split; [| vm_compute; reflexivity].
  destruct (topics_of_question ascii_decimal (overtaking_question 1))
    as (_ & _ & Hplain & _).
  apply (Hplain (py "超车规定") (py "超车|超越|借道超")).
  - apply (bool_decide_unpack _). vm_compute. exact I.
  - vm_compute. reflexivity.
  - exists (py "超车"). split.
    + apply (bool_decide_unpack _). vm_compute. exact I.
    + exists [], (py "时应当怎样做加速 鸣喇叭处200元罚款").
      vm_compute. reflexivity.
Defined.

Lemma topic_practice_batch_witness :
  exists b w',
    cmd_topic_practice ascii_decimal 1 (py "c1") (py "超车规定") 5
      (sample_world [sample_question 1 (py "signs"); overtaking_question 2]
         None)
    = (Ok (TopicQuestions b), w')
    /\ tb_count b = 1.
Proof.
  destruct (topic_practice_batch ascii_decimal
              (sample_world
                 [sample_question 1 (py "signs"); overtaking_question 2] None)
              1 (py "c1") (py "c1") (py "超车规定") 5
              [sample_question 1 (py "signs"); overtaking_question 2])
    as (b & w' & batch & Hrun & _ & _ & _ & Hav & Hc & _).
  - vm_compute. reflexivity.
  - apply lookup_singleton_eq.
  - lia.
  - vm_compute. discriminate.
  - exists b, w'. split; [exact Hrun |]. rewrite Hc, Hav.
    vm_compute. reflexivity.
Defined.

Lemma topic_practice_refusals_witness :
  cmd_topic_practice ascii_decimal 1 (py "c1") (py "overtaking") 5
    (sample_world [sample_question 1 (py "signs"); overtaking_question 2]
       None)
  = (Ok (TopicUnknown (py "overtaking")),
     sample_world [sample_question 1 (py "signs"); overtaking_question 2]
       None).
Proof.
  destruct (topic_practice_refusals ascii_decimal
              (sample_world
                 [sample_question 1 (py "signs"); overtaking_question 2] None)
              1 (py "c1") (py "c1") (py "overtaking") 5
              [sample_question 1 (py "signs"); overtaking_question 2])
    as (Hnone & Hname & _).
  - vm_compute. reflexivity.
  - apply lookup_singleton_eq.
  - apply Hnone, Hname.
    intros Hin. apply (bool_decide_pack _) in Hin. vm_compute in Hin.
    exact Hin.
Defined.
